(** * Simulant: audio relay, capture pipeline and session orchestration

    A shallow embedding of the TypeScript sources
    - [src/utils/audio-resampler.ts]   (class [AudioResampler]),
    - [src/services/audio-capture.ts]  (class [AudioCapture]),
    - [src/services/openai-realtime.ts] (class [OpenAIRealtimeClient]),
    - [src/services/simli-client.ts]   (class [SimliClient]),
    - [src/services/session-manager.ts] (class [SessionManager]),
    together with the properties of the specification that concern them.

    JavaScript numbers are IEEE 754 binary64 values.  They are modelled by
    the standard library's executable specification [SpecFloat] at precision
    53 and maximal exponent 1024, so that every rounding the program performs
    is performed by the model as well. *)

From Stdlib Require Import ZArith String Ascii Bool Lia List.
From Stdlib Require Import Strings.Byte.
From Stdlib Require Import SpecFloat DecimalString.
Import ListNotations.
Local Open Scope Z_scope.

(** ** JavaScript numbers *)

Module F64.

Definition prec : Z := 53.
Definition emax : Z := 1024.

Definition float := spec_float.

Definition nan : float := S754_nan.
Definition of_Z (n : Z) : float := binary_normalize prec emax n 0 false.

Definition add : float -> float -> float := SFadd prec emax.
Definition sub : float -> float -> float := SFsub prec emax.
Definition mul : float -> float -> float := SFmul prec emax.
Definition div : float -> float -> float := SFdiv prec emax.
Definition sqrt : float -> float := SFsqrt prec emax.

(** [x < y] and [x > y]; both are false as soon as one side is NaN. *)
Definition ltb (x y : float) : bool := SFltb x y.
Definition gtb (x y : float) : bool := SFltb y x.

Definition valid (x : float) : bool := valid_binary prec emax x.

(** The integer [m * 2^e] rounded towards minus infinity. *)
Definition floor_scaled (m e : Z) : Z :=
  if 0 <=? e then m * 2 ^ e else m / 2 ^ (- e).

Definition signed_mantissa (s : bool) (m : positive) : Z :=
  if s then Zneg m else Zpos m.

(** [Math.floor], as an integer; [None] stands for NaN and the infinities,
    which [Math.floor] returns unchanged. *)
Definition floorZ (x : float) : option Z :=
  match x with
  | S754_zero _ => Some 0
  | S754_finite s m e => Some (floor_scaled (signed_mantissa s m) e)
  | S754_infinity _ | S754_nan => None
  end.

(** [Math.floor] as a number: integers, NaN and the infinities are left
    unchanged (a zero keeps its sign). *)
Definition floor (x : float) : float :=
  match x with
  | S754_finite s _ _ =>
      match floorZ x with
      | Some 0 => S754_zero s
      | Some n => of_Z n
      | None => x
      end
  | _ => x
  end.

(** [Math.round]: the closest integer, ties towards plus infinity. *)
Definition roundZ (x : float) : option Z :=
  match x with
  | S754_zero _ => Some 0
  | S754_finite s m e =>
      Some (if 0 <=? e then signed_mantissa s m * 2 ^ e
            else (2 * signed_mantissa s m + 2 ^ (- e)) / 2 ^ (- e + 1))
  | S754_infinity _ | S754_nan => None
  end.

(** Truncation towards zero, the first step of [ToInt16]. *)
Definition truncZ (x : float) : option Z :=
  match x with
  | S754_zero _ => Some 0
  | S754_finite s m e =>
      let a := floor_scaled (Zpos m) e in Some (if s then - a else a)
  | S754_infinity _ | S754_nan => None
  end.

(** [Math.min] and [Math.max] on two arguments. *)
Definition min (a b : float) : float :=
  match SFcompare a b with
  | None => S754_nan
  | Some Lt => a
  | Some Gt => b
  | Some Eq =>
      match a, b with
      | S754_zero sa, S754_zero sb => S754_zero (sa || sb)
      | _, _ => a
      end
  end.

Definition max (a b : float) : float :=
  match SFcompare a b with
  | None => S754_nan
  | Some Lt => b
  | Some Gt => a
  | Some Eq =>
      match a, b with
      | S754_zero sa, S754_zero sb => S754_zero (sa && sb)
      | _, _ => a
      end
  end.

End F64.

(** The signed 16-bit integer congruent to [z] modulo [2^16]: what a store
    into an [Int16Array] or [DataView.setInt16] keeps of an integer. *)
Definition wrapInt16 (z : Z) : Z := (z + 32768) mod 65536 - 32768.

(** [ToInt16] of a number: NaN and the infinities become 0, everything else
    is truncated and wrapped. *)
Definition toInt16 (x : F64.float) : Z :=
  match F64.truncZ x with
  | Some z => wrapInt16 z
  | None => 0
  end.

(** ** Errors thrown by the modelled code *)

Inductive JsError : Type :=
| InvalidCharacterError            (* thrown by [atob] *)
| RangeError                       (* typed-array construction *)
| Error (message : string)         (* [new Error(message)] *)
| TypeError                        (* a property read on [null] *)
| EventObject.                     (* a DOM event passed to [reject] *)

(** The outcome of a call: a value, an exception (a rejection, for an
    [async] function), or, for a promise only, no settlement at all. *)
Inductive Result (A : Type) : Type :=
| Ok (a : A)
| Throw (e : JsError)
| Pending.
Arguments Ok {A} a.
Arguments Throw {A} e.
Arguments Pending {A}.

(** ** Bytes and binary strings *)

Definition byteOfZ (z : Z) : byte :=
  match Byte.of_N (Z.to_N (z mod 256)) with
  | Some b => b
  | None => x00
  end.

Definition byteToZ (b : byte) : Z := Z.of_N (Byte.to_N b).

(** [String.fromCharCode(bytes[i])] and [binaryString.charCodeAt(i)] for
    code units below 256. *)
Definition binaryStringOfBytes (bs : list byte) : string :=
  string_of_list_ascii (map ascii_of_byte bs).

Definition bytesOfBinaryString (s : string) : list byte :=
  map byte_of_ascii (list_ascii_of_string s).

(** The two bytes [DataView.setInt16(_, z, true)] writes, low byte first. *)
Definition int16ToBytes (z : Z) : list byte :=
  let u := z mod 65536 in [byteOfZ u; byteOfZ (u / 256)].

(** The signed 16-bit integer an [Int16Array] reads from two bytes, low byte
    first (typed arrays use the byte order of the platform, little-endian on
    every browser target). *)
Definition int16OfBytes (lo hi : byte) : Z :=
  wrapInt16 (byteToZ lo + 256 * byteToZ hi).

Fixpoint int16sOfBytes (bs : list byte) : list Z :=
  match bs with
  | lo :: hi :: rest => int16OfBytes lo hi :: int16sOfBytes rest
  | _ => []
  end.

(** ** The platform's [atob] and [btoa]

    Modelled from the HTML standard's forgiving-base64 decode and encode:
    they are functions of the browser, not of this repository. *)

Module Base64.

Definition isAsciiWhitespace (c : ascii) : bool :=
  let n := Z.of_N (N_of_ascii c) in
  (n =? 9) || (n =? 10) || (n =? 12) || (n =? 13) || (n =? 32).

Definition isPad (c : ascii) : bool := Z.of_N (N_of_ascii c) =? 61.

(** The value of a character of the base64 alphabet. *)
Definition sextetOf (c : ascii) : option Z :=
  let n := Z.of_N (N_of_ascii c) in
  if (65 <=? n) && (n <=? 90) then Some (n - 65)
  else if (97 <=? n) && (n <=? 122) then Some (n - 71)
  else if (48 <=? n) && (n <=? 57) then Some (n + 4)
  else if n =? 43 then Some 62
  else if n =? 47 then Some 63
  else None.

Definition charOf (v : Z) : ascii :=
  ascii_of_N (Z.to_N
    (if v <? 26 then v + 65
     else if v <? 52 then v + 71
     else if v <? 62 then v - 4
     else if v =? 62 then 43 else 47)).

(** Step 2 of the decoder: when the length is a multiple of four, one or
    two trailing [=] are removed. *)
Definition stripPadding (cs : list ascii) : list ascii :=
  if Z.of_nat (length cs) mod 4 =? 0 then
    match rev cs with
    | p1 :: p2 :: r => if isPad p1 then (if isPad p2 then rev r else rev (p2 :: r)) else cs
    | _ => cs
    end
  else cs.

Fixpoint sextets (cs : list ascii) : option (list Z) :=
  match cs with
  | [] => Some []
  | c :: r =>
      match sextetOf c, sextets r with
      | Some v, Some vs => Some (v :: vs)
      | _, _ => None
      end
  end.

(** Groups of four sextets give three bytes; a final group of two gives one
    byte and one of three gives two, the left-over bits being discarded. *)
Fixpoint decodeSextets (vs : list Z) : list byte :=
  match vs with
  | a :: b :: c :: d :: rest =>
      let n := a * 262144 + b * 4096 + c * 64 + d in
      byteOfZ (n / 65536) :: byteOfZ (n / 256) :: byteOfZ n :: decodeSextets rest
  | [a; b; c] =>
      let n := a * 4096 + b * 64 + c in
      [byteOfZ (n / 1024); byteOfZ (n / 4)]
  | [a; b] => [byteOfZ ((a * 64 + b) / 16)]
  | _ => []
  end.

(** [atob]: [None] is the [InvalidCharacterError] exception. *)
Definition atob (data : string) : option string :=
  let cs := filter (fun c => negb (isAsciiWhitespace c)) (list_ascii_of_string data) in
  let cs := stripPadding cs in
  if Z.of_nat (length cs) mod 4 =? 1 then None
  else
    match sextets cs with
    | None => None
    | Some vs => Some (binaryStringOfBytes (decodeSextets vs))
    end.

Fixpoint encodeBytes (bs : list byte) : list ascii :=
  match bs with
  | a :: b :: c :: rest =>
      let n := byteToZ a * 65536 + byteToZ b * 256 + byteToZ c in
      charOf (n / 262144) :: charOf (n / 4096 mod 64) :: charOf (n / 64 mod 64)
        :: charOf (n mod 64) :: encodeBytes rest
  | [a; b] =>
      let n := byteToZ a * 1024 + byteToZ b * 4 in
      [charOf (n / 4096); charOf (n / 64 mod 64); charOf (n mod 64); "="%char]
  | [a] =>
      let n := byteToZ a * 16 in
      [charOf (n / 64); charOf (n mod 64); "="%char; "="%char]
  | [] => []
  end.

(** [btoa] of a binary string. *)
Definition btoa (binary : string) : string :=
  string_of_list_ascii (encodeBytes (bytesOfBinaryString binary)).

End Base64.

(** ** [AudioResampler] *)

Module AudioResampler.

Record ResamplerConfig : Type := {
  sourceSampleRate : Z;
  targetSampleRate : Z
}.

(** [new Int16Array(n)] for a number [n] ([ToIndex]): NaN gives the empty
    array, a negative or infinite length or one above [2^53 - 1] is a
    [RangeError]. *)
Definition typedArrayLength (x : F64.float) : Result nat :=
  match x with
  | S754_nan => Ok 0%nat
  | S754_infinity _ => Throw RangeError
  | _ =>
      match F64.truncZ x with
      | Some n => if (0 <=? n) && (n <? 2 ^ 53)
                  then Ok (Z.to_nat n) else Throw RangeError
      | None => Throw RangeError
      end
  end.

(** [samples[index]] as a number: [undefined], hence NaN in arithmetic,
    outside the array. *)
Definition sampleAt (samples : list Z) (index : option Z) : F64.float :=
  match index with
  | Some i =>
      if 0 <=? i then
        match nth_error samples (Z.to_nat i) with
        | Some v => F64.of_Z v
        | None => F64.nan
        end
      else F64.nan
  | None => F64.nan
  end.

(** The body of the interpolation loop at target index [i]. *)
Definition interpolate (ratio : F64.float) (samples : list Z) (i : nat) : Z :=
  let sourceIndex := F64.mul (F64.of_Z (Z.of_nat i)) ratio in
  let index1 := F64.floorZ sourceIndex in
  let index2 :=
    option_map (fun i1 => Z.min (i1 + 1) (Z.of_nat (length samples) - 1)) index1 in
  let fraction :=
    match index1 with
    | Some i1 => F64.sub sourceIndex (F64.of_Z i1)
    | None => F64.nan
    end in
  let value :=
    F64.add
      (F64.mul (sampleAt samples index1) (F64.sub (F64.of_Z 1) fraction))
      (F64.mul (sampleAt samples index2) fraction) in
  match F64.roundZ value with
  | Some z => wrapInt16 z
  | None => 0
  end.

(** [base64ToPCM16]: [atob], the copy into a [Uint8Array], and the
    [Int16Array] view of its buffer, which requires an even byte length.
    The [catch] block logs and rethrows. *)
Definition base64ToPCM16 (base64 : string) : Result (list Z) :=
  match Base64.atob base64 with
  | None => Throw InvalidCharacterError
  | Some binaryString =>
      let bytes := bytesOfBinaryString binaryString in
      if Nat.even (length bytes) then Ok (int16sOfBytes bytes)
      else Throw RangeError
  end.

Definition ratioOf (cfg : ResamplerConfig) : F64.float :=
  F64.div (F64.of_Z (sourceSampleRate cfg)) (F64.of_Z (targetSampleRate cfg)).

Definition outputLengthOf (cfg : ResamplerConfig) (samples : list Z) : F64.float :=
  F64.floor (F64.div (F64.of_Z (Z.of_nat (length samples))) (ratioOf cfg)).

Definition resample (cfg : ResamplerConfig) (samples : list Z) : Result (list Z) :=
  if sourceSampleRate cfg =? targetSampleRate cfg then Ok samples
  else
    let ratio := ratioOf cfg in
    match typedArrayLength (outputLengthOf cfg samples) with
    | Ok outputLength =>
        Ok (map (interpolate ratio samples) (seq 0 outputLength))
    | Throw e => Throw e
    | Pending => Pending
    end.


Definition pcm16ToUint8Array (samples : list Z) : list byte :=
  flat_map int16ToBytes samples.

Definition resampleFromBase64 (cfg : ResamplerConfig) (base64Audio : string)
  : Result (list byte) :=
  match base64ToPCM16 base64Audio with
  | Ok pcm16Samples =>
      match resample cfg pcm16Samples with
      | Ok resampled => Ok (pcm16ToUint8Array resampled)
      | Throw e => Throw e
      | Pending => Pending
      end
  | Throw e => Throw e
  | Pending => Pending
  end.

Definition createAudioResampler (sourceSampleRate targetSampleRate : Z)
  : ResamplerConfig :=
  {| sourceSampleRate := sourceSampleRate; targetSampleRate := targetSampleRate |}.

End AudioResampler.

(** ** Status messages and connection states ([types/websocket.ts]) *)

Module ConnectionState.
Inductive t : Type :=
| idle | connecting | connected | ready | active | ending | error | closed.

Definition eqb (a b : t) : bool :=
  match a, b with
  | idle, idle | connecting, connecting | connected, connected
  | ready, ready | active, active | ending, ending
  | error, error | closed, closed => true
  | _, _ => false
  end.
End ConnectionState.

Module Category.
Inductive t : Type := connection | audio | openai | simli | error | user.
End Category.

Module Level.
Inductive t : Type := info | success | warning | error.
End Level.

(** A status message; its [timestamp] field ([Date.now()]) is left out. *)
Record StatusUpdate : Type := {
  category : Category.t;
  message : string;
  level : Level.t
}.

(** [error.message] of a thrown value, and [error instanceof Error]. *)
Definition errorMessage (e : JsError) : string :=
  match e with
  | Error m => m
  | InvalidCharacterError => "The string to be decoded is not correctly encoded."
  | RangeError => "byte length of Int16Array should be a multiple of 2"
  | TypeError => "Cannot read properties of null (reading 'getSessionId')"
  | EventObject => "undefined"
  end.

Definition isErrorInstance (e : JsError) : bool :=
  match e with
  | EventObject => false
  | _ => true
  end.

(** ** [AudioCapture] *)

Module AudioCapture.

Record AudioCaptureConfig : Type := {
  sampleRate : Z;
  channelCount : Z;
  chunkSize : Z;
  voiceActivityThreshold : F64.float
}.

(** The defaults of the constructor; [0.01] is the double nearest to 1/100. *)
Definition defaultConfig : AudioCaptureConfig := {|
  sampleRate := 24000;
  channelCount := 1;
  chunkSize := 4096;
  voiceActivityThreshold := F64.div (F64.of_Z 1) (F64.of_Z 100)
|}.

(** The nullable handles of the audio graph are booleans: [true] when the
    field is not [null].  [frequencyBinCount] is half of [fftSize = 256].

    The capture is an [EventEmitter].  It is a private field of the
    manager, so the only listeners it ever has are the ones the manager
    registers in [setupAudioCaptureListeners], and they are only removed all
    at once: [listening] tells whether they are registered. *)
Record t : Type := {
  listening : bool;
  audioContext : bool;
  mediaStream : bool;
  mediaStreamSource : bool;
  processor : bool;
  analyser : bool;
  config : AudioCaptureConfig;
  isCapturing : bool;
  isMuted : bool;
  lastVoiceLogTime : Z;
  voiceDetectionCount : Z
}.

Definition frequencyBinCount : nat := 128.

Inductive Event : Type :=
| audio (data : list byte) (timestamp : Z) (voiceActivity : bool)
| voiceDetected
| started
| stopped
| error (e : JsError).

Definition new (cfg : AudioCaptureConfig) : t := {|
  listening := false;
  audioContext := false; mediaStream := false; mediaStreamSource := false;
  processor := false; analyser := false; config := cfg;
  isCapturing := false; isMuted := false;
  lastVoiceLogTime := 0; voiceDetectionCount := 0
|}.

(** [detectVoiceActivity]; [timeDomain] is what [getByteTimeDomainData]
    writes into the fresh [Uint8Array], whose other entries stay 0. *)
Definition detectVoiceActivity (timeDomain : list Z) (ac : t) : bool :=
  if negb (analyser ac) then false
  else
    let bufferLength := frequencyBinCount in
    let sum :=
      fold_left
        (fun sum i =>
           let normalized :=
             F64.div (F64.of_Z (nth i timeDomain 0 - 128)) (F64.of_Z 128) in
           F64.add sum (F64.mul normalized normalized))
        (seq 0 bufferLength) (F64.of_Z 0) in
    let rms := F64.sqrt (F64.div sum (F64.of_Z (Z.of_nat bufferLength))) in
    F64.gtb rms (voiceActivityThreshold (config ac)).

(** One iteration of the loop of [convertToPCM16]: the number handed to
    [setInt16]. *)
Definition scaleSample (sample : F64.float) : F64.float :=
  let sample := F64.max (F64.of_Z (-1)) (F64.min (F64.of_Z 1) sample) in
  if F64.ltb sample (F64.of_Z 0)
  then F64.mul sample (F64.of_Z 32768)
  else F64.mul sample (F64.of_Z 32767).

Definition convertToPCM16 (float32Array : list F64.float) : list byte :=
  flat_map (fun sample => int16ToBytes (toInt16 (scaleSample sample))) float32Array.

(** [processAudio]; [now] is [Date.now()]. *)
Definition processAudio (now : Z) (inputData : list F64.float)
    (timeDomain : list Z) (ac : t) : t * list Event :=
  if negb (isCapturing ac) || negb (analyser ac) then (ac, [])
  else
    let voiceActivity := detectVoiceActivity timeDomain ac in
    let pcmData := convertToPCM16 inputData in
    let emitted1 :=
      if negb (isMuted ac) then [audio pcmData now voiceActivity] else [] in
    if voiceActivity && negb (isMuted ac) then
      let count := voiceDetectionCount ac + 1 in
      let logged := now - lastVoiceLogTime ac >? 1000 in
      ({| listening := listening ac;
          audioContext := audioContext ac; mediaStream := mediaStream ac;
          mediaStreamSource := mediaStreamSource ac; processor := processor ac;
          analyser := analyser ac; config := config ac;
          isCapturing := isCapturing ac; isMuted := isMuted ac;
          lastVoiceLogTime := if logged then now else lastVoiceLogTime ac;
          voiceDetectionCount := if logged then 0 else count |},
       emitted1 ++ [voiceDetected])
    else (ac, emitted1).

(** What the microphone request of [start] runs into. *)
Inductive MicrophoneOutcome : Type :=
| Granted
| Denied (e : JsError)
| TimedOut.

Definition start (outcome : MicrophoneOutcome) (ac : t)
  : Result unit * t * list Event :=
  if isCapturing ac then
    (Throw (Error "Audio capture is already running"), ac, [])
  else
    match outcome with
    | Granted =>
        (Ok tt,
         {| listening := listening ac;
            audioContext := true; mediaStream := true; mediaStreamSource := true;
            processor := true; analyser := true; config := config ac;
            isCapturing := true; isMuted := isMuted ac;
            lastVoiceLogTime := lastVoiceLogTime ac;
            voiceDetectionCount := voiceDetectionCount ac |},
         [started])
    | Denied e => (Throw e, ac, [error e])
    | TimedOut =>
        let e := Error "Microphone access timeout after 10 seconds" in
        (Throw e, ac, [error e])
    end.

Definition stop (ac : t) : t * list Event :=
  ({| listening := listening ac;
      audioContext := false; mediaStream := false; mediaStreamSource := false;
      processor := false; analyser := false; config := config ac;
      isCapturing := false; isMuted := isMuted ac;
      lastVoiceLogTime := lastVoiceLogTime ac;
      voiceDetectionCount := voiceDetectionCount ac |},
   [stopped]).

Definition isActive (ac : t) : bool := isCapturing ac.

Definition setMuted (muted : bool) (ac : t) : t :=
  {| listening := listening ac;
     audioContext := audioContext ac; mediaStream := mediaStream ac;
     mediaStreamSource := mediaStreamSource ac; processor := processor ac;
     analyser := analyser ac; config := config ac;
     isCapturing := isCapturing ac; isMuted := muted;
     lastVoiceLogTime := lastVoiceLogTime ac;
     voiceDetectionCount := voiceDetectionCount ac |}.

Definition isMicrophoneMuted (ac : t) : bool := isMuted ac.

(** The registry of the emitter the capture extends: the registration of
    the listeners of the manager, and [removeAllListeners()]. *)
Definition withListeners (registered : bool) (ac : t) : t :=
  {| listening := registered;
     audioContext := audioContext ac; mediaStream := mediaStream ac;
     mediaStreamSource := mediaStreamSource ac; processor := processor ac;
     analyser := analyser ac; config := config ac;
     isCapturing := isCapturing ac; isMuted := isMuted ac;
     lastVoiceLogTime := lastVoiceLogTime ac;
     voiceDetectionCount := voiceDetectionCount ac |}.

Definition removeAllListeners (ac : t) : t := withListeners false ac.

End AudioCapture.

(** ** [OpenAIRealtimeClient] *)

Module OpenAIRealtimeClient.

Inductive ReadyState : Type := CONNECTING | OPEN | CLOSING | CLOSED.

Record OpenAIRealtimeConfig : Type := {
  apiKey : string;
  model : string;
  instructions : option string
}.

(** [ws] is [None] for [null], otherwise the ready state of the socket. *)
Record t : Type := {
  ws : option ReadyState;
  config : OpenAIRealtimeConfig;
  isConnected : bool;
  sessionId : option string
}.

(** The JSON messages written to the socket. *)
Inductive ClientMessage : Type :=
| input_audio_buffer_append (audio : string)
| input_audio_buffer_commit
| response_create
| session_update (instructions : option string).

(** The JSON messages read from the socket, by their [type]. *)
Inductive ServerMessage : Type :=
| session_created (id : string)
| session_updated
| conversation_item_created (userMessage : bool)
| speech_started
| speech_stopped
| response_audio_delta (delta : option string)
| response_audio_done
| transcription_completed (transcript : string)
| response_output_text_delta (delta : string)
| response_done
| response_created
| server_error (message : option string)
| unhandled (type : string).

Inductive Event : Type :=
| status (s : StatusUpdate)
| sessionCreated
| userMessageCreated
| audioResponse (delta : option string)
| audioResponseComplete
| transcript (text : string)
| textDelta (delta : string)
| responseComplete
| error (message : option string)
| disconnected.

(** What an operation does: events for the listeners, calls on the socket. *)
Inductive Output : Type :=
| emit (e : Event)
| send (m : ClientMessage)
| wsClose.

Definition new (cfg : OpenAIRealtimeConfig) : t :=
  {| ws := None; config := cfg; isConnected := false; sessionId := None |}.

Definition emitStatus (c : Category.t) (m : string) (l : Level.t) : list Output :=
  [emit (status {| category := c; message := m; level := l |})].

Definition isOpen (c : t) : bool :=
  match ws c with Some OPEN => true | _ => false end.

Definition sendMessage (m : ClientMessage) (c : t) : list Output :=
  if isOpen c then [send m] else [].

Definition arrayBufferToBase64 (buffer : list byte) : string :=
  Base64.btoa (binaryStringOfBytes buffer).

Definition sendAudioData (audioData : list byte) (c : t) : list Output :=
  if negb (isConnected c) || negb (isOpen c) then []
  else sendMessage (input_audio_buffer_append (arrayBufferToBase64 audioData)) c.

Definition commitAudio (c : t) : list Output :=
  sendMessage input_audio_buffer_commit c.

Definition createResponse (c : t) : list Output :=
  sendMessage response_create c.

Definition orElse (a b : option string) : option string :=
  match a with
  | Some EmptyString | None => b
  | Some _ => a
  end.

Definition updateSession (instr : option string) (c : t) : list Output :=
  sendMessage (session_update (orElse instr (instructions (config c)))) c.

Definition disconnect (c : t) : t * list Output :=
  ({| ws := None; config := config c; isConnected := false; sessionId := None |},
   match ws c with Some _ => [wsClose] | None => [] end).

Definition isActive (c : t) : bool := isConnected c.
Definition getSessionId (c : t) : option string := sessionId c.

Definition decimal (z : Z) : string :=
  NilZero.string_of_int (Z.to_int z).

(** The [onclose] handler installed by [connect].  The second component
    tells whether the handler calls [reject]. *)
Definition onclose (code : Z) (reason : string) (c : t)
  : t * list Output * option JsError :=
  let c' := {| ws := option_map (fun _ => CLOSED) (ws c); config := config c;
               isConnected := false; sessionId := sessionId c |} in
  let reason := match reason with EmptyString => "unknown reason"%string | _ => reason end in
  let message :=
    if code =? 1006 then
      ("connection closed abnormally (code " ++ decimal code
         ++ "): check Edge Function logs")%string
    else if negb (code =? 1000) then
      ("connection closed (code " ++ decimal code ++ "): " ++ reason)%string
    else "disconnected from OpenAI"%string in
  (c',
   emitStatus Category.openai message
     (if code =? 1000 then Level.warning else Level.error)
     ++ [emit disconnected],
   if negb (code =? 1000) then
     Some (Error ("WebSocket closed with code " ++ decimal code ++ ": " ++ reason))
   else None).

(** The [onopen] handler. *)
Definition onopen (c : t) : t * list Output :=
  ({| ws := Some OPEN; config := config c; isConnected := true;
      sessionId := sessionId c |},
   emitStatus Category.openai "connected to OpenAI Realtime API via proxy"
     Level.success).

(** How the asynchronous part of [connect] ends. *)
Inductive ConnectOutcome : Type :=
| UrlNotConfigured
| PreflightFailed (message : string)
| Opened
| ErrorBeforeOpen (code : Z) (reason : string)
| ClosedBeforeOpen (code : Z) (reason : string)
| TimedOut.

(** The [onerror] handler: a status, and [reject(error)] when the socket
    never opened. *)
Definition onerror (c : t) : list Output * option JsError :=
  (emitStatus Category.error "WebSocket error: connection failed" Level.error,
   if isConnected c then None else Some EventObject).

Definition connect (outcome : ConnectOutcome) (c : t)
  : Result unit * t * list Output :=
  match outcome with
  | UrlNotConfigured => (Throw (Error "VITE_SUPABASE_URL not configured"), c, [])
  | _ =>
      let o1 := emitStatus Category.openai
                  "validating authentication and API keys..." Level.info in
      match outcome with
      | PreflightFailed m =>
          (Throw (Error m), c, o1 ++ emitStatus Category.error m Level.error)
      | _ =>
          let o2 := o1 ++ emitStatus Category.openai
                      "establishing WebSocket connection..." Level.info in
          let c1 := {| ws := Some CONNECTING; config := config c;
                       isConnected := isConnected c; sessionId := sessionId c |} in
          match outcome with
          | Opened => let '(c2, o3) := onopen c1 in (Ok tt, c2, o2 ++ o3)
          | ErrorBeforeOpen code reason =>
              let '(o3, rej) := onerror c1 in
              let '(c2, o4, _) := onclose code reason c1 in
              (match rej with
               | Some e => Throw e
               | None => Ok tt
               end, c2, o2 ++ o3 ++ o4)
          | ClosedBeforeOpen code reason =>
              let '(c2, o3, rej) := onclose code reason c1 in
              match rej with
              | Some e => (Throw e, c2, o2 ++ o3)
              | None =>
                  (Throw (Error "OpenAI connection timeout"), c2,
                   o2 ++ o3 ++ [wsClose])
              end
          | _ =>
              (Throw (Error "OpenAI connection timeout"),
               {| ws := Some CLOSING; config := config c1;
                  isConnected := isConnected c1; sessionId := sessionId c1 |},
               o2 ++ [wsClose])
          end
      end
  end.

Definition handleMessage (m : ServerMessage) (c : t) : t * list Output :=
  match m with
  | session_created id =>
      ({| ws := ws c; config := config c; isConnected := isConnected c;
          sessionId := Some id |},
       [emit sessionCreated]
         ++ emitStatus Category.openai "session initialized" Level.success)
  | session_updated =>
      (c, emitStatus Category.openai "session configuration updated" Level.success)
  | conversation_item_created userMessage =>
      (c, if userMessage then [emit userMessageCreated] else [])
  | speech_started => (c, emitStatus Category.user "speech detected" Level.info)
  | speech_stopped => (c, emitStatus Category.user "speech ended" Level.info)
  | response_audio_delta delta => (c, [emit (audioResponse delta)])
  | response_audio_done => (c, [emit audioResponseComplete])
  | transcription_completed text =>
      (c, [emit (transcript text)]
            ++ emitStatus Category.user
                 ("transcript: " ++ String (ascii_of_nat 34) text
                    ++ String (ascii_of_nat 34) EmptyString)%string Level.info)
  | response_output_text_delta delta => (c, [emit (textDelta delta)])
  | response_done => (c, [emit responseComplete])
  | response_created => (c, [])
  | server_error message =>
      (c, emitStatus Category.error
            ("OpenAI error: " ++ match orElse message None with
                                 | Some m => m
                                 | None => "unknown error"
                                 end)%string Level.error
            ++ [emit (error message)])
  | unhandled _ => (c, [])
  end.

End OpenAIRealtimeClient.

(** ** [SimliClient] *)

Module SimliClient.

(** The [<audio>] element, as far as the client touches it. *)
Record AudioElement : Type := {
  paused : bool;
  muted : bool
}.

Record SimliConfig : Type := {
  apiKey : string;
  faceId : string;
  handleSilence : bool;
  maxSessionLength : Z;
  maxIdleTime : Z;
  videoElement : bool;
  configAudioElement : option AudioElement
}.

(** [client] tells whether the official client object is present. *)
Record t : Type := {
  client : bool;
  config : SimliConfig;
  isConnectedFlag : bool;
  audioElement : option AudioElement;
  audioElementCreatedByUs : bool;
  instanceId : Z
}.

(** Calls on the official client of the [simli-client] package. *)
Inductive OfficialCall : Type :=
| Initialize
| officialStart
| officialSendAudioData (audioData : list byte)
| ClearBuffer
| officialClose.

Inductive Output : Type :=
| emitStatus (s : StatusUpdate)
| call (c : OfficialCall).

Definition status (c : Category.t) (m : string) (l : Level.t) : list Output :=
  [emitStatus {| category := c; message := m; level := l |}].

(** The constructor; [counter] is the module-level instance counter, which
    it increments. *)
Definition new (counter : Z) (cfg : SimliConfig) : t * Z :=
  ({| client := false; config := cfg; isConnectedFlag := false;
      audioElement := None; audioElementCreatedByUs := false;
      instanceId := counter + 1 |}, counter + 1).

Inductive StartOutcome : Type :=
| Connected
| Failed (error : string)
| TimedOut.

Definition start (outcome : StartOutcome) (c : t) : Result unit * t * list Output :=
  if negb (videoElement (config c)) then
    (Throw (Error "Video element is required"), c, [])
  else
    let '(el, byUs) :=
      match configAudioElement (config c) with
      | Some el => (el, false)
      | None => ({| paused := true; muted := false |}, true)
      end in
    let c1 := {| client := true; config := config c;
                 isConnectedFlag := isConnectedFlag c;
                 audioElement := Some el; audioElementCreatedByUs := byUs;
                 instanceId := instanceId c |} in
    let o1 := [call Initialize]
                ++ status Category.simli "initializing connection" Level.info
                ++ [call officialStart] in
    match outcome with
    | Connected =>
        (Ok tt,
         {| client := true; config := config c1; isConnectedFlag := true;
            audioElement := audioElement c1;
            audioElementCreatedByUs := audioElementCreatedByUs c1;
            instanceId := instanceId c1 |},
         o1 ++ status Category.simli "connected to Simli" Level.success)
    | Failed err =>
        let m := ("Simli connection failed: " ++ err)%string in
        (Throw (Error m),
         {| client := true; config := config c1; isConnectedFlag := false;
            audioElement := audioElement c1;
            audioElementCreatedByUs := audioElementCreatedByUs c1;
            instanceId := instanceId c1 |},
         o1 ++ status Category.error m Level.error)
    | TimedOut =>
        if isConnectedFlag c1 then (Pending, c1, o1)
        else (Throw (Error "Simli connection timeout"), c1, o1)
    end.

Definition initializePreview := start.
Definition initialize := start.

Definition sendAudioData (audioData : list byte) (c : t) : list Output :=
  if negb (client c) then []
  else if negb (isConnectedFlag c) then []
  else [call (officialSendAudioData audioData)].

Definition clearBuffer (c : t) : list Output :=
  if negb (client c) then [] else [call ClearBuffer].

Definition withAudioElement (el : option AudioElement) (c : t) : t :=
  {| client := client c; config := config c;
     isConnectedFlag := isConnectedFlag c; audioElement := el;
     audioElementCreatedByUs := audioElementCreatedByUs c;
     instanceId := instanceId c |}.

Definition stopAudio (c : t) : t :=
  match audioElement c with
  | Some _ => withAudioElement (Some {| paused := true; muted := true |}) c
  | None => c
  end.

Definition resumeAudio (c : t) : t :=
  match audioElement c with
  | Some el => withAudioElement (Some {| paused := paused el; muted := false |}) c
  | None => c
  end.

Definition isConnected (c : t) : bool := isConnectedFlag c.

Definition close (c : t) : t * list Output :=
  let c1 := stopAudio c in
  ({| client := false; config := config c1; isConnectedFlag := false;
      audioElement := None; audioElementCreatedByUs := false;
      instanceId := instanceId c1 |},
   (if client c1 then [call officialClose] else [])
     ++ status Category.simli "connection closed" Level.info).

Definition disconnect := close.

End SimliClient.

(** ** [VideoHandler] *)

Module VideoHandler.

Record t : Type := {
  videoElement : bool;
  mediaSource : bool;
  sourceBuffer : bool;
  queue : list (list byte);
  isAppending : bool
}.

Definition new : t :=
  {| videoElement := false; mediaSource := false; sourceBuffer := false;
     queue := []; isAppending := false |}.

Definition setVideoElement (v : t) : t :=
  {| videoElement := true; mediaSource := mediaSource v;
     sourceBuffer := sourceBuffer v; queue := queue v;
     isAppending := isAppending v |}.

Definition getVideoElement (v : t) : bool := videoElement v.

Definition clear (v : t) : t :=
  {| videoElement := videoElement v; mediaSource := false;
     sourceBuffer := false; queue := []; isAppending := false |}.

Definition destroy (v : t) : t :=
  {| videoElement := false; mediaSource := false;
     sourceBuffer := false; queue := []; isAppending := false |}.

End VideoHandler.

(** ** [SessionManager] *)

Module SessionManager.

Record SessionConfig : Type := {
  faceId : option string;
  characterInstructions : option string
}.

(** The fields of the class.  [simliClientInstanceCounter] is the
    module-level counter of [simli-client.ts], carried along here. *)
Record t : Type := {
  openaiClient : option OpenAIRealtimeClient.t;
  simliClient : option SimliClient.t;
  audioCapture : AudioCapture.t;
  videoHandler : VideoHandler.t;
  sessionId : option string;
  state : ConnectionState.t;
  config : SessionConfig;
  openaiApiKey : option string;
  simliApiKey : option string;
  previewTimeout : option Z;
  audioResampler : AudioResampler.ResamplerConfig;
  audioChunksSent : Z;
  lastAudioLogTime : Z;
  simliClientInstanceCounter : Z
}.

Inductive Event : Type :=
| status (s : StatusUpdate)
| stateChange (oldState newState : ConnectionState.t)
| audioLevel (level : F64.float)
| connected (sessionId : option string)
| disconnected
| ended
| sessionReady (openaiConnected simliConnected : bool)
| transcript (text : string).

(** Everything an operation does to the outside: the calls of [this.emit]
    (the events for the listeners the application has registered on the
    manager) and of [this.removeAllListeners()], writes to the speech
    socket, calls on the official avatar client, timers. *)
Inductive Output : Type :=
| emit (e : Event)
| removeAllListeners
| openaiSend (m : OpenAIRealtimeClient.ClientMessage)
| openaiClose
| simliCall (c : SimliClient.OfficialCall)
| setTimeout (id : Z) (delay : Z)
| clearTimeout (id : Z).

Definition defaultFaceId : string := "6ebf0aa7-6fed-443d-a4c6-fd1e3080b215".

(** [setupAudioCaptureListeners] registers the three listeners of the
    manager on the capture; what they do is [onCaptureEvent] below. *)
Definition setupAudioCaptureListeners (ac : AudioCapture.t) : AudioCapture.t :=
  AudioCapture.withListeners true ac.

Definition new (cfg : SessionConfig) (counter : Z) : t := {|
  openaiClient := None;
  simliClient := None;
  audioCapture :=
    setupAudioCaptureListeners (AudioCapture.new AudioCapture.defaultConfig);
  videoHandler := VideoHandler.new;
  sessionId := None;
  state := ConnectionState.idle;
  config := {| faceId := match faceId cfg with
                         | Some f => Some f
                         | None => Some defaultFaceId
                         end;
               characterInstructions := characterInstructions cfg |};
  openaiApiKey := None;
  simliApiKey := None;
  previewTimeout := None;
  audioResampler := AudioResampler.createAudioResampler 24000 16000;
  audioChunksSent := 0;
  lastAudioLogTime := 0;
  simliClientInstanceCounter := counter
|}.

(** *** Field updates *)

Definition set_openaiClient (v : option OpenAIRealtimeClient.t) (sm : t) : t :=
  {| openaiClient := v; simliClient := simliClient sm;
     audioCapture := audioCapture sm; videoHandler := videoHandler sm;
     sessionId := sessionId sm; state := state sm; config := config sm;
     openaiApiKey := openaiApiKey sm; simliApiKey := simliApiKey sm;
     previewTimeout := previewTimeout sm; audioResampler := audioResampler sm;
     audioChunksSent := audioChunksSent sm;
     lastAudioLogTime := lastAudioLogTime sm;
     simliClientInstanceCounter := simliClientInstanceCounter sm |}.

Definition set_simliClient (v : option SimliClient.t) (sm : t) : t :=
  {| openaiClient := openaiClient sm; simliClient := v;
     audioCapture := audioCapture sm; videoHandler := videoHandler sm;
     sessionId := sessionId sm; state := state sm; config := config sm;
     openaiApiKey := openaiApiKey sm; simliApiKey := simliApiKey sm;
     previewTimeout := previewTimeout sm; audioResampler := audioResampler sm;
     audioChunksSent := audioChunksSent sm;
     lastAudioLogTime := lastAudioLogTime sm;
     simliClientInstanceCounter := simliClientInstanceCounter sm |}.

Definition set_audioCapture (v : AudioCapture.t) (sm : t) : t :=
  {| openaiClient := openaiClient sm; simliClient := simliClient sm;
     audioCapture := v; videoHandler := videoHandler sm;
     sessionId := sessionId sm; state := state sm; config := config sm;
     openaiApiKey := openaiApiKey sm; simliApiKey := simliApiKey sm;
     previewTimeout := previewTimeout sm; audioResampler := audioResampler sm;
     audioChunksSent := audioChunksSent sm;
     lastAudioLogTime := lastAudioLogTime sm;
     simliClientInstanceCounter := simliClientInstanceCounter sm |}.

Definition set_videoHandler (v : VideoHandler.t) (sm : t) : t :=
  {| openaiClient := openaiClient sm; simliClient := simliClient sm;
     audioCapture := audioCapture sm; videoHandler := v;
     sessionId := sessionId sm; state := state sm; config := config sm;
     openaiApiKey := openaiApiKey sm; simliApiKey := simliApiKey sm;
     previewTimeout := previewTimeout sm; audioResampler := audioResampler sm;
     audioChunksSent := audioChunksSent sm;
     lastAudioLogTime := lastAudioLogTime sm;
     simliClientInstanceCounter := simliClientInstanceCounter sm |}.

Definition set_sessionId (v : option string) (sm : t) : t :=
  {| openaiClient := openaiClient sm; simliClient := simliClient sm;
     audioCapture := audioCapture sm; videoHandler := videoHandler sm;
     sessionId := v; state := state sm; config := config sm;
     openaiApiKey := openaiApiKey sm; simliApiKey := simliApiKey sm;
     previewTimeout := previewTimeout sm; audioResampler := audioResampler sm;
     audioChunksSent := audioChunksSent sm;
     lastAudioLogTime := lastAudioLogTime sm;
     simliClientInstanceCounter := simliClientInstanceCounter sm |}.

Definition set_state (v : ConnectionState.t) (sm : t) : t :=
  {| openaiClient := openaiClient sm; simliClient := simliClient sm;
     audioCapture := audioCapture sm; videoHandler := videoHandler sm;
     sessionId := sessionId sm; state := v; config := config sm;
     openaiApiKey := openaiApiKey sm; simliApiKey := simliApiKey sm;
     previewTimeout := previewTimeout sm; audioResampler := audioResampler sm;
     audioChunksSent := audioChunksSent sm;
     lastAudioLogTime := lastAudioLogTime sm;
     simliClientInstanceCounter := simliClientInstanceCounter sm |}.

Definition set_openaiApiKey (v : option string) (sm : t) : t :=
  {| openaiClient := openaiClient sm; simliClient := simliClient sm;
     audioCapture := audioCapture sm; videoHandler := videoHandler sm;
     sessionId := sessionId sm; state := state sm; config := config sm;
     openaiApiKey := v; simliApiKey := simliApiKey sm;
     previewTimeout := previewTimeout sm; audioResampler := audioResampler sm;
     audioChunksSent := audioChunksSent sm;
     lastAudioLogTime := lastAudioLogTime sm;
     simliClientInstanceCounter := simliClientInstanceCounter sm |}.

Definition set_simliApiKey (v : option string) (sm : t) : t :=
  {| openaiClient := openaiClient sm; simliClient := simliClient sm;
     audioCapture := audioCapture sm; videoHandler := videoHandler sm;
     sessionId := sessionId sm; state := state sm; config := config sm;
     openaiApiKey := openaiApiKey sm; simliApiKey := v;
     previewTimeout := previewTimeout sm; audioResampler := audioResampler sm;
     audioChunksSent := audioChunksSent sm;
     lastAudioLogTime := lastAudioLogTime sm;
     simliClientInstanceCounter := simliClientInstanceCounter sm |}.

Definition set_previewTimeout (v : option Z) (sm : t) : t :=
  {| openaiClient := openaiClient sm; simliClient := simliClient sm;
     audioCapture := audioCapture sm; videoHandler := videoHandler sm;
     sessionId := sessionId sm; state := state sm; config := config sm;
     openaiApiKey := openaiApiKey sm; simliApiKey := simliApiKey sm;
     previewTimeout := v; audioResampler := audioResampler sm;
     audioChunksSent := audioChunksSent sm;
     lastAudioLogTime := lastAudioLogTime sm;
     simliClientInstanceCounter := simliClientInstanceCounter sm |}.

Definition set_audioLog (sent lastLog : Z) (sm : t) : t :=
  {| openaiClient := openaiClient sm; simliClient := simliClient sm;
     audioCapture := audioCapture sm; videoHandler := videoHandler sm;
     sessionId := sessionId sm; state := state sm; config := config sm;
     openaiApiKey := openaiApiKey sm; simliApiKey := simliApiKey sm;
     previewTimeout := previewTimeout sm; audioResampler := audioResampler sm;
     audioChunksSent := sent; lastAudioLogTime := lastLog;
     simliClientInstanceCounter := simliClientInstanceCounter sm |}.

Definition set_counter (v : Z) (sm : t) : t :=
  {| openaiClient := openaiClient sm; simliClient := simliClient sm;
     audioCapture := audioCapture sm; videoHandler := videoHandler sm;
     sessionId := sessionId sm; state := state sm; config := config sm;
     openaiApiKey := openaiApiKey sm; simliApiKey := simliApiKey sm;
     previewTimeout := previewTimeout sm; audioResampler := audioResampler sm;
     audioChunksSent := audioChunksSent sm;
     lastAudioLogTime := lastAudioLogTime sm;
     simliClientInstanceCounter := v |}.

(** *** The monad of the methods

    A method reads and updates the fields, produces outputs in order, and
    returns, throws, or (when it awaits a promise that never settles)
    stays pending. *)

Definition M (A : Type) : Type := t -> Result A * t * list Output.

Definition ret {A : Type} (a : A) : M A := fun sm => (Ok a, sm, []).

Definition bind {A B : Type} (m : M A) (k : A -> M B) : M B :=
  fun sm =>
    let '(r, sm1, o1) := m sm in
    match r with
    | Ok a => let '(r2, sm2, o2) := k a sm1 in (r2, sm2, o1 ++ o2)
    | Throw e => (Throw e, sm1, o1)
    | Pending => (Pending, sm1, o1)
    end.

Definition throw {A : Type} (e : JsError) : M A := fun sm => (Throw e, sm, []).

Definition tryCatch {A : Type} (m : M A) (handler : JsError -> M A) : M A :=
  fun sm =>
    let '(r, sm1, o1) := m sm in
    match r with
    | Throw e => let '(r2, sm2, o2) := handler e sm1 in (r2, sm2, o1 ++ o2)
    | _ => (r, sm1, o1)
    end.

Definition get : M t := fun sm => (Ok sm, sm, []).
Definition modify (f : t -> t) : M unit := fun sm => (Ok tt, f sm, []).
Definition out (o : list Output) : M unit := fun sm => (Ok tt, sm, o).
Definition when (b : bool) (m : M unit) : M unit := if b then m else ret tt.

Notation "x <- m ;; k" := (bind m (fun x => k))
  (at level 61, m at next level, right associativity).
Notation "m ;; k" := (bind m (fun _ => k))
  (at level 61, right associativity).

Fixpoint forEach {A : Type} (l : list A) (f : A -> M unit) : M unit :=
  match l with
  | [] => ret tt
  | a :: r => f a ;; forEach r f
  end.

(** A string is truthy when it is neither absent nor empty. *)
Definition truthy (s : option string) : option string :=
  match s with
  | Some EmptyString | None => None
  | Some _ => s
  end.

Definition isSome {A : Type} (o : option A) : bool :=
  match o with Some _ => true | None => false end.

(** *** [setState], [emitStatus] *)

Definition setState (newState : ConnectionState.t) : M unit :=
  sm <- get ;;
  modify (set_state newState) ;;
  out [emit (stateChange (state sm) newState)].

Definition emitStatus (c : Category.t) (m : string) (l : Level.t) : M unit :=
  out [emit (status {| category := c; message := m; level := l |})].

(** *** The avatar client and its [status] listener *)

Definition onSimliOutput (o : SimliClient.Output) : M unit :=
  match o with
  | SimliClient.emitStatus s => out [emit (status s)]
  | SimliClient.call c => out [simliCall c]
  end.

(** *** The [audioResponse] listener: the relay to the avatar *)

Definition onAudioResponse (delta : option string) : M unit :=
  sm <- get ;;
  match simliClient sm, truthy delta with
  | Some sc, Some d =>
      match AudioResampler.resampleFromBase64 (audioResampler sm) d with
      | Ok resampledAudio =>
          forEach (SimliClient.sendAudioData resampledAudio sc) onSimliOutput
      | _ => ret tt
      end
  | _, _ => ret tt
  end.

(** *** The listeners on the speech client

    The listeners are closures on the manager.  [this.openaiClient] in the
    [sessionCreated] listener is the client the manager holds when the event
    arrives, which need not be the client that emits it; when the manager
    holds none, [this.openaiClient!.getSessionId()] is a property read on
    [null]. *)

Definition onOpenAIEvent (e : OpenAIRealtimeClient.Event) : M unit :=
  match e with
  | OpenAIRealtimeClient.status s => out [emit (status s)]
  | OpenAIRealtimeClient.sessionCreated =>
      sm <- get ;;
      match openaiClient sm with
      | Some c =>
          let id := OpenAIRealtimeClient.getSessionId c in
          modify (set_sessionId id) ;;
          out [emit (connected id)]
      | None => throw TypeError
      end
  | OpenAIRealtimeClient.audioResponse delta => onAudioResponse delta
  | OpenAIRealtimeClient.transcript text => out [emit (transcript text)]
  | OpenAIRealtimeClient.error _ => ret tt
  | OpenAIRealtimeClient.disconnected =>
      emitStatus Category.error "OpenAI disconnected" Level.error ;;
      out [emit disconnected]
  | _ => ret tt
  end.

Definition onOpenAIOutput (o : OpenAIRealtimeClient.Output) : M unit :=
  match o with
  | OpenAIRealtimeClient.emit e => onOpenAIEvent e
  | OpenAIRealtimeClient.send m => out [openaiSend m]
  | OpenAIRealtimeClient.wsClose => out [openaiClose]
  end.

(** The speech client whose socket an event arrives on.  The handlers of
    the socket are closures on the client, and the listeners on the client
    are closures on the manager, so all of them keep running for a client
    the manager no longer refers to: [endSession] only drops the reference
    after [disconnect()], whose [ws.close()] makes the socket close later,
    and [connectOpenAI] overwrites the reference of an earlier client
    without closing it.  [held] is the client in [this.openaiClient] (with
    no client there, there is no such socket and nothing happens);
    [released c] is a client the manager has let go of, in the state [c]:
    its own state is out of the manager's sight, its events are not. *)
Inductive SpeechClient : Type :=
| held
| released (c : OpenAIRealtimeClient.t).

(** A message arriving on the socket of a speech client: [handleMessage],
    whose [try] block encloses the listeners it runs. *)
Definition onOpenAIMessage (from : SpeechClient)
    (m : OpenAIRealtimeClient.ServerMessage) : M unit :=
  sm <- get ;;
  match from with
  | released c =>
      let '(_, o) := OpenAIRealtimeClient.handleMessage m c in
      tryCatch (forEach o onOpenAIOutput) (fun _ => ret tt)
  | held =>
      match openaiClient sm with
      | Some c =>
          let '(c', o) := OpenAIRealtimeClient.handleMessage m c in
          modify (set_openaiClient (Some c')) ;;
          tryCatch (forEach o onOpenAIOutput) (fun _ => ret tt)
      | None => ret tt
      end
  end.

(** The socket of a speech client closing: [ws.onclose], and the listeners
    on what it emits. *)
Definition onOpenAIClose (from : SpeechClient) (code : Z) (reason : string)
  : M unit :=
  sm <- get ;;
  match from with
  | released c =>
      let '(_, o, _) := OpenAIRealtimeClient.onclose code reason c in
      forEach o onOpenAIOutput
  | held =>
      match openaiClient sm with
      | Some c =>
          let '(c', o, _) := OpenAIRealtimeClient.onclose code reason c in
          modify (set_openaiClient (Some c')) ;;
          forEach o onOpenAIOutput
      | None => ret tt
      end
  end.

(** *** [setupAudioCaptureListeners] *)

Definition level08 : F64.float := F64.div (F64.of_Z 8) (F64.of_Z 10).
Definition level01 : F64.float := F64.div (F64.of_Z 1) (F64.of_Z 10).

(** The ['audio'] listener; [now] is its [Date.now()]. *)
Definition onAudio (now : Z) (data : list byte) (voiceActivity : bool) : M unit :=
  sm <- get ;;
  (if ConnectionState.eqb (state sm) ConnectionState.active then
     match openaiClient sm with
     | Some c =>
         forEach (OpenAIRealtimeClient.sendAudioData data c) onOpenAIOutput ;;
         (if now - lastAudioLogTime sm >? 2000
          then modify (set_audioLog 0 now)
          else modify (set_audioLog (audioChunksSent sm + 1) (lastAudioLogTime sm)))
     | None => ret tt
     end
   else ret tt) ;;
  out [emit (audioLevel (if voiceActivity then level08 else level01))] ;;
  when voiceActivity
    (emitStatus Category.user "speaking detected" Level.info).

Definition onCaptureEvent (e : AudioCapture.Event) : M unit :=
  match e with
  | AudioCapture.audio data timestamp voiceActivity =>
      onAudio timestamp data voiceActivity
  | AudioCapture.started =>
      emitStatus Category.audio "microphone capture started" Level.success
  | AudioCapture.error err =>
      emitStatus Category.error
        ("microphone error: " ++ errorMessage err)%string Level.error
  | _ => ret tt
  end.

(** What the capture emits reaches the listeners of the manager while they
    are registered on it. *)
Definition emitCapture (events : list AudioCapture.Event) : M unit :=
  sm <- get ;;
  when (AudioCapture.listening (audioCapture sm)) (forEach events onCaptureEvent).

(** The platform's audio callback on the capture pipeline of the manager:
    [processAudio], then the listeners on what it emits. *)
Definition captureFrame (now : Z) (inputData : list F64.float)
    (timeDomain : list Z) : M unit :=
  sm <- get ;;
  let '(ac, events) :=
    AudioCapture.processAudio now inputData timeDomain (audioCapture sm) in
  modify (set_audioCapture ac) ;;
  emitCapture events.

(** *** The external collaborators *)

(** The answer of the credential table to one [maybeSingle] query. *)
Record KeyQuery : Type := {
  queryError : option JsError;
  key_value : option string
}.

Inductive CharacterFileOutcome : Type :=
| NoActiveFile
| FileLoaded (filename content : string)
| FileLoadFailed.

Record Env : Type := {
  openaiKeyQuery : KeyQuery;
  simliKeyQuery : KeyQuery;
  characterFile : CharacterFileOutcome;
  openaiConnect : OpenAIRealtimeClient.ConnectOutcome;
  simliStart : SimliClient.StartOutcome;
  microphone : AudioCapture.MicrophoneOutcome;
  timerId : Z
}.

(** *** [loadApiKeys] *)

Definition fetchKey (q : KeyQuery) (notFound : string) : M string :=
  match queryError q with
  | Some e => throw e
  | None =>
      match truthy (key_value q) with
      | Some k => ret k
      | None => throw (Error notFound)
      end
  end.

Definition loadApiKeys (env : Env) : M unit :=
  tryCatch
    (k <- fetchKey (openaiKeyQuery env) "OpenAI API key not found in database" ;;
     modify (set_openaiApiKey (Some k)) ;;
     k <- fetchKey (simliKeyQuery env) "Simli API key not found in database" ;;
     modify (set_simliApiKey (Some k)) ;;
     emitStatus Category.connection "API keys loaded successfully" Level.success)
    (fun error =>
       throw (Error ("Failed to load API keys: "
                       ++ (if isErrorInstance error then errorMessage error
                           else "unknown error"))%string)).

Definition loadCharacterFile (env : Env) : M (option string) :=
  match characterFile env with
  | FileLoaded filename content =>
      emitStatus Category.openai
        ("character file loaded: " ++ filename)%string Level.success ;;
      ret (Some content)
  | _ => ret None
  end.

(** *** [connectOpenAI], [connectSimliPreview], [connectSimli] *)

Definition defaultModel : string := "gpt-4o-realtime-preview-2024-10-01".

Definition connectOpenAI (env : Env) : M unit :=
  sm <- get ;;
  match truthy (openaiApiKey sm) with
  | None => throw (Error "OpenAI API key not available")
  | Some key =>
      characterInstructions <- loadCharacterFile env ;;
      let instr :=
        OpenAIRealtimeClient.orElse characterInstructions
          (SessionManager.characterInstructions (config sm)) in
      let c := OpenAIRealtimeClient.new
                 {| OpenAIRealtimeClient.apiKey := key;
                    OpenAIRealtimeClient.model := defaultModel;
                    OpenAIRealtimeClient.instructions := instr |} in
      let '(r, c', o) := OpenAIRealtimeClient.connect (openaiConnect env) c in
      modify (set_openaiClient (Some c')) ;;
      forEach o onOpenAIOutput ;;
      match r with
      | Ok _ =>
          when (isSome (truthy instr))
            (forEach (OpenAIRealtimeClient.updateSession instr c') onOpenAIOutput)
      | Throw e => throw e
      | Pending => fun sm => (Pending, sm, [])
      end
  end.

(** The construction of the avatar client shared by the two connection
    methods, followed by its [start]. *)
Definition createAndStartSimli (env : Env) (key : string) : M unit :=
  sm <- get ;;
  if negb (VideoHandler.getVideoElement (videoHandler sm)) then
    throw (Error "Video element not set")
  else
    let '(c, counter) :=
      SimliClient.new (simliClientInstanceCounter sm)
        {| SimliClient.apiKey := key;
           SimliClient.faceId := match faceId (config sm) with
                                 | Some f => f
                                 | None => EmptyString
                                 end;
           SimliClient.handleSilence := true;
           SimliClient.maxSessionLength := 3600;
           SimliClient.maxIdleTime := 600;
           SimliClient.videoElement := true;
           SimliClient.configAudioElement := None |} in
    let '(r, c', o) := SimliClient.start (simliStart env) c in
    modify (set_counter counter) ;;
    modify (set_simliClient (Some c')) ;;
    forEach o onSimliOutput ;;
    match r with
    | Ok _ => ret tt
    | Throw e => throw e
    | Pending => fun sm => (Pending, sm, [])
    end.

Definition connectSimliPreview (env : Env) : M unit :=
  sm <- get ;;
  match truthy (simliApiKey sm) with
  | None => throw (Error "Simli API key not available")
  | Some key => createAndStartSimli env key
  end.

Definition connectSimli (env : Env) : M unit :=
  sm <- get ;;
  match truthy (simliApiKey sm) with
  | None => throw (Error "Simli API key not available")
  | Some key =>
      match simliClient sm with
      | Some _ => ret tt
      | None => createAndStartSimli env key
      end
  end.

(** *** The preview *)

Definition clearPreviewTimeout : M unit :=
  sm <- get ;;
  match previewTimeout sm with
  | Some id => out [clearTimeout id] ;; modify (set_previewTimeout None)
  | None => ret tt
  end.

Definition stopPreview (keepConnectionAlive : bool) : M unit :=
  clearPreviewTimeout ;;
  sm <- get ;;
  match simliClient sm with
  | Some c =>
      when (negb (ConnectionState.eqb (state sm) ConnectionState.active))
        (let c1 := SimliClient.stopAudio c in
         if keepConnectionAlive then
           modify (set_simliClient (Some c1)) ;;
           forEach (SimliClient.clearBuffer c1) onSimliOutput
         else
           forEach (SimliClient.clearBuffer c1) onSimliOutput ;;
           forEach (snd (SimliClient.close c1)) onSimliOutput ;;
           modify (set_simliClient None))
  | None => ret tt
  end ;;
  emitStatus Category.connection
    (if keepConnectionAlive then "preview paused for upgrade"
     else "preview mode stopped") Level.info.

(** The callback handed to [setTimeout] by [startPreview]. *)
Definition previewTimeoutCallback : M unit :=
  sm <- get ;;
  when (isSome (simliClient sm) && ConnectionState.eqb (state sm) ConnectionState.connected)
    (emitStatus Category.connection
       "preview timeout, disconnecting to save bandwidth" Level.info ;;
     stopPreview false).

Definition previewTimeoutDelay : Z := 5 * 60 * 1000.

Definition startPreview (env : Env) : M unit :=
  tryCatch
    (emitStatus Category.connection "loading avatar preview" Level.info ;;
     loadApiKeys env ;;
     connectSimliPreview env ;;
     emitStatus Category.connection "avatar preview loaded" Level.success ;;
     modify (set_previewTimeout (Some (timerId env))) ;;
     out [setTimeout (timerId env) previewTimeoutDelay])
    (fun _ =>
       emitStatus Category.error "avatar preview unavailable" Level.warning).

(** *** [initialize] *)

Definition initialize (env : Env) : M unit :=
  setState ConnectionState.connecting ;;
  clearPreviewTimeout ;;
  emitStatus Category.connection "retrieving API keys from Supabase" Level.info ;;
  loadApiKeys env ;;
  emitStatus Category.connection "connecting to OpenAI Realtime API" Level.info ;;
  connectOpenAI env ;;
  emitStatus Category.connection "connecting to Simli Avatar API" Level.info ;;
  sm <- get ;;
  match simliClient sm with
  | Some c =>
      let c1 := SimliClient.stopAudio c in
      modify (set_simliClient (Some c1)) ;;
      forEach (SimliClient.clearBuffer c1) onSimliOutput ;;
      emitStatus Category.simli "upgrading preview connection to full session"
        Level.info
  | None => connectSimli env
  end ;;
  setState ConnectionState.connected.

(** *** [startSession], [endSession], [destroy] *)

Definition startSession (env : Env) : M unit :=
  sm <- get ;;
  if negb (ConnectionState.eqb (state sm) ConnectionState.connected)
     && negb (ConnectionState.eqb (state sm) ConnectionState.ready)
  then throw (Error "Not connected to services")
  else
    emitStatus Category.connection "requesting microphone access" Level.info ;;
    tryCatch
      (let '(r, ac, events) :=
         AudioCapture.start (microphone env) (audioCapture sm) in
       modify (set_audioCapture ac) ;;
       emitCapture events ;;
       match r with
       | Ok _ => ret tt
       | Throw e => throw e
       | Pending => fun sm => (Pending, sm, [])
       end ;;
       emitStatus Category.connection "microphone access granted" Level.success ;;
       setState ConnectionState.active ;;
       sm <- get ;;
       match simliClient sm with
       | Some c => modify (set_simliClient (Some (SimliClient.resumeAudio c)))
       | None => ret tt
       end ;;
       emitStatus Category.connection "session active, listening for input"
         Level.success ;;
       out [emit (sessionReady true true)])
      (fun error =>
         emitStatus Category.error
           ("failed to start audio capture: "
              ++ (if isErrorInstance error then errorMessage error
                  else "unknown error"))%string Level.error ;;
         throw error).

Definition endSession : M unit :=
  setState ConnectionState.ending ;;
  emitStatus Category.connection "ending session" Level.info ;;
  sm <- get ;;
  when (AudioCapture.isActive (audioCapture sm))
    (let '(ac, events) := AudioCapture.stop (audioCapture sm) in
     modify (set_audioCapture ac) ;;
     emitCapture events) ;;
  match openaiClient sm with
  | Some c =>
      forEach (snd (OpenAIRealtimeClient.disconnect c)) onOpenAIOutput ;;
      modify (set_openaiClient None)
  | None => ret tt
  end ;;
  match simliClient sm with
  | Some c =>
      forEach (snd (SimliClient.disconnect c)) onSimliOutput ;;
      modify (set_simliClient None)
  | None => ret tt
  end ;;
  sm <- get ;;
  modify (set_videoHandler (VideoHandler.clear (videoHandler sm))) ;;
  modify (set_sessionId None) ;;
  setState ConnectionState.idle ;;
  emitStatus Category.connection "session ended" Level.info ;;
  out [emit ended].

Definition getState (sm : t) : ConnectionState.t := state sm.
Definition getSessionId (sm : t) : option string := sessionId sm.

Definition isConnected (sm : t) : bool :=
  isSome (openaiClient sm) && isSome (simliClient sm).

Definition isActive (sm : t) : bool :=
  ConnectionState.eqb (state sm) ConnectionState.active.

Definition setMicrophoneMuted (muted : bool) : M unit :=
  sm <- get ;;
  modify (set_audioCapture (AudioCapture.setMuted muted (audioCapture sm))) ;;
  emitStatus Category.audio
    (if muted then "microphone muted" else "microphone unmuted") Level.info.

Definition isMicrophoneMuted (sm : t) : bool :=
  AudioCapture.isMicrophoneMuted (audioCapture sm).

(** [destroy].  The clients it releases through [endSession] keep the
    listeners the manager registered on them; the capture loses its
    listeners, and the manager its own. *)
Definition destroy : M unit :=
  clearPreviewTimeout ;;
  endSession ;;
  sm <- get ;;
  modify (set_audioCapture (AudioCapture.removeAllListeners (audioCapture sm))) ;;
  sm <- get ;;
  modify (set_videoHandler (VideoHandler.destroy (videoHandler sm))) ;;
  out [removeAllListeners].

(** The outputs of a run that are writes of captured audio to the speech
    socket. *)
Definition isAudioAppend (o : Output) : bool :=
  match o with
  | openaiSend (OpenAIRealtimeClient.input_audio_buffer_append _) => true
  | _ => false
  end.

Definition isAudioEvent (e : AudioCapture.Event) : bool :=
  match e with
  | AudioCapture.audio _ _ _ => true
  | _ => false
  end.

(** The payloads handed to the official avatar client, call by call. *)
Fixpoint simliAudioCalls (o : list Output) : list (list byte) :=
  match o with
  | simliCall (SimliClient.officialSendAudioData d) :: r => d :: simliAudioCalls r
  | _ :: r => simliAudioCalls r
  | [] => []
  end.

End SessionManager.

(** ** [EventEmitter] ([utils/event-emitter.ts])

    The base class of every service.  Its registry is a [Map] from event
    names to arrays of listeners. *)

Module EventEmitter.

(** A listener is a function, compared by identity.  [Plain id] is a
    function of the caller, which returns normally and does not touch the
    emitter it is registered on; [OnceWrapper closure event listener] is the
    closure [onceWrapper] that [once] allocates around the caller's function
    [listener], [closure] being the identity of the fresh function object. *)
Inductive Listener : Type :=
| Plain (id : nat)
| OnceWrapper (closure : nat) (event : string) (listener : nat).

(** [a === b] on functions. *)
Definition sameFunction (a b : Listener) : bool :=
  match a, b with
  | Plain i, Plain j => Nat.eqb i j
  | OnceWrapper i _ _, OnceWrapper j _ _ => Nat.eqb i j
  | _, _ => false
  end.

(** The [Map]: keys are unique and keep their order of insertion. *)
Definition t : Type := list (string * list Listener).

Definition new : t := [].

Fixpoint mapGet (key : string) (m : t) : option (list Listener) :=
  match m with
  | [] => None
  | (k, v) :: r => if String.eqb k key then Some v else mapGet key r
  end.

Definition mapHas (key : string) (m : t) : bool :=
  match mapGet key m with Some _ => true | None => false end.

Fixpoint mapSet (key : string) (value : list Listener) (m : t) : t :=
  match m with
  | [] => [(key, value)]
  | (k, v) :: r =>
      if String.eqb k key then (k, value) :: r else (k, v) :: mapSet key value r
  end.

Definition mapDelete (key : string) (m : t) : t :=
  filter (fun kv => negb (String.eqb (fst kv) key)) m.

(** [listeners.indexOf(listener)], [None] standing for [-1]. *)
Fixpoint indexOf (listener : Listener) (listeners : list Listener) : option nat :=
  match listeners with
  | [] => None
  | l :: r =>
      if sameFunction l listener then Some 0%nat
      else option_map S (indexOf listener r)
  end.

(** [listeners.splice(index, 1)]: the array that is left. *)
Fixpoint splice (index : nat) (listeners : list Listener) : list Listener :=
  match index, listeners with
  | _, [] => []
  | O, _ :: r => r
  | S i, l :: r => l :: splice i r
  end.

Definition on (event : string) (listener : Listener) (em : t) : t :=
  let em1 := if mapHas event em then em else mapSet event [] em in
  match mapGet event em1 with
  | Some listeners => mapSet event (listeners ++ [listener]) em1
  | None => em1
  end.

(** The array is spliced in place: the entry of the map keeps its position
    and every holder of the array sees the removal. *)
Definition off (event : string) (listener : Listener) (em : t) : t :=
  match mapGet event em with
  | Some listeners =>
      match indexOf listener listeners with
      | Some index => mapSet event (splice index listeners) em
      | None => em
      end
  | None => em
  end.

(** [once]; [closure] is the identity of the wrapper it allocates. *)
Definition once (closure : nat) (event : string) (listener : nat) (em : t) : t :=
  on event (OnceWrapper closure event listener) em.

(** A call [listener(...args)]: the emitter afterwards, and the functions of
    the caller that ran, each with the arguments it received. *)
Definition invoke {Arg : Type} (listener : Listener) (args : Arg) (em : t)
  : t * list (nat * Arg) :=
  match listener with
  | Plain id => (em, [(id, args)])
  | OnceWrapper _ event inner => (off event listener em, [(inner, args)])
  end.

(** [listeners.forEach(listener => listener(...args))] from index [k] on,
    with [n] indices left below the length the array had when the loop
    started.  An index at which the array, as it is by then, has no element
    is passed over. *)
Fixpoint forEachFrom {Arg : Type} (n k : nat) (event : string) (args : Arg) (em : t)
  : t * list (nat * Arg) :=
  match n with
  | O => (em, [])
  | S n' =>
      match mapGet event em with
      | Some listeners =>
          match nth_error listeners k with
          | Some listener =>
              let '(em1, c1) := invoke listener args em in
              let '(em2, c2) := forEachFrom n' (S k) event args em1 in
              (em2, c1 ++ c2)
          | None => forEachFrom n' (S k) event args em
          end
      | None => (em, [])
      end
  end.

Definition emit {Arg : Type} (event : string) (args : Arg) (em : t)
  : bool * t * list (nat * Arg) :=
  match mapGet event em with
  | Some listeners =>
      if (0 <? length listeners)%nat then
        let '(em', calls) := forEachFrom (length listeners) 0 event args em in
        (true, em', calls)
      else (false, em, [])
  | None => (false, em, [])
  end.

(** [removeAllListeners(event?)]: the test [if (event)] fails for a missing
    argument and for the empty string alike. *)
Definition removeAllListeners (event : option string) (em : t) : t :=
  match event with
  | Some (String c s) => mapDelete (String c s) em
  | Some EmptyString | None => []
  end.

Definition listenerCount (event : string) (em : t) : nat :=
  match mapGet event em with
  | Some listeners => length listeners
  | None => 0%nat
  end.

End EventEmitter.

(** ** The status log of the application ([hooks/useStatusMessages.ts]) *)

Module StatusMessages.

Definition MAX_MESSAGES : nat := 100.

(** A message of the log; the optional [details] are left out. *)
Record StatusMessage : Type := {
  timestamp : Z;
  category : Category.t;
  message : string;
  level : Level.t
}.

(** The argument of [addMessage]; [level] defaults to ["info"]. *)
Record AddMessageOptions : Type := {
  optCategory : Category.t;
  optMessage : string;
  optLevel : option Level.t
}.

(** [array.slice(start)] for a [start] that is not negative. *)
Definition slice {A : Type} (start : nat) (l : list A) : list A := skipn start l.

(** The state update of [addMessage]; [now] is [Date.now()]. *)
Definition addMessage (now : Z) (o : AddMessageOptions) (prev : list StatusMessage)
  : list StatusMessage :=
  let newMessage := {|
    timestamp := now;
    category := optCategory o;
    message := optMessage o;
    level := match optLevel o with Some l => l | None => Level.info end
  |} in
  let updated := prev ++ [newMessage] in
  if (MAX_MESSAGES <? length updated)%nat
  then slice (length updated - MAX_MESSAGES) updated
  else updated.

Definition clearMessages (prev : list StatusMessage) : list StatusMessage := [].

(** The log after a sequence of calls of [addMessage], each with its
    [Date.now()]. *)
Definition addMessages (calls : list (Z * AddMessageOptions))
    (prev : list StatusMessage) : list StatusMessage :=
  fold_left (fun log c => addMessage (fst c) (snd c) log) calls prev.

End StatusMessages.

(** ** Vocabulary for the rounding of [SpecFloat]

    The exact result of an operation is a rational [a / b] in units of some
    power of two; these predicates relate it to the integer mantissas the
    operations of [SpecFloat] work on. *)

Module F64Spec.

Import F64.

(** The location [l] of [a / b] in the interval [[m, m + 1)]. *)
Definition inbetween (m a b : Z) (l : location) : Prop :=
  match l with
  | loc_Exact => a = m * b
  | loc_Inexact Lt => m * b < a /\ 2 * a < (2 * m + 1) * b
  | loc_Inexact Eq => 2 * a = (2 * m + 1) * b
  | loc_Inexact Gt => (2 * m + 1) * b < 2 * a /\ a < (m + 1) * b
  end.

(** The invariant of the shifting loop of [shr]. *)
Definition shr_rel (mrs : shr_record) (a b : Z) : Prop :=
  0 <= shr_m mrs /\ inbetween (shr_m mrs) a b (loc_of_shr_record mrs).

(** The amount by which [shr_fexp] shifts. *)
Definition shift_of (m e : Z) : Z := Z.max 0 (fexp prec emax (Zdigits2 m + e) - e).

(** [c] is the integer nearest to [a / b], and no integer lies strictly
    between the two. *)
Definition rounded (c a b : Z) : Prop :=
  (2 * c - 1) * b <= 2 * a <= (2 * c + 1) * b
  /\ (forall g, g * b <= a -> g <= c)
  /\ (forall g, a <= g * b -> c <= g).

(** The float [x] has sign [s] and magnitude [c * 2^E]. *)
Definition represents (x : spec_float) (s : bool) (c E : Z) : Prop :=
  match x with
  | S754_zero s' => s' = s /\ c = 0
  | S754_finite s' m e => s' = s /\ E <= e /\ Zpos m * 2 ^ (e - E) = c
  | _ => False
  end.

(** A float of magnitude at most one. *)
Definition inUnitRange (x : spec_float) : Prop :=
  match x with
  | S754_finite _ m e => e <= 0 /\ Zpos m <= 2 ^ (- e)
  | _ => False
  end.

(** The float [x] is the number [n * 2^E], exactly. *)
Definition exactly (x : spec_float) (n E : Z) : Prop :=
  match x with
  | S754_zero _ => n = 0
  | S754_finite s m e =>
      signed_mantissa s m * 2 ^ (e - Z.min e E) = n * 2 ^ (E - Z.min e E)
  | _ => False
  end.

End F64Spec.

(** ** Auxiliary notions used by the statements *)

(** The quotient of the two rates that [resample] computes is exact: the
    double [ratio] is the rational [sourceSampleRate / targetSampleRate]. *)
Definition exactRatio (cfg : AudioResampler.ResamplerConfig) : bool :=
  match AudioResampler.ratioOf cfg with
  | S754_finite false m e =>
      (Zdigits2 (Zpos m) =? 53) && (-1000 <=? e) && (e <=? 0)
      && (AudioResampler.sourceSampleRate cfg * 2 ^ (- e)
          =? Zpos m * AudioResampler.targetSampleRate cfg)
  | _ => false
  end.

(** The sextets [btoa] encodes for a sequence of bytes, before padding. *)
Fixpoint sextetsOfBytes (bs : list byte) : list Z :=
  match bs with
  | a :: b :: c :: rest =>
      let n := byteToZ a * 65536 + byteToZ b * 256 + byteToZ c in
      n / 262144 :: n / 4096 mod 64 :: n / 64 mod 64 :: n mod 64
        :: sextetsOfBytes rest
  | [a; b] =>
      let n := byteToZ a * 1024 + byteToZ b * 4 in
      [n / 4096; n / 64 mod 64; n mod 64]
  | [a] =>
      let n := byteToZ a * 16 in [n / 64; n mod 64]
  | [] => []
  end.

(** The three components of a run of a method of the manager. *)
Definition resultOf {A : Type} (m : SessionManager.M A) (sm : SessionManager.t)
  : Result A := fst (fst (m sm)).

Definition stateAfter {A : Type} (m : SessionManager.M A) (sm : SessionManager.t)
  : SessionManager.t := snd (fst (m sm)).

Definition outputsOf {A : Type} (m : SessionManager.M A) (sm : SessionManager.t)
  : list SessionManager.Output := snd (m sm).

(** A method that never changes the connection state. *)
Definition keepsState {A : Type} (m : SessionManager.M A) : Prop :=
  forall sm, SessionManager.state (stateAfter m sm) = SessionManager.state sm.

(** The manager [endSession] leaves behind. *)
Definition afterEndSession (sm : SessionManager.t) : SessionManager.t := {|
  SessionManager.openaiClient := None;
  SessionManager.simliClient := None;
  SessionManager.audioCapture :=
    if AudioCapture.isActive (SessionManager.audioCapture sm)
    then fst (AudioCapture.stop (SessionManager.audioCapture sm))
    else SessionManager.audioCapture sm;
  SessionManager.videoHandler := VideoHandler.clear (SessionManager.videoHandler sm);
  SessionManager.sessionId := None;
  SessionManager.state := ConnectionState.idle;
  SessionManager.config := SessionManager.config sm;
  SessionManager.openaiApiKey := SessionManager.openaiApiKey sm;
  SessionManager.simliApiKey := SessionManager.simliApiKey sm;
  SessionManager.previewTimeout := SessionManager.previewTimeout sm;
  SessionManager.audioResampler := SessionManager.audioResampler sm;
  SessionManager.audioChunksSent := SessionManager.audioChunksSent sm;
  SessionManager.lastAudioLogTime := SessionManager.lastAudioLogTime sm;
  SessionManager.simliClientInstanceCounter :=
    SessionManager.simliClientInstanceCounter sm
|}.

(** The status message the speech client emits when its socket closes. *)
Definition closeStatus (code : Z) (reason : string) : StatusUpdate := {|
  category := Category.openai;
  message :=
    if code =? 1006 then
      ("connection closed abnormally (code " ++ OpenAIRealtimeClient.decimal code
         ++ "): check Edge Function logs")%string
    else if negb (code =? 1000) then
      ("connection closed (code " ++ OpenAIRealtimeClient.decimal code ++ "): "
         ++ match reason with EmptyString => "unknown reason" | _ => reason end)%string
    else "disconnected from OpenAI"%string;
  level := if code =? 1000 then Level.warning else Level.error
|}.

(** What the manager emits when the socket of one of its speech clients
    closes: the status of the client, passed on, then its own report. *)
Definition closeReport (code : Z) (reason : string) : list SessionManager.Output :=
  [SessionManager.emit (SessionManager.status (closeStatus code reason));
   SessionManager.emit
     (SessionManager.status
        {| category := Category.error; message := "OpenAI disconnected";
           level := Level.error |});
   SessionManager.emit SessionManager.disconnected].

(** Concrete inputs on which statements are evaluated. *)
Module Examples.

(** A pair of rates whose quotient [24000 / 11025] is not a double. *)
Definition cfg_24000_11025 : AudioResampler.ResamplerConfig :=
  AudioResampler.createAudioResampler 24000 11025.

(** Two more pairs whose quotient is not a double. *)
Definition cfg_44100_48000 : AudioResampler.ResamplerConfig :=
  AudioResampler.createAudioResampler 44100 48000.

Definition cfg_16000_24000 : AudioResampler.ResamplerConfig :=
  AudioResampler.createAudioResampler 16000 24000.

(** The resampler of the orchestrator. *)
Definition cfg_24000_16000 : AudioResampler.ResamplerConfig :=
  AudioResampler.createAudioResampler 24000 16000.

Definition sevenSamples : list Z := [1; -1; -32768; 32767; 0; 1; 2].

(** [0.5], and a frame of five input samples. *)
Definition half : F64.float := F64.div (F64.of_Z 1) (F64.of_Z 2).

Definition fiveFloats : list F64.float :=
  [F64.of_Z 1; F64.of_Z (-1); half; F64.of_Z 7; F64.nan].

(** A string of [4 * k] characters [A]: the base64 text of [3 * k] zero
    bytes. *)
Definition base64Zeros (k : nat) : string :=
  string_of_list_ascii (repeat "A"%char (4 * k)).

(** An audio-response chunk of 9006 bytes: 4503 samples at 24000 Hz, which
    resample to 3002 samples, 6004 bytes. *)
Definition delta9006 : string := base64Zeros (3 * 1000 + 2).

Definition zeros9006 : string := binaryStringOfBytes (repeat x00 (9 * 1000 + 6)).

Definition isEmptyString (s : string) : bool :=
  match s with EmptyString => true | String _ _ => false end.

Definition presentKey (k : string) : SessionManager.KeyQuery :=
  {| SessionManager.queryError := None; SessionManager.key_value := Some k |}.

Definition absentKey : SessionManager.KeyQuery :=
  {| SessionManager.queryError := None; SessionManager.key_value := None |}.

(** Every collaborator answers favourably. *)
Definition env0 : SessionManager.Env := {|
  SessionManager.openaiKeyQuery := presentKey "sk-openai";
  SessionManager.simliKeyQuery := presentKey "simli-key";
  SessionManager.characterFile := SessionManager.NoActiveFile;
  SessionManager.openaiConnect := OpenAIRealtimeClient.Opened;
  SessionManager.simliStart := SimliClient.Connected;
  SessionManager.microphone := AudioCapture.Granted;
  SessionManager.timerId := 1
|}.

(** The credential store has no OpenAI key. *)
Definition envNoOpenAIKey : SessionManager.Env := {|
  SessionManager.openaiKeyQuery := absentKey;
  SessionManager.simliKeyQuery := presentKey "simli-key";
  SessionManager.characterFile := SessionManager.NoActiveFile;
  SessionManager.openaiConnect := OpenAIRealtimeClient.Opened;
  SessionManager.simliStart := SimliClient.Connected;
  SessionManager.microphone := AudioCapture.Granted;
  SessionManager.timerId := 1
|}.

(** A manager as the application creates it: default configuration, video
    element attached. *)
Definition fresh : SessionManager.t :=
  SessionManager.set_videoHandler
    (VideoHandler.setVideoElement VideoHandler.new)
    (SessionManager.new
       {| SessionManager.faceId := None;
          SessionManager.characterInstructions := None |} 0).

Definition previewManager : SessionManager.t :=
  stateAfter (SessionManager.startPreview env0) fresh.

Definition connectedManager : SessionManager.t :=
  stateAfter (SessionManager.initialize env0) fresh.

Definition activeManager : SessionManager.t :=
  stateAfter (SessionManager.startSession env0) connectedManager.

(** The speech client of the manager in its active session. *)
Definition heldClient : OpenAIRealtimeClient.t :=
  match SessionManager.openaiClient activeManager with
  | Some c => c
  | None => OpenAIRealtimeClient.new
              {| OpenAIRealtimeClient.apiKey := EmptyString;
                 OpenAIRealtimeClient.model := EmptyString;
                 OpenAIRealtimeClient.instructions := None |}
  end.

Definition mutedManager : SessionManager.t :=
  stateAfter (SessionManager.setMicrophoneMuted true) activeManager.

(** A loud and a silent waveform for the analyser. *)
Definition loudWaveform : list Z := repeat 200 128.
Definition silentWaveform : list Z := repeat 128 128.

End Examples.

(** The listeners registered for an event, none when the map has no entry;
    the listeners that are functions of the caller; and the function of the
    caller that a listener runs. *)
Definition listenersOf (event : string) (em : EventEmitter.t)
  : list EventEmitter.Listener :=
  match EventEmitter.mapGet event em with
  | Some listeners => listeners
  | None => []
  end.

Definition isPlain (l : EventEmitter.Listener) : bool :=
  match l with
  | EventEmitter.Plain _ => true
  | EventEmitter.OnceWrapper _ _ _ => false
  end.

Definition functionOf (l : EventEmitter.Listener) : nat :=
  match l with
  | EventEmitter.Plain id => id
  | EventEmitter.OnceWrapper _ _ inner => inner
  end.

(** The calls [emit] makes when it runs the listeners [ls] one after the
    other with the arguments [args]. *)
Definition callsOf {Arg : Type} (args : Arg) (ls : list EventEmitter.Listener)
  : list (nat * Arg) :=
  map (fun l => (functionOf l, args)) ls.

(** The message [addMessage] builds from its argument. *)
Definition messageOf (c : Z * StatusMessages.AddMessageOptions)
  : StatusMessages.StatusMessage := {|
  StatusMessages.timestamp := fst c;
  StatusMessages.category := StatusMessages.optCategory (snd c);
  StatusMessages.message := StatusMessages.optMessage (snd c);
  StatusMessages.level :=
    match StatusMessages.optLevel (snd c) with
    | Some l => l
    | None => Level.info
    end
|}.

(** The last [n] elements of a list. *)
Definition lastN {A : Type} (n : nat) (l : list A) : list A :=
  skipn (length l - n) l.

(** A method that never changes the component [f] of the manager. *)
Definition keeps {A B : Type} (f : SessionManager.t -> B) (m : SessionManager.M A)
  : Prop :=
  forall sm, f (stateAfter m sm) = f sm.

(** ** The manager as a transition system

    What can happen to a manager: the calls of its public methods by the
    application, each run to its end, and the callbacks of the platform (a
    message or the closing of the socket of a speech client, held or
    released, an audio frame, the preview timer).  [env] supplies the answers of the collaborators to the
    call. *)

Module SessionOps.

Inductive Op : Type :=
| startPreview (env : SessionManager.Env)
| stopPreview (keepConnectionAlive : bool)
| initialize (env : SessionManager.Env)
| startSession (env : SessionManager.Env)
| endSession
| setMicrophoneMuted (muted : bool)
| destroy
| setVideoElement
| openaiMessage (from : SessionManager.SpeechClient)
    (m : OpenAIRealtimeClient.ServerMessage)
| openaiClose (from : SessionManager.SpeechClient) (code : Z) (reason : string)
| audioFrame (now : Z) (inputData : list F64.float) (timeDomain : list Z)
| previewTimeoutFires.

Definition run (op : Op) : SessionManager.M unit :=
  match op with
  | startPreview env => SessionManager.startPreview env
  | stopPreview keepConnectionAlive => SessionManager.stopPreview keepConnectionAlive
  | initialize env => SessionManager.initialize env
  | startSession env => SessionManager.startSession env
  | endSession => SessionManager.endSession
  | setMicrophoneMuted muted => SessionManager.setMicrophoneMuted muted
  | destroy => SessionManager.destroy
  | setVideoElement =>
      SessionManager.bind SessionManager.get (fun sm =>
        SessionManager.modify
          (SessionManager.set_videoHandler
             (VideoHandler.setVideoElement (SessionManager.videoHandler sm))))
  | openaiMessage from m => SessionManager.onOpenAIMessage from m
  | openaiClose from code reason => SessionManager.onOpenAIClose from code reason
  | audioFrame now inputData timeDomain =>
      SessionManager.captureFrame now inputData timeDomain
  | previewTimeoutFires => SessionManager.previewTimeoutCallback
  end.

(** The manager after a sequence of events; a method that throws leaves the
    manager as it is at the throw, and the next event finds it so. *)
Definition after (ops : list Op) (sm : SessionManager.t) : SessionManager.t :=
  fold_left (fun sm op => stateAfter (run op) sm) ops sm.

Definition isDestroy (op : Op) : bool :=
  match op with
  | destroy => true
  | _ => false
  end.

(** The states in which the manager can be found between two events. *)
Definition atRest (s : ConnectionState.t) : bool :=
  match s with
  | ConnectionState.idle | ConnectionState.connecting
  | ConnectionState.connected | ConnectionState.active => true
  | _ => false
  end.

End SessionOps.

(** A manager that is destroyed in the middle of a session and then used
    again: the video element is attached anew, and a second session is
    started. *)
Definition reusedManager : SessionManager.t :=
  SessionOps.after
    [SessionOps.destroy; SessionOps.setVideoElement;
     SessionOps.initialize Examples.env0; SessionOps.startSession Examples.env0]
    Examples.activeManager.

(** A method that maintains the property [P] of the manager. *)
Definition preserves {A : Type} (P : SessionManager.t -> Prop) (m : SessionManager.M A)
  : Prop :=
  forall sm, P sm -> P (stateAfter m sm).

(** Between two events the manager is in one of the four states in which
    it can rest. *)
Definition restsProperly (sm : SessionManager.t) : Prop :=
  SessionOps.atRest (SessionManager.state sm) = true.

(** In the state [active] the microphone is being captured. *)
Definition activeCaptures (sm : SessionManager.t) : Prop :=
  SessionManager.state sm = ConnectionState.active ->
  AudioCapture.isCapturing (SessionManager.audioCapture sm) = true.

(** A speech client that writes nothing to its socket, whatever it is asked
    to send. *)
Definition sendsNothing (c : OpenAIRealtimeClient.t) : Prop :=
  forall (audioData : list byte) (instr : option string),
    OpenAIRealtimeClient.sendAudioData audioData c = []
    /\ OpenAIRealtimeClient.commitAudio c = []
    /\ OpenAIRealtimeClient.createResponse c = []
    /\ OpenAIRealtimeClient.updateSession instr c = [].

(** * Properties *)

(** ** Rounding in [SpecFloat] at binary64 *)

Module F64Facts.

Import F64 F64Spec.

Ltac abstract_pow :=
  repeat match goal with
    | |- context [Z.pow ?b ?e] =>
        let x := fresh "pw" in set (x := Z.pow b e) in *; clearbody x
    | H : context [Z.pow ?b ?e] |- _ =>
        let x := fresh "pw" in set (x := Z.pow b e) in *; clearbody x
    end.

Ltac pow_lia := abstract_pow; lia.

Ltac pow_nia := abstract_pow; nia.

Lemma digits2_pos_spec (p : positive) :
  2 ^ (Zpos (digits2_pos p) - 1) <= Zpos p < 2 ^ Zpos (digits2_pos p).
Proof.
  induction p as [p IH | p IH | ]; cbn [digits2_pos].
  - rewrite Pos2Z.inj_succ, Pos2Z.inj_xI.
    replace (Z.succ (Zpos (digits2_pos p)) - 1) with (Z.succ (Zpos (digits2_pos p) - 1)) by lia.
    rewrite !Z.pow_succ_r by lia. pow_lia.
  - rewrite Pos2Z.inj_succ. change (Z.pos p~0) with (2 * Z.pos p).
    replace (Z.succ (Zpos (digits2_pos p)) - 1) with (Z.succ (Zpos (digits2_pos p) - 1)) by lia.
    rewrite !Z.pow_succ_r by lia. pow_lia.
  - cbn. lia.
Qed.

Lemma Zdigits2_spec (m : Z) :
  0 < m -> 2 ^ (Zdigits2 m - 1) <= m < 2 ^ Zdigits2 m.
Proof.
  destruct m as [|p|p]; try lia. intros _. apply digits2_pos_spec.
Qed.

Lemma Zdigits2_pos (m : Z) : 0 < m -> 0 < Zdigits2 m.
Proof. destruct m; cbn; lia. Qed.

Lemma Zdigits2_unique (m n : Z) :
  2 ^ (n - 1) <= m < 2 ^ n -> 0 < m -> Zdigits2 m = n.
Proof.
  intros H Hm.
  pose proof (Zdigits2_spec m Hm) as Hd.
  pose proof (Zdigits2_pos m Hm) as Hp.
  assert (Hn : 0 < n).
  { destruct (Z_lt_le_dec 0 n) as [|Hn0]; [assumption|].
    assert (2 ^ n <= 1).
    { destruct (Z_lt_le_dec n 0); [rewrite Z.pow_neg_r by lia; lia |].
      replace n with 0 by lia. cbn. lia. }
    pow_lia. }
  destruct (Z.lt_trichotomy (Zdigits2 m) n) as [Hlt | [Heq | Hgt]]; [|assumption|].
  - assert (2 ^ Zdigits2 m <= 2 ^ (n - 1)) by (apply Z.pow_le_mono_r; lia). pow_lia.
  - assert (2 ^ n <= 2 ^ (Zdigits2 m - 1)) by (apply Z.pow_le_mono_r; lia). pow_lia.
Qed.

Lemma shr_1_spec (mrs : shr_record) (a b : Z) :
  0 < b -> shr_rel mrs a b ->
  shr_rel (shr_1 mrs) a (2 * b) /\ shr_m (shr_1 mrs) = shr_m mrs / 2.
Proof.
  intros Hb [Hm Hin].
  destruct mrs as [m r s]. cbn [shr_m] in *.
  assert (Hdiv : forall q t, 0 <= t < 2 -> (2 * q + t) / 2 = q).
  { intros q t Ht. symmetry. apply (Z.div_unique _ 2 q t); lia. }
  destruct m as [|[p|p|]|p]; try lia;
    destruct r, s; cbn [shr_1 orb shr_m loc_of_shr_record inbetween] in *; unfold shr_rel;
    cbn [shr_m loc_of_shr_record inbetween];
    try change (Z.pos p~0) with (2 * Z.pos p) in *;
    try change (Z.pos p~1) with (2 * Z.pos p + 1) in *;
    try (replace (2 * Zpos p + 1) with (2 * Zpos p + 1) by lia);
    repeat split; try lia;
    try (rewrite (Hdiv (Zpos p) 1) by lia; reflexivity);
    try (replace (2 * Zpos p) with (2 * Zpos p + 0) by lia; rewrite (Hdiv (Zpos p) 0) by lia; reflexivity);
    try nia.
Qed.

Lemma fexp_eq (e : Z) : fexp prec emax e = Z.max (e - 53) (-1074).
Proof. reflexivity. Qed.

Lemma pow2_pos (e : Z) : 0 <= e -> 0 < 2 ^ e.
Proof. intros. apply Z.pow_pos_nonneg; lia. Qed.

Lemma iter_shr_1_spec (n : positive) :
  forall (mrs : shr_record) (a b : Z),
    0 < b -> shr_rel mrs a b ->
    shr_rel (iter_pos shr_1 n mrs) a (2 ^ Zpos n * b)
    /\ shr_m (iter_pos shr_1 n mrs) = shr_m mrs / 2 ^ Zpos n.
Proof.
  induction n as [n IH | n IH | ]; intros mrs a b Hb Hrel; cbn [iter_pos].
  - destruct (shr_1_spec mrs a b Hb Hrel) as [H1 E1].
    destruct (IH _ a (2 * b) ltac:(lia) H1) as [H2 E2].
    assert (Hp : 0 < 2 ^ Zpos n) by (apply pow2_pos; lia).
    destruct (IH _ a (2 ^ Zpos n * (2 * b)) ltac:(nia) H2) as [H3 E3].
    change (Zpos n~1) with (2 * Zpos n + 1).
    rewrite Z.pow_add_r, Z.pow_mul_r, Z.pow_1_r by lia.
    change (2 ^ 2) with 4. 
    replace (4 ^ Zpos n) with (2 ^ Zpos n * 2 ^ Zpos n)
      by (rewrite <- Z.pow_mul_l; reflexivity).
    split.
    + replace (2 ^ Zpos n * 2 ^ Zpos n * 2 * b) with (2 ^ Zpos n * (2 ^ Zpos n * (2 * b))) by ring.
      exact H3.
    + rewrite E3, E2, E1.
      rewrite !Z.div_div by lia. f_equal. ring.
  - destruct (IH _ a b Hb Hrel) as [H2 E2].
    assert (Hp : 0 < 2 ^ Zpos n) by (apply pow2_pos; lia).
    destruct (IH _ a (2 ^ Zpos n * b) ltac:(nia) H2) as [H3 E3].
    change (Zpos n~0) with (2 * Zpos n).
    rewrite Z.pow_mul_r by lia.
    change (2 ^ 2) with 4.
    replace (4 ^ Zpos n) with (2 ^ Zpos n * 2 ^ Zpos n)
      by (rewrite <- Z.pow_mul_l; reflexivity).
    split.
    + replace (2 ^ Zpos n * 2 ^ Zpos n * b) with (2 ^ Zpos n * (2 ^ Zpos n * b)) by ring.
      exact H3.
    + rewrite E3, E2. rewrite Z.div_div by lia. reflexivity.
  - destruct (shr_1_spec mrs a b Hb Hrel) as [H1 E1].
    change (2 ^ 1) with 2. split; assumption.
Qed.

Lemma loc_of_shr_record_of_loc (m : Z) (l : location) :
  loc_of_shr_record (shr_record_of_loc m l) = l
  /\ shr_m (shr_record_of_loc m l) = m.
Proof. destruct l as [|[| |]]; split; reflexivity. Qed.

Lemma shr_fexp_spec (m e : Z) (l : location) (a b : Z) :
  0 <= m -> 0 < b -> inbetween m a b l ->
  let k := shift_of m e in
  snd (shr_fexp prec emax m e l) = e + k
  /\ shr_m (fst (shr_fexp prec emax m e l)) = m / 2 ^ k
  /\ 0 <= m / 2 ^ k
  /\ inbetween (m / 2 ^ k) a (2 ^ k * b)
       (loc_of_shr_record (fst (shr_fexp prec emax m e l))).
Proof.
  intros Hm Hb Hin k. subst k. unfold shift_of, shr_fexp, shr.
  destruct (loc_of_shr_record_of_loc m l) as [Hl Hsm].
  remember (fexp prec emax (Zdigits2 m + e) - e) as kr eqn:Hk.
  destruct kr as [|p|p]; cbn [fst snd].
  - rewrite Z.max_l by lia. rewrite Hsm, Hl, Z.pow_0_r, Z.div_1_r, Z.mul_1_l, Z.add_0_r.
    repeat split; auto.
  - rewrite Z.max_r by lia.
    assert (Hrel : shr_rel (shr_record_of_loc m l) a b).
    { split; rewrite ?Hsm, ?Hl; assumption. }
    destruct (iter_shr_1_spec p _ a b Hb Hrel) as [[H0 H1] H2].
    rewrite Hsm in H2. rewrite H2 in *.
    repeat split; auto.
  - rewrite Z.max_l by lia. rewrite Hsm, Hl, Z.pow_0_r, Z.div_1_r, Z.mul_1_l, Z.add_0_r.
    repeat split; auto.
Qed.

Lemma round_nearest_even_spec (m a b : Z) (l : location) :
  0 < b -> inbetween m a b l ->
  (round_nearest_even m l = m \/ round_nearest_even m l = m + 1)
  /\ rounded (round_nearest_even m l) a b.
Proof.
  intros Hb Hin. unfold rounded.
  destruct l as [|[| |]]; cbn [round_nearest_even inbetween] in *.
  - split; [left; reflexivity|]. subst a. repeat split; try nia.
  - destruct (Z.even m).
    + split; [left; reflexivity|]. repeat split; try nia.
    + split; [right; reflexivity|]. repeat split; try nia.
  - split; [left; reflexivity|]. repeat split; try nia.
  - split; [right; reflexivity|]. repeat split; try nia.
Qed.

Lemma Zdigits2_div (m k : Z) :
  0 < m -> 0 <= k < Zdigits2 m -> Zdigits2 (m / 2 ^ k) = Zdigits2 m - k.
Proof.
  intros Hm Hk.
  pose proof (Zdigits2_spec m Hm) as [Hlo Hhi].
  assert (Hpk : 0 < 2 ^ k) by (apply pow2_pos; lia).
  assert (E1 : 2 ^ (Zdigits2 m - 1) = 2 ^ k * 2 ^ (Zdigits2 m - k - 1))
    by (rewrite <- Z.pow_add_r by lia; f_equal; lia).
  assert (E2 : 2 ^ Zdigits2 m = 2 ^ k * 2 ^ (Zdigits2 m - k))
    by (rewrite <- Z.pow_add_r by lia; f_equal; lia).
  assert (Hq : 2 ^ (Zdigits2 m - k - 1) <= m / 2 ^ k < 2 ^ (Zdigits2 m - k)).
  { split.
    - apply Z.div_le_lower_bound; [assumption | rewrite <- E1; assumption].
    - apply Z.div_lt_upper_bound; [assumption | rewrite <- E2; assumption]. }
  apply Zdigits2_unique; [assumption |].
  assert (0 < 2 ^ (Zdigits2 m - k - 1)) by (apply pow2_pos; lia). lia.
Qed.

Lemma div_pow2_small (m k : Z) :
  0 < m -> Zdigits2 m <= k -> m / 2 ^ k = 0.
Proof.
  intros Hm Hk. pose proof (Zdigits2_spec m Hm) as [_ Hhi].
  pose proof (Zdigits2_pos m Hm).
  apply Z.div_small. split; [lia|].
  assert (2 ^ Zdigits2 m <= 2 ^ k) by (apply Z.pow_le_mono_r; lia). lia.
Qed.

Lemma shift_of_canonical (m e : Z) :
  0 <= m ->
  let k := shift_of m e in
  0 <= k /\ -1074 <= e + k
  /\ fexp prec emax (Zdigits2 (m / 2 ^ k) + (e + k)) <= e + k.
Proof.
  intros Hm k. subst k. unfold shift_of.
  assert (Hm' : m = 0 \/ 0 < m) by lia. destruct Hm' as [-> | Hpos].
  - cbn [Zdigits2]. rewrite Z.div_0_l by (apply Z.pow_nonzero; lia).
    cbn [Zdigits2]. rewrite !fexp_eq. lia.
  - pose proof (Zdigits2_pos m Hpos) as Hd.
    destruct (Z_le_gt_dec (fexp prec emax (Zdigits2 m + e) - e) 0) as [Hle | Hgt].
    + rewrite Z.max_l by lia. rewrite Z.pow_0_r, Z.div_1_r, Z.add_0_r.
      rewrite fexp_eq in *. lia.
    + rewrite Z.max_r by lia.
      set (k := fexp prec emax (Zdigits2 m + e) - e) in *.
      destruct (Z_lt_le_dec k (Zdigits2 m)) as [Hlt | Hge].
      * rewrite Zdigits2_div by lia.
        replace (Zdigits2 m - k + (e + k)) with (Zdigits2 m + e) by lia.
        subst k. rewrite fexp_eq in *. lia.
      * rewrite div_pow2_small by lia. cbn [Zdigits2].
        subst k. rewrite !fexp_eq in *. lia.
Qed.

Lemma second_shift (f c E : Z) :
  0 <= f -> c = f \/ c = f + 1 -> -1074 <= E ->
  fexp prec emax (Zdigits2 f + E) <= E ->
  let k2 := shift_of c E in
  0 <= k2 <= 1 /\ c / 2 ^ k2 * 2 ^ k2 = c.
Proof.
  intros Hf Hc HE Hcan k2. subst k2. unfold shift_of.
  assert (Hzero : forall x, Z.max 0 x = 0 -> 0 <= 0 <= 1 /\ c / 2 ^ 0 * 2 ^ 0 = c).
  { intros. rewrite Z.pow_0_r, Z.div_1_r. lia. }
  destruct Hc as [-> | ->].
  - rewrite Z.max_l by lia. apply (Hzero 0). reflexivity.
  - assert (Hf' : f = 0 \/ 0 < f) by lia. destruct Hf' as [-> | Hpos].
    + change (0 + 1) with 1. change (Zdigits2 1) with 1.
      change (Zdigits2 0) with 0 in Hcan. rewrite fexp_eq in *.
      rewrite Z.max_l by lia. apply (Hzero 0). reflexivity.
    + pose proof (Zdigits2_spec f Hpos) as [Hlo Hhi].
      pose proof (Zdigits2_pos f Hpos) as Hd.
      assert (Hcase : f + 1 < 2 ^ Zdigits2 f \/ f + 1 = 2 ^ Zdigits2 f) by lia.
      destruct Hcase as [Hlt | Heq].
      * rewrite (Zdigits2_unique (f + 1) (Zdigits2 f)) by lia.
        rewrite Z.max_l by lia. apply (Hzero 0). reflexivity.
      * rewrite (Zdigits2_unique (f + 1) (Zdigits2 f + 1)).
        2:{ replace (Zdigits2 f + 1 - 1) with (Zdigits2 f) by lia.
            rewrite Z.pow_add_r, Z.pow_1_r by lia. lia. }
        2: lia.
        rewrite fexp_eq in *.
        destruct (Z_le_gt_dec (Z.max (Zdigits2 f + 1 + E - 53) (-1074) - E) 0) as [Hle | Hgt].
        -- rewrite Z.max_l by lia. apply (Hzero 0). reflexivity.
        -- rewrite Z.max_r by lia.
           replace (Z.max (Zdigits2 f + 1 + E - 53) (-1074) - E) with 1 by lia.
           split; [lia|]. rewrite Heq.
           assert (E2 : 2 ^ Zdigits2 f = 2 ^ (Zdigits2 f - 1) * 2 ^ 1)
             by (rewrite <- Z.pow_add_r by lia; f_equal; lia).
           rewrite E2 at 1. rewrite Z.div_mul by (cbn; lia).
           symmetry. exact E2.
Qed.

(** The rounding performed by every arithmetic operation: given the
    position [lx] of the exact result [a / b] (in units of [2^ex]) relative
    to [mx], the result has the value [c * 2^E] with [c] nearest to the exact
    result in units of [2^E]. *)
Lemma binary_round_aux_spec (sx : bool) (mx ex : Z) (lx : location) (a b : Z) :
  0 <= mx -> 0 < b -> inbetween mx a b lx ->
  let k := shift_of mx ex in
  ex + k + 1 <= emax - prec ->
  exists c : Z,
    0 <= c /\ rounded c a (2 ^ k * b)
    /\ represents (binary_round_aux prec emax sx mx ex lx) sx c (ex + k).
Proof.
  intros Hm Hb Hin k Hov.
  destruct (shr_fexp_spec mx ex lx a b Hm Hb Hin) as (He1 & Hm1 & Hf0 & Hin1).
  fold k in He1, Hm1, Hf0, Hin1.
  destruct (shift_of_canonical mx ex Hm) as (Hk0 & HE & Hcan). fold k in Hk0, HE, Hcan.
  assert (Hb' : 0 < 2 ^ k * b) by (pose proof (pow2_pos k Hk0); nia).
  unfold binary_round_aux.
  destruct (shr_fexp prec emax mx ex lx) as [mrs1 e1] eqn:Hs1. cbn [fst snd] in *.
  subst e1. rewrite Hm1.
  set (f := mx / 2 ^ k) in *.
  destruct (round_nearest_even_spec f a (2 ^ k * b) _ Hb' Hin1) as [Hc Hr].
  set (c := round_nearest_even f (loc_of_shr_record mrs1)) in *.
  assert (Hc0 : 0 <= c) by lia.
  destruct (second_shift f c (ex + k) Hf0 Hc HE Hcan) as [Hk2 Hexact].
  assert (Hin2 : inbetween c c 1 loc_Exact) by (cbn; lia).
  destruct (shr_fexp_spec c (ex + k) loc_Exact c 1 Hc0 ltac:(lia) Hin2)
    as (He2 & Hm2 & Hq0 & _).
  destruct (shr_fexp prec emax c (ex + k) loc_Exact) as [mrs2 e2] eqn:Hs2.
  cbn [fst snd] in *. subst e2. rewrite Hm2.
  exists c. split; [assumption|]. split; [assumption|].
  set (k2 := shift_of c (ex + k)) in *.
  destruct (c / 2 ^ k2) as [|q|q] eqn:Hq; try lia.
  - cbn. split; [reflexivity|]. rewrite Z.mul_0_l in Hexact. auto.
  - replace (ex + k + k2 <=? emax - prec) with true
      by (symmetry; apply Z.leb_le; lia).
    cbn. split; [reflexivity|]. split; [lia|].
    replace (ex + k + k2 - (ex + k)) with k2 by lia. exact Hexact.
Qed.

Lemma floor_scaled_represents (m : positive) (e c E : Z) :
  E <= e -> E <= 0 -> Zpos m * 2 ^ (e - E) = c ->
  floor_scaled (Zpos m) e = c / 2 ^ (- E).
Proof.
  intros HE HE0 Hc. unfold floor_scaled. subst c.
  destruct (Z.leb_spec 0 e) as [He | He].
  - replace (e - E) with (e + - E) by lia.
    rewrite Z.pow_add_r by lia.
    rewrite Z.mul_assoc, Z.div_mul by (apply Z.pow_nonzero; lia). reflexivity.
  - replace (- E) with ((e - E) + - e) by lia.
    rewrite Z.pow_add_r by lia.
    rewrite (Z.mul_comm (Zpos m)).
    rewrite Z.div_mul_cancel_l by (apply Z.pow_nonzero; lia). reflexivity.
Qed.

Lemma binary_round_aux_canonical (s : bool) (m : positive) (e : Z) :
  fexp prec emax (Zdigits2 (Zpos m) + e) = e -> e <= emax - prec ->
  binary_round_aux prec emax s (Zpos m) e loc_Exact = S754_finite s m e.
Proof.
  intros Hcan He. unfold binary_round_aux, shr_fexp.
  rewrite Hcan, Z.sub_diag. cbn [shr shr_record_of_loc shr_m loc_of_shr_record round_nearest_even].
  rewrite Hcan, Z.sub_diag. cbn [shr shr_record_of_loc shr_m].
  apply Z.leb_le in He. rewrite He. reflexivity.
Qed.

Lemma iter_xO (k p : positive) : Zpos (Pos.iter xO p k) = Zpos p * 2 ^ Zpos k.
Proof.
  induction k as [|k IH] using Pos.peano_ind.
  - cbn [Pos.iter]. change (2 ^ 1) with 2. lia.
  - rewrite Pos.iter_succ. change (Zpos (Pos.iter xO p k)~0) with (2 * Zpos (Pos.iter xO p k)).
    rewrite IH, Pos2Z.inj_succ, Z.pow_succ_r by lia. ring.
Qed.

Lemma Zdigits2_mul_pow2 (m k : Z) :
  0 < m -> 0 <= k -> Zdigits2 (m * 2 ^ k) = Zdigits2 m + k.
Proof.
  intros Hm Hk. pose proof (Zdigits2_spec m Hm) as [Hlo Hhi].
  pose proof (Zdigits2_pos m Hm).
  pose proof (pow2_pos k Hk).
  apply Zdigits2_unique; [|nia].
  replace (Zdigits2 m + k - 1) with (Zdigits2 m - 1 + k) by lia.
  rewrite !Z.pow_add_r by lia. nia.
Qed.

Lemma Zdigits2_le (m n : Z) : 0 < m -> m < 2 ^ n -> Zdigits2 m <= n.
Proof.
  intros Hm Hn. pose proof (Zdigits2_spec m Hm) as [Hlo _].
  pose proof (Zdigits2_pos m Hm).
  destruct (Z_le_gt_dec (Zdigits2 m) n) as [|Hgt]; [assumption|].
  assert (2 ^ n <= 2 ^ (Zdigits2 m - 1)).
  { destruct (Z_lt_le_dec n 0); [rewrite (Z.pow_neg_r 2 n) by lia; apply Z.pow_nonneg; lia |].
    apply Z.pow_le_mono_r; lia. }
  lia.
Qed.

(** An integer below [2^53] is a double: its mantissa has 53 digits. *)
Lemma of_Z_exact (n : Z) :
  0 < n < 2 ^ 53 ->
  exists mx : positive,
    of_Z n = S754_finite false mx (Zdigits2 n - 53)
    /\ Zpos mx = n * 2 ^ (53 - Zdigits2 n)
    /\ Zdigits2 (Zpos mx) = 53.
Proof.
  intros [Hn Hhi]. destruct n as [|p|p]; try lia.
  pose proof (Zdigits2_le (Zpos p) 53 Hn Hhi) as Hd.
  pose proof (Zdigits2_pos (Zpos p) Hn) as Hd0.
  unfold of_Z, binary_normalize, binary_round, shl_align.
  rewrite Z.add_0_r, Z.sub_0_r.
  change (Zpos (digits2_pos p)) with (Zdigits2 (Zpos p)).
  set (d := Zdigits2 (Zpos p)) in *.
  assert (Hf : fexp prec emax d = d - 53) by (rewrite fexp_eq; lia).
  rewrite Hf.
  destruct (d - 53) as [|k|k] eqn:Hk; try lia.
  - exists p. replace (53 - d) with 0 by lia. rewrite Z.pow_0_r, Z.mul_1_r.
    fold d. replace d with 53 by lia.
    rewrite binary_round_aux_canonical.
    + auto.
    + fold d. replace d with 53 by lia. reflexivity.
    + unfold emax, prec. lia.
  - exists (Pos.iter xO p k).
    assert (Hv : Zpos (Pos.iter xO p k) = Zpos p * 2 ^ (53 - d)).
    { rewrite iter_xO. f_equal. f_equal. lia. }
    assert (Hdig : Zdigits2 (Zpos (Pos.iter xO p k)) = 53).
    { rewrite Hv, Zdigits2_mul_pow2 by lia. fold d. lia. }
    rewrite binary_round_aux_canonical.
    + auto.
    + rewrite Hdig, fexp_eq. lia.
    + unfold emax, prec. lia.
Qed.

Lemma new_location_spec (nb r q : Z) :
  0 < nb -> 0 <= r < nb -> inbetween q (nb * q + r) nb (new_location nb r).
Proof.
  intros Hnb Hr. unfold new_location, new_location_even, new_location_odd.
  destruct (Z.even nb) eqn:Hev; destruct (Z.eqb_spec r 0) as [-> | Hr0];
    cbn [inbetween]; try lia.
  - destruct (Z.compare_spec (2 * r) nb); cbn [inbetween]; nia.
  - assert (Hodd : Z.odd nb = true) by (rewrite <- Z.negb_even, Hev; reflexivity).
    apply Z.odd_spec in Hodd. destruct Hodd as [j Hj].
    destruct (Z.compare_spec (2 * r + 1) nb); cbn [inbetween]; nia.
Qed.

Lemma SFdiv_core_binary_spec (mx ex my ey : Z) :
  0 < mx -> 0 < my ->
  let e' := Z.min (fexp prec emax (Zdigits2 mx + ex - (Zdigits2 my + ey))) (ex - ey) in
  let s := ex - ey - e' in
  exists q l,
    SFdiv_core_binary prec emax mx ex my ey = (q, e', l)
    /\ 0 <= q /\ q = mx * 2 ^ s / my /\ inbetween q (mx * 2 ^ s) my l.
Proof.
  intros Hmx Hmy e' s. unfold SFdiv_core_binary.
  fold e'. fold s.
  assert (Hs : 0 <= s) by (subst s e'; lia).
  assert (Hm' : forall t, 0 <= t ->
                match t with Z.pos _ => Z.shiftl mx t | 0 => mx | Z.neg _ => 0 end
                = mx * 2 ^ t).
  { intros [|p|p] Ht; try lia. apply Z.shiftl_mul_pow2. lia. }
  rewrite (Hm' s Hs).
  pose proof (Z_div_mod (mx * 2 ^ s) my ltac:(lia)) as Hdm.
  pose proof (Z.div_eucl_eq (mx * 2 ^ s) my ltac:(lia)) as Heq.
  unfold Z.div.
  destruct (Z.div_eucl (mx * 2 ^ s) my) as [q r].
  destruct Hdm as [Hdm Hr]. cbn [fst snd] in *.
  exists q, (new_location my r). split; [reflexivity|].
  assert (0 < 2 ^ s) by (apply pow2_pos; assumption).
  split; [nia|]. split; [reflexivity|].
  rewrite Hdm. apply new_location_spec; lia.
Qed.

Lemma floor_of_rounded (c a B G src N : Z) :
  0 < B -> 0 < G -> 0 < src -> 0 <= N ->
  a * src = N * (B * G) -> src < 2 * G -> rounded c a B ->
  c / G = N / src.
Proof.
  intros HB HG Hsrc HN Ha H2G (R1 & Rlo & Rhi).
  pose proof (Z.mul_div_le N src Hsrc) as Klo.
  pose proof (Z.mul_succ_div_gt N src Hsrc) as Khi.
  set (K := N / src) in *.
  assert (HBG : 0 < B * G) by nia.
  assert (L1 : K * G * B <= a).
  { apply (Z.mul_le_mono_pos_r _ _ src Hsrc).
    rewrite Ha. replace (K * G * B * src) with ((src * K) * (B * G)) by ring.
    apply Z.mul_le_mono_nonneg_r; lia. }
  assert (U1 : a < (K + 1) * G * B).
  { apply (Z.mul_lt_mono_pos_r src _ _ Hsrc).
    rewrite Ha. replace ((K + 1) * G * B * src) with ((src * Z.succ K) * (B * G)) by ring.
    apply Z.mul_lt_mono_pos_r; lia. }
  pose proof (Rlo (K * G) L1) as Hlo.
  pose proof (Rhi ((K + 1) * G) ltac:(lia)) as Hhi.
  assert (Hne : c <> (K + 1) * G).
  { intros ->.
    assert (D1 : 1 <= src * Z.succ K - N) by lia.
    assert (H3 : (2 * ((K + 1) * G) - 1) * B * src <= 2 * (N * (B * G)))
      by (rewrite <- Ha; nia).
    assert (H4 : B * (2 * G * (src * Z.succ K - N)) <= B * src) by nia.
    apply Z.mul_le_mono_pos_l in H4; [|assumption].
    nia. }
  symmetry. apply (Z.div_unique c G K (c - K * G)); [|ring].
  left. lia.
Qed.

Lemma floorZ_represents (x : spec_float) (c E : Z) :
  represents x false c E -> E <= 0 -> floorZ x = Some (c / 2 ^ (- E)).
Proof.
  intros Hr HE. destruct x as [s | s | | s m e]; cbn in Hr; try contradiction.
  - destruct Hr as [_ ->]. rewrite Z.div_0_l by (apply Z.pow_nonzero; lia).
    reflexivity.
  - destruct Hr as (-> & He & Hc). cbn [floorZ signed_mantissa]. f_equal.
    apply floor_scaled_represents; assumption.
Qed.

Lemma pow2_lt_inv (x y : Z) : 0 <= y -> 2 ^ x < 2 ^ y -> x < y.
Proof.
  intros Hy H. destruct (Z_lt_le_dec x y) as [|Hge]; [assumption|].
  assert (2 ^ y <= 2 ^ x) by (apply Z.pow_le_mono_r; lia). lia.
Qed.

(** Dividing an integer by an exactly represented ratio [src / tgt]: the
    floor of the rounded quotient is the floor of the exact quotient. *)
Lemma div_of_Z_floor (n src tgt : Z) (my : positive) (ey : Z) :
  0 < n -> 0 < src -> 0 < tgt ->
  Zdigits2 (Zpos my) = 53 -> -1000 <= ey <= 0 ->
  src * 2 ^ (- ey) = Zpos my * tgt ->
  n * tgt <= 2 ^ 52 ->
  floorZ (SFdiv prec emax (of_Z n) (S754_finite false my ey)) = Some (n * tgt / src).
Proof.
  intros Hn Hsrc Htgt Hdy Hey Hexact Hbound.
  assert (Hn53 : n < 2 ^ 53) by (change (2 ^ 53) with 9007199254740992; change (2 ^ 52) with 4503599627370496 in Hbound; nia).
  destruct (of_Z_exact n (conj Hn Hn53)) as (mx & Hx & Hmx & Hdx).
  rewrite Hx. cbn [SFdiv xorb].
  pose proof (Zdigits2_spec n Hn) as [Hnlo Hnhi].
  pose proof (Zdigits2_pos n Hn) as Hdn0.
  pose proof (Zdigits2_le n 53 Hn Hn53) as Hdn53.
  set (dn := Zdigits2 n) in *.
  pose proof (Zdigits2_spec (Zpos my) ltac:(lia)) as [Hmylo Hmyhi].
  pose proof (Zdigits2_spec (Zpos mx) ltac:(lia)) as [Hmxlo Hmxhi].
  rewrite Hdy in Hmylo, Hmyhi. rewrite Hdx in Hmxlo, Hmxhi.
  destruct (SFdiv_core_binary_spec (Zpos mx) (dn - 53) (Zpos my) ey ltac:(lia) ltac:(lia))
    as (q & l & Hcore & Hq0 & Hq & Hin).
  rewrite Hdx, Hdy in Hcore, Hq, Hin.
  assert (He' : Z.min (fexp prec emax (53 + (dn - 53) - (53 + ey))) (dn - 53 - ey)
                = dn - ey - 106) by (rewrite fexp_eq; lia).
  rewrite He' in Hcore, Hq, Hin.
  replace (dn - 53 - ey - (dn - ey - 106)) with 53 in Hq, Hin by lia.
  rewrite Hcore.
  set (e' := dn - ey - 106) in *.
  (* the quotient has 53 or 54 digits *)
  assert (Hqlo : 2 ^ 52 <= q).
  { rewrite Hq. apply Z.div_le_lower_bound; [lia|].
    change (2 ^ (53 - 1)) with (2 ^ 52) in *.
    change (2 ^ 53) with (2 * 2 ^ 52) in *. nia. }
  assert (Hqhi : q < 2 ^ 54).
  { rewrite Hq. apply Z.div_lt_upper_bound; [lia|].
    change (2 ^ (53 - 1)) with (2 ^ 52) in *.
    change (2 ^ 54) with (4 * 2 ^ 52) in *.
    change (2 ^ 53) with (2 * 2 ^ 52) in *. nia. }
  assert (Hq' : 0 < q) by (change (2 ^ 52) with 4503599627370496 in Hqlo; lia).
  pose proof (Zdigits2_le q 54 Hq' Hqhi) as Hdq.
  pose proof (Zdigits2_pos q Hq') as Hdq0.
  (* the size of the operands *)
  assert (Hsize : dn - ey <= 105).
  { assert (H1 : 2 ^ (dn - 1) * 2 ^ (- ey) * src < 2 ^ 105).
    { change (2 ^ 105) with (2 ^ 53 * 2 ^ 52).
      assert (0 < 2 ^ (dn - 1)) by (apply pow2_pos; lia).
      assert (0 < 2 ^ (- ey)) by (apply pow2_pos; lia).
      assert (H2 : 2 ^ (- ey) * src < 2 ^ 53 * tgt) by nia.
      assert (H3 : 2 ^ (dn - 1) * (2 ^ (- ey) * src) < n * (2 ^ 53 * tgt)).
      { apply Z.le_lt_trans with (n * (2 ^ (- ey) * src)).
        - apply Z.mul_le_mono_nonneg_r; nia.
        - apply Z.mul_lt_mono_pos_l; lia. }
      change (2 ^ 53) with 9007199254740992 in *.
      change (2 ^ 52) with 4503599627370496 in *. nia. }
    rewrite <- Z.pow_add_r in H1 by lia.
    assert (H4 : 2 ^ (dn - 1 + - ey) < 2 ^ 105).
    { assert (0 < 2 ^ (dn - 1 + - ey)) by (apply pow2_pos; lia). nia. }
    apply pow2_lt_inv in H4; lia. }
  assert (Hk : 0 <= shift_of q e' <= 1).
  { unfold shift_of. rewrite fexp_eq. subst e'. lia. }
  destruct (binary_round_aux_spec false q e' l (Zpos mx * 2 ^ 53) (Zpos my)
              Hq0 ltac:(lia) Hin) as (c & Hc0 & Hround & Hrep).
  { unfold emax, prec. subst e'. lia. }
  set (k := shift_of q e') in *.
  assert (HE : e' + k <= 0 /\ - (e' + k) = 106 - dn + ey - k /\ 0 <= 106 - dn + ey - k)
    by (clear - Hk Hsize Hey Hdn0; subst e'; lia).
  destruct HE as (HE0 & HE1 & HE2).
  clearbody k e'.
  rewrite (floorZ_represents _ c (e' + k) Hrep) by assumption.
  rewrite HE1.
  f_equal.
  assert (Hpk : 0 < 2 ^ k) by (apply pow2_pos; lia).
  apply floor_of_rounded with (a := Zpos mx * 2 ^ 53) (B := 2 ^ k * Zpos my).
  - nia.
  - apply pow2_pos. assumption.
  - assumption.
  - nia.
  - (* the exact quotient is n * tgt / src *)
    replace (2 ^ k * Zpos my * 2 ^ (106 - dn + ey - k))
      with (Zpos my * (2 ^ k * 2 ^ (106 - dn + ey - k))) by ring.
    rewrite <- Z.pow_add_r by (clear - Hk HE2; lia).
    replace (k + (106 - dn + ey - k)) with (106 - dn + ey) by (clear; lia).
    rewrite Hmx.
    assert (Hsplit : 2 ^ (53 - dn) * 2 ^ 53 = 2 ^ (- ey) * 2 ^ (106 - dn + ey)).
    { rewrite <- !Z.pow_add_r by (clear - Hdn53 Hey HE2 Hk; lia).
      f_equal. clear; lia. }
    replace (n * 2 ^ (53 - dn) * 2 ^ 53 * src)
      with (n * (2 ^ (53 - dn) * 2 ^ 53) * src) by ring.
    rewrite Hsplit.
    replace (n * (2 ^ (- ey) * 2 ^ (106 - dn + ey)) * src)
      with (n * 2 ^ (106 - dn + ey) * (src * 2 ^ (- ey))) by ring.
    rewrite Hexact. ring.
  - (* the denominator is small against the grid *)
    assert (H1 : src * 2 ^ (dn - ey) < 2 ^ 106).
    { replace (dn - ey) with (1 + (dn - 1) + - ey) by lia.
      rewrite !Z.pow_add_r by lia. change (2 ^ 1) with 2.
      change (2 ^ 106) with (2 * (2 ^ 53 * 2 ^ 52)).
      assert (0 < 2 ^ (dn - 1)) by (apply pow2_pos; lia).
      assert (0 < 2 ^ (- ey)) by (apply pow2_pos; lia).
      assert (H2 : 2 ^ (- ey) * src < 2 ^ 53 * tgt) by nia.
      assert (H3 : 2 ^ (dn - 1) * (2 ^ (- ey) * src) < n * (2 ^ 53 * tgt)).
      { apply Z.le_lt_trans with (n * (2 ^ (- ey) * src)).
        - apply Z.mul_le_mono_nonneg_r; nia.
        - apply Z.mul_lt_mono_pos_l; lia. }
      change (2 ^ 53) with 9007199254740992 in *.
      change (2 ^ 52) with 4503599627370496 in *. nia. }
    assert (H2 : 2 ^ 106 <= 2 ^ (dn - ey) * (2 ^ 1 * 2 ^ (106 - dn + ey - k))).
    { rewrite <- !Z.pow_add_r by (clear - Hk HE2 Hdn0 Hey; lia).
      apply Z.pow_le_mono_r; clear - Hk HE2 Hdn0 Hey; lia. }
    change (2 ^ 1) with 2 in H2.
    assert (0 < 2 ^ (dn - ey)) by (apply pow2_pos; lia).
    nia.
  - exact Hround.
Qed.

Lemma truncZ_represents (x : spec_float) (s : bool) (c E : Z) :
  represents x s c E -> E <= 0 ->
  truncZ x = Some (if s then - (c / 2 ^ (- E)) else c / 2 ^ (- E)).
Proof.
  intros Hr HE. destruct x as [s' | s' | | s' m e]; cbn in Hr; try contradiction.
  - destruct Hr as [_ ->]. rewrite Z.div_0_l by (apply Z.pow_nonzero; lia).
    destruct s; reflexivity.
  - destruct Hr as (-> & He & Hc). cbn [truncZ].
    rewrite (floor_scaled_represents m e c E); auto.
Qed.

(** The product of a float of magnitude at most one with the constant
    [bound], truncated: no larger than [bound] in magnitude. *)
Lemma mul_unit_bound (s : bool) (m M : positive) (e eM bound : Z) :
  e <= 0 -> Zpos m <= 2 ^ (- e) ->
  -1000 <= eM <= 0 -> Zpos M = bound * 2 ^ (- eM) -> Zpos M < 2 ^ 53 ->
  exists z,
    truncZ (SFmul prec emax (S754_finite s m e) (S754_finite false M eM)) = Some z
    /\ (if s then - bound <= z <= 0 else 0 <= z <= bound).
Proof.
  intros He Hm HeM HM HM53. cbn [SFmul].
  replace (xorb s false) with s by (destruct s; reflexivity).
  rewrite Pos2Z.inj_mul.
  assert (Hpe : 0 < 2 ^ (- e)) by (apply pow2_pos; lia).
  assert (HpM : 0 < 2 ^ (- eM)) by (apply pow2_pos; lia).
  assert (Hprod : Zpos m * Zpos M < 2 ^ (53 - e)).
  { replace (53 - e) with (- e + 53) by lia. rewrite Z.pow_add_r by lia. nia. }
  pose proof (Zdigits2_le (Zpos m * Zpos M) (53 - e) ltac:(lia) Hprod) as Hd.
  pose proof (Zdigits2_pos (Zpos m * Zpos M) ltac:(lia)) as Hd0.
  assert (Hin : inbetween (Zpos m * Zpos M) (Zpos m * Zpos M) 1 loc_Exact)
    by (cbn; lia).
  assert (Hk : 0 <= shift_of (Zpos m * Zpos M) (e + eM)
               /\ e + eM + shift_of (Zpos m * Zpos M) (e + eM) <= 0).
  { unfold shift_of. rewrite fexp_eq. clear - Hd He HeM. lia. }
  destruct (binary_round_aux_spec s (Zpos m * Zpos M) (e + eM) loc_Exact
              (Zpos m * Zpos M) 1 ltac:(lia) ltac:(lia) Hin)
    as (c & Hc0 & (R1 & Rlo & Rhi) & Hrep).
  { unfold emax, prec. clear - Hk. lia. }
  set (k := shift_of (Zpos m * Zpos M) (e + eM)) in *.
  destruct Hk as [Hk0 HE]. clearbody k.
  rewrite (truncZ_represents _ s c (e + eM + k) Hrep HE).
  set (G := 2 ^ (- (e + eM + k))).
  assert (HG : 0 < G) by (apply pow2_pos; lia).
  assert (Hgrid : G * 2 ^ k = 2 ^ (- e) * 2 ^ (- eM)).
  { unfold G. rewrite <- !Z.pow_add_r by lia. f_equal. lia. }
  assert (Hc : c <= bound * G).
  { apply Rhi. rewrite Z.mul_1_r.
    replace (bound * G * 2 ^ k) with (bound * (G * 2 ^ k)) by ring.
    rewrite Hgrid.
    replace (bound * (2 ^ (- e) * 2 ^ (- eM))) with (2 ^ (- e) * (bound * 2 ^ (- eM))) by ring.
    rewrite <- HM. nia. }
  assert (Hz : 0 <= c / G <= bound).
  { split.
    - apply Z.div_pos; lia.
    - apply Z.div_le_upper_bound; [assumption | lia]. }
  eexists. split; [reflexivity|]. destruct s; lia.
Qed.

End F64Facts.

(** ** Division of positive doubles, in general *)

Module F64Division.

Import F64 F64Spec F64Facts.

Lemma pow2_le_inv (x y : Z) : 0 <= y -> 2 ^ x <= 2 ^ y -> x <= y.
Proof.
  intros Hy H. destruct (Z_le_gt_dec x y) as [|Hgt]; [assumption|].
  assert (2 ^ (y + 1) <= 2 ^ x) by (apply Z.pow_le_mono_r; lia).
  rewrite Z.pow_add_r, Z.pow_1_r in * by lia.
  assert (0 < 2 ^ y) by (apply pow2_pos; assumption). lia.
Qed.

(** The quotient of a normal double by a positive one of comparable size:
    it is a positive double, and in units of [2^e0] it lies between [2^52]
    and [2^54], where [e0] is the exponent [SFdiv] aims at. *)
Lemma SFdiv_finite (mx my : positive) (ex ey : Z) :
  Zdigits2 (Zpos mx) = 53 -> Zdigits2 (Zpos my) <= 60 ->
  -200 <= ex <= 200 -> -200 <= ey <= 200 ->
  exists (m : positive) (e : Z),
    SFdiv prec emax (S754_finite false mx ex) (S754_finite false my ey)
    = S754_finite false m e
    /\ ex - ey - Zdigits2 (Zpos my) <= e
    /\ 2 ^ 52 <= Zpos m * 2 ^ (e - (ex - ey - Zdigits2 (Zpos my))) <= 2 ^ 54.
Proof.
  intros Hdx Hdy Hex Hey.
  pose proof (Zdigits2_pos (Zpos my) ltac:(lia)) as Hdy0.
  pose proof (Zdigits2_spec (Zpos my) ltac:(lia)) as [Hmylo Hmyhi].
  pose proof (Zdigits2_spec (Zpos mx) ltac:(lia)) as [Hmxlo Hmxhi].
  rewrite Hdx in Hmxlo, Hmxhi. change (2 ^ (53 - 1)) with (2 ^ 52) in Hmxlo.
  set (dy := Zdigits2 (Zpos my)) in *.
  set (e0 := ex - ey - dy).
  cbn [SFdiv xorb].
  destruct (SFdiv_core_binary_spec (Zpos mx) ex (Zpos my) ey ltac:(lia) ltac:(lia))
    as (q & l & Hcore & Hq0 & Hq & Hin).
  rewrite Hdx in Hcore, Hq, Hin. fold dy in Hcore, Hq, Hin.
  assert (He' : Z.min (fexp prec emax (53 + ex - (dy + ey))) (ex - ey) = e0)
    by (rewrite fexp_eq; subst e0; lia).
  rewrite He' in Hcore, Hq, Hin.
  replace (ex - ey - e0) with dy in Hq, Hin by (subst e0; lia).
  rewrite Hcore.
  assert (Hpdy : 2 ^ dy = 2 * 2 ^ (dy - 1)).
  { replace dy with (1 + (dy - 1)) at 1 by lia.
    rewrite Z.pow_add_r by lia. reflexivity. }
  assert (Hp1 : 0 < 2 ^ (dy - 1)) by (apply pow2_pos; lia).
  (* the numerator against the denominator *)
  assert (Halo : 2 ^ 52 * Zpos my <= Zpos mx * 2 ^ dy).
  { apply Z.le_trans with (2 ^ 52 * 2 ^ dy).
    - apply Z.mul_le_mono_nonneg_l; [apply Z.pow_nonneg|]; lia.
    - apply Z.mul_le_mono_nonneg_r; [apply Z.pow_nonneg|]; lia. }
  assert (Hahi : Zpos mx * 2 ^ dy < 2 ^ 54 * Zpos my).
  { apply Z.lt_le_trans with (2 ^ 53 * 2 ^ dy).
    - apply Z.mul_lt_mono_pos_r; [apply pow2_pos|]; lia.
    - rewrite Hpdy. change (2 ^ 54) with (2 ^ 53 * 2).
      rewrite <- Z.mul_assoc. apply Z.mul_le_mono_nonneg_l; [apply Z.pow_nonneg|]; lia. }
  assert (Hqlo : 2 ^ 52 <= q).
  { rewrite Hq. apply Z.div_le_lower_bound; lia. }
  assert (Hqhi : q < 2 ^ 54).
  { rewrite Hq. apply Z.div_lt_upper_bound; lia. }
  assert (Hq' : 0 < q) by (change (2 ^ 52) with 4503599627370496 in Hqlo; lia).
  pose proof (Zdigits2_le q 54 Hq' Hqhi) as Hdq.
  pose proof (Zdigits2_spec q Hq') as [Hqd1 Hqd2].
  assert (Hdq53 : 53 <= Zdigits2 q).
  { assert (H : 2 ^ 52 < 2 ^ Zdigits2 q) by lia.
    apply pow2_lt_inv in H; [lia|]. pose proof (Zdigits2_pos q Hq'). lia. }
  assert (Hk : shift_of q e0 = Zdigits2 q - 53).
  { unfold shift_of. rewrite fexp_eq. subst e0. lia. }
  destruct (binary_round_aux_spec false q e0 l (Zpos mx * 2 ^ dy) (Zpos my)
              Hq0 ltac:(lia) Hin) as (c & Hc0 & Hround & Hrep).
  { rewrite Hk. unfold emax, prec. subst e0. lia. }
  rewrite Hk in Hround, Hrep.
  set (k := Zdigits2 q - 53) in *.
  destruct Hround as (_ & Rlo & Rhi).
  assert (Hck : 2 ^ 52 <= c * 2 ^ k <= 2 ^ 54).
  { assert (Hk01 : k = 0 \/ k = 1) by lia.
    destruct Hk01 as [Hk0 | Hk1].
    - rewrite Hk0 in *. rewrite Z.pow_0_r in *. rewrite Z.mul_1_r.
      split.
      + apply Rlo. rewrite Z.mul_1_l. exact Halo.
      + apply Rhi. rewrite Z.mul_1_l. lia.
    - rewrite Hk1 in *. rewrite Z.pow_1_r in *.
      assert (Hq53 : 2 ^ 53 <= q).
      { replace (Zdigits2 q) with 54 in Hqd1 by lia.
        change (2 ^ (54 - 1)) with (2 ^ 53) in Hqd1. exact Hqd1. }
      assert (Hqa : q * Zpos my <= Zpos mx * 2 ^ dy).
      { rewrite Hq. rewrite Z.mul_comm. apply Z.mul_div_le. lia. }
      split.
      + assert (2 ^ 52 <= c).
        { apply Rlo. change (2 ^ 53) with (2 ^ 52 * 2) in Hq53.
          apply Z.le_trans with (q * Zpos my); [|exact Hqa].
          replace (2 ^ 52 * (2 * Zpos my)) with (2 ^ 52 * 2 * Zpos my) by ring.
          apply Z.mul_le_mono_nonneg_r; lia. }
        lia.
      + assert (c <= 2 ^ 53).
        { apply Rhi. change (2 ^ 54) with (2 ^ 53 * 2) in Hahi.
          replace (2 ^ 53 * (2 * Zpos my)) with (2 ^ 53 * 2 * Zpos my) by ring.
          lia. }
        change (2 ^ 54) with (2 ^ 53 * 2). lia. }
  assert (Hcpos : 0 < c).
  { assert (0 < 2 ^ k) by (apply pow2_pos; lia).
    change (2 ^ 52) with 4503599627370496 in Hck. nia. }
  destruct (binary_round_aux prec emax false q e0 l) as [s | s | | s m e];
    cbn [represents] in Hrep; try contradiction.
  - destruct Hrep as [_ Hz]. lia.
  - destruct Hrep as (-> & HE & Hm).
    exists m, e. split; [reflexivity|]. split; [lia|].
    replace (e - e0) with (e - (e0 + k) + k) by lia.
    rewrite Z.pow_add_r by lia. rewrite Z.mul_assoc, Hm. exact Hck.
Qed.

(** The quotient of two positive integers below [2^53], as [SFdiv]
    computes it from their doubles. *)
Lemma div_of_Z_finite (a b : Z) :
  0 < a < 2 ^ 53 -> 0 < b < 2 ^ 53 ->
  exists (m : positive) (e : Z),
    div (of_Z a) (of_Z b) = S754_finite false m e
    /\ Zdigits2 a - Zdigits2 b - 53 <= e
    /\ 2 ^ 52 <= Zpos m * 2 ^ (e - (Zdigits2 a - Zdigits2 b - 53)) <= 2 ^ 54.
Proof.
  intros Ha Hb.
  destruct (of_Z_exact a Ha) as (mx & Hx & Hmx & Hdx).
  destruct (of_Z_exact b Hb) as (my & Hy & Hmy & Hdy).
  pose proof (Zdigits2_le a 53 ltac:(lia) ltac:(lia)) as Hda.
  pose proof (Zdigits2_pos a ltac:(lia)) as Hda0.
  pose proof (Zdigits2_le b 53 ltac:(lia) ltac:(lia)) as Hdb.
  pose proof (Zdigits2_pos b ltac:(lia)) as Hdb0.
  unfold div. rewrite Hx, Hy.
  destruct (SFdiv_finite mx my (Zdigits2 a - 53) (Zdigits2 b - 53))
    as (m & e & Hdiv & He & Hval); try lia.
  rewrite Hdy in He, Hval.
  exists m, e. split; [exact Hdiv|].
  replace (Zdigits2 a - 53 - (Zdigits2 b - 53) - 53)
    with (Zdigits2 a - Zdigits2 b - 53) in He, Hval by lia.
  split; assumption.
Qed.

(** What [resample] divides: the number of samples by the ratio of the
    rates.  The quotient is a double that is zero or positive, and its
    floor is a valid array length. *)
Lemma length_quotient (n src tgt : Z) :
  0 <= n -> 0 < src < 2 ^ 53 -> 0 < tgt < 2 ^ 53 ->
  n * tgt <= 2 ^ 50 ->
  exists K : Z,
    floorZ (div (of_Z n) (div (of_Z src) (of_Z tgt))) = Some K
    /\ 0 <= K < 2 ^ 53.
Proof.
  intros Hn Hsrc Htgt Hbound.
  destruct (div_of_Z_finite src tgt Hsrc Htgt) as (m1 & e1 & Hr & He1 & Hv1).
  rewrite Hr.
  assert (Hcase : n = 0 \/ 0 < n) by lia. destruct Hcase as [-> | Hpos].
  { exists 0. split; [reflexivity|]. cbn. lia. }
  assert (Hn53 : n < 2 ^ 53).
  { change (2 ^ 53) with 9007199254740992.
    change (2 ^ 50) with 1125899906842624 in Hbound. nia. }
  destruct (of_Z_exact n (conj Hpos Hn53)) as (mx & Hx & Hmx & Hdx).
  pose proof (Zdigits2_spec n Hpos) as [Hnlo _].
  pose proof (Zdigits2_spec src ltac:(lia)) as [_ Hsrchi].
  pose proof (Zdigits2_spec tgt ltac:(lia)) as [Htgtlo _].
  pose proof (Zdigits2_pos n Hpos) as Hdn0.
  pose proof (Zdigits2_pos src ltac:(lia)) as Hds0.
  pose proof (Zdigits2_pos tgt ltac:(lia)) as Hdt0.
  pose proof (Zdigits2_le n 53 Hpos Hn53) as Hdn.
  pose proof (Zdigits2_le src 53 ltac:(lia) ltac:(lia)) as Hds.
  pose proof (Zdigits2_le tgt 53 ltac:(lia) ltac:(lia)) as Hdt.
  set (dn := Zdigits2 n) in *. set (ds := Zdigits2 src) in *.
  set (dt := Zdigits2 tgt) in *.
  (* the sizes of the operands *)
  assert (Hsum : dn + dt <= 52).
  { assert (H : 2 ^ (dn - 1 + (dt - 1)) <= 2 ^ 50).
    { rewrite Z.pow_add_r by lia.
      apply Z.le_trans with (n * tgt); [|exact Hbound].
      apply Z.mul_le_mono_nonneg; try lia; apply Z.pow_nonneg; lia. }
    apply pow2_le_inv in H; lia. }
  set (e01 := ds - dt - 53) in *.
  pose proof (Zdigits2_spec (Zpos m1) ltac:(lia)) as [Hm1lo Hm1hi].
  pose proof (Zdigits2_pos (Zpos m1) ltac:(lia)) as Hd10.
  set (d1 := Zdigits2 (Zpos m1)) in *.
  assert (Hp1 : 0 < 2 ^ (e1 - e01)) by (apply pow2_pos; lia).
  assert (Hd1hi : d1 <= 55).
  { apply Zdigits2_le; [lia|].
    change (2 ^ 55) with (2 * 2 ^ 54). nia. }
  assert (Hd1lo : ds - dt <= d1 + e1).
  { assert (H : 2 ^ 52 < 2 ^ (d1 + (e1 - e01))).
    { rewrite Z.pow_add_r by lia.
      apply Z.le_lt_trans with (Zpos m1 * 2 ^ (e1 - e01)); [lia|].
      apply Z.mul_lt_mono_pos_r; lia. }
    apply pow2_lt_inv in H; [|lia]. subst e01. lia. }
  assert (He1hi : e1 <= 200).
  { assert (H : 2 ^ (e1 - e01) <= 2 ^ 54).
    { apply Z.le_trans with (Zpos m1 * 2 ^ (e1 - e01)); [|lia].
      rewrite <- (Z.mul_1_l (2 ^ (e1 - e01))) at 1.
      apply Z.mul_le_mono_nonneg_r; lia. }
    apply pow2_le_inv in H; [|lia]. subst e01. lia. }
  unfold div in *. rewrite Hx.
  destruct (SFdiv_finite mx m1 (dn - 53) e1) as (m2 & e2 & Hdiv & He2 & Hv2);
    try (fold d1; subst e01; lia).
  fold d1 in He2, Hv2.
  rewrite Hdiv. cbn [floorZ signed_mantissa].
  set (e02 := dn - 53 - e1 - d1) in *.
  set (p := - e02).
  assert (Hp : 2 <= p) by (subst p e02; lia).
  exists (floor_scaled (Zpos m2) e2). split; [reflexivity|].
  assert (Hfs : 0 <= floor_scaled (Zpos m2) e2
                /\ floor_scaled (Zpos m2) e2 * 2 ^ p <= Zpos m2 * 2 ^ (e2 - e02)).
  { unfold floor_scaled. replace (e2 - e02) with (e2 + p) by (subst p; lia).
    destruct (Z.leb_spec 0 e2) as [Hpos2 | Hneg2].
    - split.
      + apply Z.mul_nonneg_nonneg; [lia | apply Z.pow_nonneg; lia].
      + rewrite Z.pow_add_r by lia. lia.
    - assert (Hpe : 0 < 2 ^ (- e2)) by (apply pow2_pos; lia).
      split.
      + apply Z.div_pos; lia.
      + replace p with (- e2 + (e2 + p)) at 1 by lia.
        rewrite Z.pow_add_r by (subst p; lia).
        rewrite Z.mul_assoc.
        apply Z.mul_le_mono_nonneg_r; [apply Z.pow_nonneg; lia|].
        rewrite Z.mul_comm. apply Z.mul_div_le. exact Hpe. }
  destruct Hfs as [Hfs0 Hfs1].
  split; [exact Hfs0|].
  assert (H4 : 2 ^ 2 <= 2 ^ p) by (apply Z.pow_le_mono_r; lia).
  change (2 ^ 2) with 4 in H4.
  change (2 ^ 53) with 9007199254740992.
  change (2 ^ 54) with 18014398509481984 in Hv2.
  nia.
Qed.

End F64Division.

(** ** [AudioResampler] *)

Module ResamplerFacts.

Import F64Spec F64Facts AudioResampler.

Lemma typedArrayLength_of_Z (K : Z) :
  0 <= K < 2 ^ 53 -> typedArrayLength (F64.of_Z K) = Ok (Z.to_nat K).
Proof.
  intros [HK0 HK]. assert (HK' : K = 0 \/ 0 < K) by lia.
  destruct HK' as [-> | Hpos]; [reflexivity|].
  destruct (of_Z_exact K (conj Hpos HK)) as (mx & Hx & Hmx & Hdx).
  pose proof (Zdigits2_le K 53 Hpos HK) as Hd.
  pose proof (Zdigits2_pos K Hpos) as Hd0.
  rewrite Hx. unfold typedArrayLength. cbn [F64.truncZ].
  rewrite (floor_scaled_represents mx _ (Zpos mx) (Zdigits2 K - 53)); try lia.
  2:{ rewrite Z.sub_diag, Z.pow_0_r. lia. }
  rewrite Hmx. replace (- (Zdigits2 K - 53)) with (53 - Zdigits2 K) by lia.
  rewrite Z.div_mul by (apply Z.pow_nonzero; lia).
  destruct (Z.leb_spec 0 K); [|lia]. destruct (Z.ltb_spec K (2 ^ 53)); [|lia].
  reflexivity.
Qed.

Lemma typedArrayLength_floor (x : F64.float) (K : Z) :
  F64.floorZ x = Some K -> 0 <= K < 2 ^ 53 ->
  typedArrayLength (F64.floor x) = Ok (Z.to_nat K).
Proof.
  intros Hx HK. destruct x as [s | s | | s m e]; cbn in Hx; try discriminate.
  - injection Hx as <-. reflexivity.
  - injection Hx as Hx. unfold F64.floor. cbn [F64.floorZ]. rewrite Hx.
    destruct K as [|p|p]; [reflexivity | | lia].
    apply typedArrayLength_of_Z. assumption.
Qed.

Lemma exactRatio_spec (cfg : ResamplerConfig) :
  exactRatio cfg = true ->
  exists (m : positive) (e : Z),
    ratioOf cfg = S754_finite false m e
    /\ Zdigits2 (Zpos m) = 53 /\ -1000 <= e <= 0
    /\ sourceSampleRate cfg * 2 ^ (- e) = Zpos m * targetSampleRate cfg.
Proof.
  unfold exactRatio. destruct (ratioOf cfg) as [s | s | | s m e]; try discriminate.
  destruct s; try discriminate. intros H.
  apply andb_prop in H. destruct H as [H H4].
  apply andb_prop in H. destruct H as [H H3].
  apply andb_prop in H. destruct H as [H1 H2].
  apply Z.eqb_eq in H1, H4. apply Z.leb_le in H2, H3.
  exists m, e. repeat split; assumption.
Qed.

(** The length of the output for a pair of rates whose quotient is exact. *)
Lemma resample_exact_ratio (cfg : ResamplerConfig) (samples : list Z) :
  0 < sourceSampleRate cfg -> 0 < targetSampleRate cfg ->
  sourceSampleRate cfg <> targetSampleRate cfg ->
  exactRatio cfg = true ->
  Z.of_nat (length samples) * targetSampleRate cfg <= 2 ^ 52 ->
  resample cfg samples
  = Ok (map (interpolate (ratioOf cfg) samples)
          (seq 0 (Z.to_nat (Z.of_nat (length samples) * targetSampleRate cfg
                            / sourceSampleRate cfg)))).
Proof.
  intros Hsrc Htgt Hne Hexact Hlen.
  destruct (exactRatio_spec cfg Hexact) as (m & e & Hratio & Hdig & He & Hval).
  unfold resample.
  destruct (Z.eqb_spec (sourceSampleRate cfg) (targetSampleRate cfg)) as [Heq | _];
    [contradiction|].
  unfold outputLengthOf. rewrite Hratio.
  set (n := Z.of_nat (length samples)) in *.
  set (K := n * targetSampleRate cfg / sourceSampleRate cfg).
  assert (HK : 0 <= K < 2 ^ 53).
  { split.
    - apply Z.div_pos; nia.
    - apply Z.le_lt_trans with (n * targetSampleRate cfg).
      + apply Z.div_le_upper_bound; nia.
      + change (2 ^ 53) with 9007199254740992.
        change (2 ^ 52) with 4503599627370496 in Hlen. lia. }
  assert (Hfloor : F64.floorZ (F64.div (F64.of_Z n) (S754_finite false m e)) = Some K).
  { assert (Hn : n = 0 \/ 0 < n) by lia. destruct Hn as [Hn0 | Hn].
    - subst K. rewrite Hn0. reflexivity.
    - apply div_of_Z_floor; assumption. }
  rewrite (typedArrayLength_floor _ K Hfloor HK). reflexivity.
Qed.

(** The length of the output in general: the floor of the double
    [length / ratio]. *)
Lemma resample_any_ratio (cfg : ResamplerConfig) (samples : list Z) :
  0 < sourceSampleRate cfg < 2 ^ 53 -> 0 < targetSampleRate cfg < 2 ^ 53 ->
  sourceSampleRate cfg <> targetSampleRate cfg ->
  Z.of_nat (length samples) * targetSampleRate cfg <= 2 ^ 50 ->
  exists K : Z,
    F64.floorZ (F64.div (F64.of_Z (Z.of_nat (length samples))) (ratioOf cfg)) = Some K
    /\ 0 <= K
    /\ resample cfg samples
       = Ok (map (interpolate (ratioOf cfg) samples) (seq 0 (Z.to_nat K))).
Proof.
  intros Hsrc Htgt Hne Hlen.
  destruct (F64Division.length_quotient (Z.of_nat (length samples))
              (sourceSampleRate cfg) (targetSampleRate cfg)
              ltac:(lia) Hsrc Htgt Hlen) as (K & Hfloor & HK).
  exists K. split; [exact Hfloor|]. split; [lia|].
  unfold resample.
  destruct (Z.eqb_spec (sourceSampleRate cfg) (targetSampleRate cfg)) as [Heq | _];
    [contradiction|].
  unfold outputLengthOf, ratioOf.
  rewrite (typedArrayLength_floor _ K Hfloor HK). reflexivity.
Qed.

Lemma length_int16ToBytes (z : Z) : length (int16ToBytes z) = 2%nat.
Proof. reflexivity. Qed.

Lemma length_pcm16ToUint8Array (samples : list Z) :
  length (pcm16ToUint8Array samples) = (2 * length samples)%nat.
Proof.
  unfold pcm16ToUint8Array. induction samples as [|z r IH]; [reflexivity|].
  cbn [flat_map]. rewrite length_app, IH. cbn [length int16ToBytes]. lia.
Qed.

Lemma exactRatio_24000_16000 : exactRatio (createAudioResampler 24000 16000) = true.
Proof. vm_compute. reflexivity. Qed.

End ResamplerFacts.

(** *** C7: resampling between equal rates *)

(** C7.  For every sample array [s] and every rate [r], [resample] with
    [sourceSampleRate = targetSampleRate = r] returns [s] itself. *)
Theorem C7_resample_identity (r : Z) (s : list Z) :
  AudioResampler.resample
    {| AudioResampler.sourceSampleRate := r;
       AudioResampler.targetSampleRate := r |} s = Ok s.
Proof.
  unfold AudioResampler.resample. cbn [AudioResampler.sourceSampleRate
    AudioResampler.targetSampleRate].
  rewrite Z.eqb_refl. reflexivity.
Qed.

(** *** C8: the length of the output *)

(** C8, as stated, fails: from 24000 Hz to 11025 Hz, 960 samples give 440
    samples, while [floor (960 * 11025 / 24000)] is 441.  The double
    [24000 / 11025] is rounded upwards, and [960] divided by it falls just
    below 441. *)
Lemma C8_counterexample :
  AudioResampler.resample Examples.cfg_24000_11025 (repeat 0 960)
  = Ok (repeat 0 440)
  /\ Z.of_nat (length (repeat 0 440)) <> Z.of_nat (length (repeat 0 960)) * 11025 / 24000.
Proof. split; [vm_compute; reflexivity | vm_compute; discriminate]. Qed.

(** C8, amended.  For positive distinct rates: when their quotient is
    computed exactly and the input has at most [2^52 / targetSampleRate]
    samples, the output has
    [floor (length * targetSampleRate / sourceSampleRate)] samples.  In
    general, for rates below [2^53] and an input of at most
    [2^50 / targetSampleRate] samples, [resample] returns an array whose
    length is the floor of the double [length / (sourceSampleRate /
    targetSampleRate)], both divisions being those of doubles. *)
Theorem C8_resample_length (cfg : AudioResampler.ResamplerConfig) (s : list Z) :
  0 < AudioResampler.sourceSampleRate cfg ->
  0 < AudioResampler.targetSampleRate cfg ->
  AudioResampler.sourceSampleRate cfg <> AudioResampler.targetSampleRate cfg ->
  (exactRatio cfg = true ->
   Z.of_nat (length s) * AudioResampler.targetSampleRate cfg <= 2 ^ 52 ->
   exists out,
     AudioResampler.resample cfg s = Ok out
     /\ Z.of_nat (length out)
        = Z.of_nat (length s) * AudioResampler.targetSampleRate cfg
          / AudioResampler.sourceSampleRate cfg)
  /\ (AudioResampler.sourceSampleRate cfg < 2 ^ 53 ->
      AudioResampler.targetSampleRate cfg < 2 ^ 53 ->
      Z.of_nat (length s) * AudioResampler.targetSampleRate cfg <= 2 ^ 50 ->
      exists out,
        AudioResampler.resample cfg s = Ok out
        /\ F64.floorZ
             (F64.div (F64.of_Z (Z.of_nat (length s)))
                (F64.div (F64.of_Z (AudioResampler.sourceSampleRate cfg))
                   (F64.of_Z (AudioResampler.targetSampleRate cfg))))
           = Some (Z.of_nat (length out))).
Proof.
  intros Hsrc Htgt Hne. split.
  - intros Hexact Hlen.
    rewrite (ResamplerFacts.resample_exact_ratio cfg s Hsrc Htgt Hne Hexact Hlen).
    eexists. split; [reflexivity|].
    rewrite length_map, length_seq, Z2Nat.id; [reflexivity|].
    apply Z.div_pos; nia.
  - intros Hsrc53 Htgt53 Hlen.
    destruct (ResamplerFacts.resample_any_ratio cfg s
                (conj Hsrc Hsrc53) (conj Htgt Htgt53) Hne Hlen)
      as (K & Hfloor & HK & Hres).
    rewrite Hres. eexists. split; [reflexivity|].
    rewrite length_map, length_seq, Z2Nat.id by exact HK.
    exact Hfloor.
Qed.

(** The pair of the orchestrator, whose quotient is exact, and two pairs
    whose quotient is not a double: 44100 Hz to 48000 Hz, and 16000 Hz to
    24000 Hz. *)
Lemma C8_resample_length_witness :
  (exists out,
     AudioResampler.resample Examples.cfg_24000_16000 Examples.sevenSamples = Ok out
     /\ Z.of_nat (length out) = 7 * 16000 / 24000)
  /\ (exists out,
        AudioResampler.resample Examples.cfg_44100_48000 (repeat 0 441) = Ok out
        /\ Some 480 = Some (Z.of_nat (length out)))
  /\ (exists out,
        AudioResampler.resample Examples.cfg_16000_24000 Examples.sevenSamples = Ok out
        /\ Some 10 = Some (Z.of_nat (length out))).
Proof.
  split; [|split].
  - apply (C8_resample_length Examples.cfg_24000_16000 Examples.sevenSamples).
    + reflexivity.
    + reflexivity.
    + discriminate.
    + vm_compute. reflexivity.
    + vm_compute. discriminate.
  - destruct (proj2 (C8_resample_length Examples.cfg_44100_48000 (repeat 0 441)
                       eq_refl eq_refl ltac:(discriminate))
                eq_refl eq_refl ltac:(vm_compute; discriminate))
      as (out & Hout & Hlen).
    exists out. split; [exact Hout|]. rewrite <- Hlen. vm_compute. reflexivity.
  - destruct (proj2 (C8_resample_length Examples.cfg_16000_24000 Examples.sevenSamples
                       eq_refl eq_refl ltac:(discriminate))
                eq_refl eq_refl ltac:(vm_compute; discriminate))
      as (out & Hout & Hlen).
    exists out. split; [exact Hout|]. rewrite <- Hlen. vm_compute. reflexivity.
Defined.

(** ** [AudioCapture.convertToPCM16] *)

Module CaptureFacts.

Import F64Spec F64Facts AudioCapture.

Lemma valid_finite_digits (s : bool) (m : positive) (e : Z) :
  F64.valid (S754_finite s m e) = true -> Zpos m < 2 ^ 53.
Proof.
  unfold F64.valid. cbn [valid_binary]. unfold bounded, canonical_mantissa.
  intros H. apply andb_prop in H. destruct H as [H _]. apply Z.eqb_eq in H.
  change (Zpos (digits2_pos m)) with (Zdigits2 (Zpos m)) in H.
  rewrite fexp_eq in H.
  pose proof (Zdigits2_spec (Zpos m) ltac:(lia)) as [_ Hhi].
  assert (Hd : Zdigits2 (Zpos m) <= 53) by lia.
  assert (2 ^ Zdigits2 (Zpos m) <= 2 ^ 53) by (apply Z.pow_le_mono_r; lia).
  lia.
Qed.

(** After the clamp a sample is NaN, a zero, or of magnitude at most one. *)
Lemma clamp_cases (x : F64.float) :
  F64.valid x = true ->
  let c := F64.max (F64.of_Z (-1)) (F64.min (F64.of_Z 1) x) in
  c = S754_nan
  \/ (exists s, c = S754_zero s)
  \/ (exists s m e, c = S754_finite s m e /\ e <= 0 /\ Zpos m <= 2 ^ (- e)).
Proof.
  intros Hv c. subst c.
  change (F64.of_Z 1) with (S754_finite false 4503599627370496 (-52)).
  change (F64.of_Z (-1)) with (S754_finite true 4503599627370496 (-52)).
  assert (Hone : forall s, exists s' m e,
             S754_finite s 4503599627370496 (-52) = S754_finite s' m e
             /\ e <= 0 /\ Zpos m <= 2 ^ (- e)).
  { intros s. exists s, 4503599627370496%positive, (-52).
    split; [reflexivity|]. split; [clear; lia | vm_compute; discriminate]. }
  destruct x as [s | s | | s m e].
  - right. left. exists s. destruct s; reflexivity.
  - right. right. destruct s; [apply (Hone true) | apply (Hone false)].
  - left. reflexivity.
  - pose proof (valid_finite_digits s m e Hv) as Hm.
    assert (Hsmall : e < -52 -> Zpos m <= 2 ^ (- e)).
    { intros He.
      assert (H53 : 2 ^ 53 <= 2 ^ (- e)) by (apply Z.pow_le_mono_r; clear - He; lia).
      apply Z.lt_le_incl. apply Z.lt_le_trans with (2 ^ 53); assumption. }
    right. right. unfold F64.min, F64.max. destruct s; cbn [SFcompare].
    + (* a negative sample *)
      change (Pos.compare_cont Eq 4503599627370496 m)
        with (Pos.compare 4503599627370496 m).
      destruct (Z.compare_spec (-52) e) as [He | He | He].
      * subst e. destruct (Pos.compare_spec 4503599627370496 m) as [Hc | Hc | Hc];
          cbn [CompOpp]; try apply (Hone true).
        exists true, m, (-52). split; [reflexivity|]. split; [clear; lia|].
        change (2 ^ (- -52)) with 4503599627370496.
        apply Z.lt_le_incl. exact Hc.
      * apply (Hone true).
      * exists true, m, e. split; [reflexivity|]. split; [clear - He; lia|].
        apply Hsmall. clear - He. lia.
    + (* a positive sample *)
      change (Pos.compare_cont Eq 4503599627370496 m)
        with (Pos.compare 4503599627370496 m).
      destruct (Z.compare_spec (-52) e) as [He | He | He].
      * subst e. destruct (Pos.compare_spec 4503599627370496 m) as [Hc | Hc | Hc];
          cbn [SFcompare]; try apply (Hone false).
        exists false, m, (-52). split; [reflexivity|]. split; [clear; lia|].
        change (2 ^ (- -52)) with 4503599627370496.
        apply Z.lt_le_incl. exact Hc.
      * cbn [SFcompare]. apply (Hone false).
      * cbn [SFcompare]. exists false, m, e. split; [reflexivity|].
        split; [clear - He; lia|]. apply Hsmall. clear - He. lia.
Qed.

(** The number handed to [setInt16] truncates into the 16-bit range. *)
Lemma scaleSample_range (x : F64.float) :
  F64.valid x = true ->
  match F64.truncZ (scaleSample x) with
  | Some z => -32768 <= z <= 32767
  | None => True
  end.
Proof.
  intros Hv. unfold scaleSample.
  destruct (clamp_cases x Hv) as [Hc | [[s Hc] | (s & m & e & Hc & He & Hm)]];
    rewrite Hc.
  - exact I.
  - destruct s; vm_compute; split; discriminate.
  - change (F64.of_Z 0) with (S754_zero false).
    change (F64.of_Z 32768) with (S754_finite false 4503599627370496 (-37)).
    change (F64.of_Z 32767) with (S754_finite false 9006924376834048 (-38)).
    replace (F64.ltb (S754_finite s m e) (S754_zero false)) with s
      by (destruct s; reflexivity).
    destruct s.
    + destruct (mul_unit_bound true m 4503599627370496 e (-37) 32768 He Hm)
        as (z & Hz & Hr); try (vm_compute; (reflexivity || split; discriminate)).
      unfold F64.mul. rewrite Hz. lia.
    + destruct (mul_unit_bound false m 9006924376834048 e (-38) 32767 He Hm)
        as (z & Hz & Hr); try (vm_compute; (reflexivity || split; discriminate)).
      unfold F64.mul. rewrite Hz. lia.
Qed.

Lemma wrapInt16_range (z : Z) : -32768 <= wrapInt16 z <= 32767.
Proof. unfold wrapInt16. pose proof (Z.mod_pos_bound (z + 32768) 65536). lia. Qed.

Lemma wrapInt16_small (z : Z) : -32768 <= z <= 32767 -> wrapInt16 z = z.
Proof. intros H. unfold wrapInt16. rewrite Z.mod_small; lia. Qed.

Lemma byteToZ_byteOfZ (z : Z) : byteToZ (byteOfZ z) = z mod 256.
Proof.
  unfold byteToZ, byteOfZ.
  pose proof (Z.mod_pos_bound z 256 ltac:(lia)) as Hb.
  destruct (Byte.of_N (Z.to_N (z mod 256))) as [b|] eqn:Hof.
  - apply Byte.to_of_N in Hof. rewrite Hof. lia.
  - apply Byte.of_N_None_iff in Hof. lia.
Qed.

(** Reading back the two bytes written for [z] gives [z] wrapped. *)
Lemma int16OfBytes_int16ToBytes (z : Z) (rest : list byte) :
  int16sOfBytes (int16ToBytes z ++ rest) = wrapInt16 z :: int16sOfBytes rest.
Proof.
  unfold int16ToBytes. cbn [app int16sOfBytes]. f_equal.
  unfold int16OfBytes. rewrite !byteToZ_byteOfZ.
  pose proof (Z.mod_pos_bound z 65536 ltac:(lia)) as Hu.
  set (u := z mod 65536) in *.
  assert (Hdec : u mod 256 + 256 * (u / 256 mod 256) = u).
  { rewrite (Z.mod_small (u / 256)).
    - pose proof (Z.div_mod u 256 ltac:(lia)). lia.
    - split; [apply Z.div_pos; lia | apply Z.div_lt_upper_bound; lia]. }
  rewrite Hdec. unfold wrapInt16, u.
  rewrite Zplus_mod_idemp_l. reflexivity.
Qed.

End CaptureFacts.

(** C10.  For every input array of numbers, [convertToPCM16] produces two
    bytes per sample; each pair of bytes holds the truncation of the clamped
    and scaled sample, which lies within [-32768, 32767] before it is stored,
    so that the store never wraps; [-1] becomes [-32768] and [+1] becomes
    [32767]. *)
Theorem C10_convertToPCM16_range (float32Array : list F64.float) :
  Forall (fun x => F64.valid x = true) float32Array ->
  length (AudioCapture.convertToPCM16 float32Array) = (2 * length float32Array)%nat
  /\ int16sOfBytes (AudioCapture.convertToPCM16 float32Array)
     = map (fun x => toInt16 (AudioCapture.scaleSample x)) float32Array
  /\ Forall (fun x =>
               -32768 <= toInt16 (AudioCapture.scaleSample x) <= 32767
               /\ (forall z, F64.truncZ (AudioCapture.scaleSample x) = Some z ->
                             -32768 <= z <= 32767
                             /\ toInt16 (AudioCapture.scaleSample x) = z))
            float32Array
  /\ toInt16 (AudioCapture.scaleSample (F64.of_Z (-1))) = -32768
  /\ toInt16 (AudioCapture.scaleSample (F64.of_Z 1)) = 32767.
Proof.
  intros Hvalid. unfold AudioCapture.convertToPCM16.
  repeat split.
  - induction float32Array as [|x r IH]; [reflexivity|].
    cbn [flat_map]. rewrite length_app, IH by (inversion Hvalid; assumption).
    cbn [length int16ToBytes]. lia.
  - induction float32Array as [|x r IH]; [reflexivity|].
    cbn [flat_map map]. rewrite CaptureFacts.int16OfBytes_int16ToBytes.
    rewrite IH by (inversion Hvalid; assumption). f_equal.
    apply CaptureFacts.wrapInt16_small. unfold toInt16.
    destruct (F64.truncZ (AudioCapture.scaleSample x));
      [apply CaptureFacts.wrapInt16_range | lia].
  - apply Forall_forall. intros x Hx.
    rewrite Forall_forall in Hvalid. specialize (Hvalid x Hx).
    pose proof (CaptureFacts.scaleSample_range x Hvalid) as Hr.
    unfold toInt16. destruct (F64.truncZ (AudioCapture.scaleSample x)) as [z|].
    + split; [apply CaptureFacts.wrapInt16_range|].
      intros z' Hz'. injection Hz' as <-. split; [assumption|].
      apply CaptureFacts.wrapInt16_small. assumption.
    + split; [lia | discriminate].
Qed.

Lemma C10_convertToPCM16_range_witness :
  length (AudioCapture.convertToPCM16 Examples.fiveFloats) = 10%nat
  /\ int16sOfBytes (AudioCapture.convertToPCM16 Examples.fiveFloats)
     = [32767; -32768; 16383; 32767; 0].
Proof.
  destruct (C10_convertToPCM16_range Examples.fiveFloats) as (Hlen & Hdec & _).
  - repeat constructor.
  - split; [exact Hlen | rewrite Hdec; vm_compute; reflexivity].
Defined.

(** ** [SessionManager] *)

Module SessionFacts.

Import SessionManager.

Lemma set_audioCapture_same (sm : t) : set_audioCapture (audioCapture sm) sm = sm.
Proof. destruct sm; reflexivity. Qed.

Lemma sendAudioData_cases (data : list byte) (c : OpenAIRealtimeClient.t) :
  OpenAIRealtimeClient.sendAudioData data c = []
  \/ OpenAIRealtimeClient.sendAudioData data c
     = [OpenAIRealtimeClient.send
          (OpenAIRealtimeClient.input_audio_buffer_append
             (OpenAIRealtimeClient.arrayBufferToBase64 data))].
Proof.
  unfold OpenAIRealtimeClient.sendAudioData, OpenAIRealtimeClient.sendMessage.
  destruct (negb (OpenAIRealtimeClient.isConnected c)
            || negb (OpenAIRealtimeClient.isOpen c)); [left; reflexivity|].
  destruct (OpenAIRealtimeClient.isOpen c); [right | left]; reflexivity.
Qed.

(** *** Methods that keep the connection state *)

Lemma keepsState_ret {A : Type} (a : A) : keepsState (ret a).
Proof. intros sm. reflexivity. Qed.

Lemma keepsState_throw {A : Type} (e : JsError) : keepsState (@throw A e).
Proof. intros sm. reflexivity. Qed.

Lemma keepsState_get : keepsState get.
Proof. intros sm. reflexivity. Qed.

Lemma keepsState_out (o : list Output) : keepsState (out o).
Proof. intros sm. reflexivity. Qed.

Lemma keepsState_modify (f : t -> t) :
  (forall sm, state (f sm) = state sm) -> keepsState (modify f).
Proof. intros Hf sm. apply Hf. Qed.

Lemma keepsState_bind {A B : Type} (m : M A) (k : A -> M B) :
  keepsState m -> (forall a, keepsState (k a)) -> keepsState (bind m k).
Proof.
  intros Hm Hk sm. unfold stateAfter, bind.
  specialize (Hm sm). unfold stateAfter in Hm.
  destruct (m sm) as [[r sm1] o1]. cbn [fst snd] in *.
  destruct r as [a | e |]; cbn [fst snd]; try assumption.
  specialize (Hk a sm1). unfold stateAfter in Hk.
  destruct (k a sm1) as [[r2 sm2] o2]. cbn [fst snd] in *. congruence.
Qed.

Lemma keepsState_tryCatch {A : Type} (m : M A) (h : JsError -> M A) :
  keepsState m -> (forall e, keepsState (h e)) -> keepsState (tryCatch m h).
Proof.
  intros Hm Hh sm. unfold stateAfter, tryCatch.
  specialize (Hm sm). unfold stateAfter in Hm.
  destruct (m sm) as [[r sm1] o1]. cbn [fst snd] in *.
  destruct r as [a | e |]; cbn [fst snd]; try assumption.
  specialize (Hh e sm1). unfold stateAfter in Hh.
  destruct (h e sm1) as [[r2 sm2] o2]. cbn [fst snd] in *. congruence.
Qed.

Lemma keepsState_when (b : bool) (m : M unit) :
  keepsState m -> keepsState (when b m).
Proof. intros Hm. destruct b; [assumption | apply keepsState_ret]. Qed.

Lemma keepsState_forEach {A : Type} (l : list A) (f : A -> M unit) :
  (forall a, keepsState (f a)) -> keepsState (forEach l f).
Proof.
  intros Hf. induction l as [|a r IH]; cbn [forEach].
  - apply keepsState_ret.
  - apply keepsState_bind; [apply Hf | intros _; exact IH].
Qed.

Lemma keepsState_pending {A : Type} :
  keepsState (fun sm : t => (@Pending A, sm, @nil Output)).
Proof. intros sm. reflexivity. Qed.

Create HintDb keeps.
#[local] Hint Resolve keepsState_ret keepsState_throw keepsState_get keepsState_out
  keepsState_bind keepsState_tryCatch keepsState_when keepsState_forEach
  keepsState_pending : keeps.

Lemma keepsState_emitStatus (c : Category.t) (m : string) (l : Level.t) :
  keepsState (emitStatus c m l).
Proof. unfold emitStatus. auto with keeps. Qed.

Lemma keepsState_onSimliOutput (o : SimliClient.Output) : keepsState (onSimliOutput o).
Proof. destruct o; cbn [onSimliOutput]; auto with keeps. Qed.

#[local] Hint Resolve keepsState_emitStatus keepsState_onSimliOutput : keeps.
#[local] Hint Extern 1 (keepsState (modify _)) =>
  (apply keepsState_modify; intros []; reflexivity) : keeps.

Lemma keepsState_fetchKey (q : KeyQuery) (notFound : string) :
  keepsState (fetchKey q notFound).
Proof.
  unfold fetchKey. destruct (queryError q); [auto with keeps|].
  destruct (truthy (key_value q)); auto with keeps.
Qed.

#[local] Hint Resolve keepsState_fetchKey : keeps.

Lemma keepsState_loadApiKeys (env : Env) : keepsState (loadApiKeys env).
Proof.
  unfold loadApiKeys.
  apply keepsState_tryCatch; [|auto with keeps].
  repeat (apply keepsState_bind; [auto with keeps | intros ?]).
  auto with keeps.
Qed.

Lemma keepsState_createAndStartSimli (env : Env) (key : string) :
  keepsState (createAndStartSimli env key).
Proof.
  unfold createAndStartSimli.
  apply keepsState_bind; [auto with keeps | intros sm].
  destruct (negb (VideoHandler.getVideoElement (videoHandler sm))); [auto with keeps|].
  destruct (SimliClient.new _ _) as [c counter].
  destruct (SimliClient.start (simliStart env) c) as [[r c'] o].
  repeat (apply keepsState_bind; [auto with keeps | intros _]).
  destruct r; auto with keeps.
Qed.

Lemma keepsState_connectSimliPreview (env : Env) : keepsState (connectSimliPreview env).
Proof.
  unfold connectSimliPreview.
  apply keepsState_bind; [auto with keeps | intros sm].
  destruct (truthy (simliApiKey sm)); [apply keepsState_createAndStartSimli | auto with keeps].
Qed.

Lemma keepsState_startPreview (env : Env) : keepsState (startPreview env).
Proof.
  unfold startPreview.
  apply keepsState_tryCatch; [|auto with keeps].
  pose proof (keepsState_loadApiKeys env).
  pose proof (keepsState_connectSimliPreview env).
  repeat (apply keepsState_bind; [auto with keeps | intros _]).
  auto with keeps.
Qed.

Lemma emitCapture_nil (sm : t) : emitCapture [] sm = (Ok tt, sm, []).
Proof.
  unfold emitCapture, bind, get, when. cbn [fst snd].
  destruct (AudioCapture.listening (audioCapture sm)); reflexivity.
Qed.

(** *** [endSession] *)

Lemma endSession_spec (sm : t) :
  resultOf endSession sm = Ok tt /\ stateAfter endSession sm = afterEndSession sm.
Proof.
  unfold resultOf, stateAfter, afterEndSession.
  destruct sm as [oc sc ac vh sid st cfg ok sk pt ar sent lastLog counter].
  unfold endSession, emitCapture, setState, emitStatus, bind, get, modify, out, when.
  cbn [fst snd audioCapture openaiClient simliClient set_state set_audioCapture
       state videoHandler sessionId config openaiApiKey simliApiKey previewTimeout
       audioResampler audioChunksSent lastAudioLogTime simliClientInstanceCounter].
  destruct ac as [li a1 a2 a3 a4 a5 acfg cap muted lv vc].
  destruct li; destruct cap;
    (destruct oc as [c|]; [destruct (OpenAIRealtimeClient.ws c) eqn:Hws | ]);
    destruct sc as [s|];
    try (destruct (SimliClient.audioElement s) eqn:Hae; destruct (SimliClient.client s) eqn:Hcl);
    unfold OpenAIRealtimeClient.disconnect, SimliClient.disconnect, SimliClient.close,
      SimliClient.stopAudio, SimliClient.withAudioElement, SimliClient.status;
    cbn; rewrite ?Hws, ?Hae, ?Hcl; cbn; rewrite ?Hcl; cbn; split; reflexivity.
Qed.

Lemma afterEndSession_idem (sm : t) :
  afterEndSession (afterEndSession sm) = afterEndSession sm.
Proof.
  destruct sm as [oc sc ac vh sid st cfg ok sk pt ar sent lastLog counter].
  unfold afterEndSession. cbn [audioCapture videoHandler config openaiApiKey simliApiKey
    previewTimeout audioResampler audioChunksSent lastAudioLogTime
    simliClientInstanceCounter].
  destruct ac as [li a1 a2 a3 a4 a5 acfg cap muted lv vc].
  destruct cap; reflexivity.
Qed.

End SessionFacts.

(** *** C5: the guard of [startSession], and [endSession] *)

(** C5.  [startSession] called in a state other than [connected] and [ready]
    rejects and leaves the manager as it was, emitting nothing;
    [endSession] always resolves and leaves the state [idle], and a second
    [endSession] changes nothing more. *)
Theorem C5_startSession_guard_endSession_idle
    (env : SessionManager.Env) (sm : SessionManager.t) :
  (SessionManager.state sm <> ConnectionState.connected ->
   SessionManager.state sm <> ConnectionState.ready ->
   SessionManager.startSession env sm
   = (Throw (Error "Not connected to services"), sm, []))
  /\ resultOf SessionManager.endSession sm = Ok tt
  /\ SessionManager.state (stateAfter SessionManager.endSession sm)
     = ConnectionState.idle
  /\ stateAfter SessionManager.endSession (stateAfter SessionManager.endSession sm)
     = stateAfter SessionManager.endSession sm.
Proof.
  split; [|split; [|split]].
  - intros Hc Hr. unfold SessionManager.startSession, SessionManager.bind,
      SessionManager.get, SessionManager.throw.
    destruct (SessionManager.state sm); try contradiction; reflexivity.
  - apply SessionFacts.endSession_spec.
  - rewrite (proj2 (SessionFacts.endSession_spec sm)). reflexivity.
  - rewrite !(proj2 (SessionFacts.endSession_spec _)).
    apply SessionFacts.afterEndSession_idem.
Qed.

Lemma C5_startSession_guard_endSession_idle_witness :
  SessionManager.startSession Examples.env0 Examples.fresh
  = (Throw (Error "Not connected to services"), Examples.fresh, [])
  /\ SessionManager.state (stateAfter SessionManager.endSession Examples.activeManager)
     = ConnectionState.idle.
Proof.
  split.
  - apply (proj1 (C5_startSession_guard_endSession_idle Examples.env0 Examples.fresh));
      discriminate.
  - apply (C5_startSession_guard_endSession_idle Examples.env0 Examples.activeManager).
Defined.

(** *** C3: [initialize] without the OpenAI credential *)

(** C3, as stated, fails: with the OpenAI key absent from the credential
    store, [initialize] rejects, but the state it leaves is [connecting],
    neither [idle] nor [error]. *)
Lemma C3_counterexample :
  resultOf (SessionManager.initialize Examples.envNoOpenAIKey) Examples.fresh
  = Throw (Error "Failed to load API keys: OpenAI API key not found in database")
  /\ SessionManager.state
       (stateAfter (SessionManager.initialize Examples.envNoOpenAIKey) Examples.fresh)
     <> ConnectionState.idle
  /\ SessionManager.state
       (stateAfter (SessionManager.initialize Examples.envNoOpenAIKey) Examples.fresh)
     <> ConnectionState.error.
Proof. repeat split; vm_compute; discriminate || reflexivity. Qed.

(** C3, amended.  With the OpenAI key absent, [initialize] rejects with the
    configuration error of [loadApiKeys] and leaves the state [connecting],
    the value it set before it read the credentials; the clients are
    untouched, and the state is [idle] again once [endSession] has run. *)
Theorem C3_initialize_without_openai_key
    (env : SessionManager.Env) (sm : SessionManager.t) :
  SessionManager.queryError (SessionManager.openaiKeyQuery env) = None ->
  SessionManager.truthy (SessionManager.key_value (SessionManager.openaiKeyQuery env))
  = None ->
  resultOf (SessionManager.initialize env) sm
  = Throw (Error "Failed to load API keys: OpenAI API key not found in database")
  /\ SessionManager.state (stateAfter (SessionManager.initialize env) sm)
     = ConnectionState.connecting
  /\ SessionManager.openaiClient (stateAfter (SessionManager.initialize env) sm)
     = SessionManager.openaiClient sm
  /\ SessionManager.simliClient (stateAfter (SessionManager.initialize env) sm)
     = SessionManager.simliClient sm
  /\ SessionManager.state
       (stateAfter SessionManager.endSession
          (stateAfter (SessionManager.initialize env) sm))
     = ConnectionState.idle.
Proof.
  intros Herr Hkey.
  assert (H : resultOf (SessionManager.initialize env) sm
              = Throw (Error "Failed to load API keys: OpenAI API key not found in database")
              /\ stateAfter (SessionManager.initialize env) sm
                 = SessionManager.set_previewTimeout None
                     (SessionManager.set_state ConnectionState.connecting sm)).
  { unfold resultOf, stateAfter, SessionManager.initialize, SessionManager.loadApiKeys,
      SessionManager.fetchKey, SessionManager.clearPreviewTimeout,
      SessionManager.setState, SessionManager.emitStatus, SessionManager.tryCatch,
      SessionManager.bind, SessionManager.get, SessionManager.modify,
      SessionManager.out, SessionManager.throw.
    rewrite Herr, Hkey.
    destruct sm as [oc sc ac vh sid st cfg ok sk pt ar sent lastLog counter].
    destruct pt; cbn; split; reflexivity. }
  destruct H as [Hres Hst]. rewrite Hst.
  repeat split; try assumption;
    try (destruct sm; reflexivity).
  rewrite (proj2 (SessionFacts.endSession_spec _)). reflexivity.
Qed.

Lemma C3_initialize_without_openai_key_witness :
  resultOf (SessionManager.initialize Examples.envNoOpenAIKey) Examples.fresh
  = Throw (Error "Failed to load API keys: OpenAI API key not found in database")
  /\ SessionManager.state
       (stateAfter (SessionManager.initialize Examples.envNoOpenAIKey) Examples.fresh)
     = ConnectionState.connecting.
Proof.
  destruct (C3_initialize_without_openai_key Examples.envNoOpenAIKey Examples.fresh)
    as (H1 & H2 & _); [reflexivity | reflexivity |].
  split; assumption.
Defined.

(** *** C2: the idle timer of the preview *)

(** C2, evaluated on the code.  A preview started from the state [idle]
    leaves the state [idle]; the callback of its five-minute timer acts only
    in the state [connected], so when it fires it does nothing: the avatar
    client is neither closed nor released. *)
Theorem C2_preview_timer_does_nothing
    (env : SessionManager.Env) (sm : SessionManager.t) :
  SessionManager.state sm = ConnectionState.idle ->
  SessionManager.state (stateAfter (SessionManager.startPreview env) sm)
  = ConnectionState.idle
  /\ SessionManager.previewTimeoutCallback
       (stateAfter (SessionManager.startPreview env) sm)
     = (Ok tt, stateAfter (SessionManager.startPreview env) sm, []).
Proof.
  intros Hidle.
  pose proof (SessionFacts.keepsState_startPreview env sm) as Hkeep.
  rewrite Hidle in Hkeep. split; [assumption|].
  unfold SessionManager.previewTimeoutCallback, SessionManager.bind, SessionManager.get.
  cbn [fst snd]. rewrite Hkeep. cbn [ConnectionState.eqb].
  rewrite andb_false_r. reflexivity.
Qed.

Lemma C2_preview_timer_does_nothing_witness :
  option_map SimliClient.isConnected (SessionManager.simliClient Examples.previewManager)
  = Some true
  /\ SessionManager.previewTimeout Examples.previewManager = Some 1
  /\ SessionManager.previewTimeoutCallback Examples.previewManager
     = (Ok tt, Examples.previewManager, []).
Proof.
  split; [reflexivity|]. split; [reflexivity|].
  apply (C2_preview_timer_does_nothing Examples.env0 Examples.fresh). reflexivity.
Defined.

(** *** C6: the socket of the speech client closing *)

(** C6, as stated, fails: on a close with the normal code 1000 the client
    still emits [disconnected], and the manager reports it with a status of
    level [error] and emits [disconnected] in turn. *)
Lemma C6_counterexample :
  outputsOf (SessionManager.onOpenAIClose SessionManager.held 1000 "")
    Examples.activeManager
  = [SessionManager.emit
       (SessionManager.status
          {| category := Category.openai; message := "disconnected from OpenAI";
             level := Level.warning |});
     SessionManager.emit
       (SessionManager.status
          {| category := Category.error; message := "OpenAI disconnected";
             level := Level.error |});
     SessionManager.emit SessionManager.disconnected].
Proof. vm_compute. reflexivity. Qed.

(** C6, amended.  Whatever the close code and whatever the state of the
    client, [ws.onclose] marks the client disconnected and emits one status
    message, of level [warning] for the code 1000 and of level [error] for
    every other code, and then [disconnected].  The manager answers every
    [disconnected] with a status of level [error] and its own
    [disconnected], and keeps its state: so it does for a client it has
    released (the normal close that follows [endSession] or [destroy]
    arrives then), in which case its fields are all left as they are, and
    so it does for the client it holds, which it keeps holding. *)
Theorem C6_close_always_reported
    (code : Z) (reason : string) (sm : SessionManager.t) :
  level (closeStatus code reason)
  = (if code =? 1000 then Level.warning else Level.error)
  /\ (forall c : OpenAIRealtimeClient.t,
        OpenAIRealtimeClient.isConnected
          (fst (fst (OpenAIRealtimeClient.onclose code reason c))) = false
        /\ snd (fst (OpenAIRealtimeClient.onclose code reason c))
           = [OpenAIRealtimeClient.emit
                (OpenAIRealtimeClient.status (closeStatus code reason));
              OpenAIRealtimeClient.emit OpenAIRealtimeClient.disconnected]
        /\ SessionManager.onOpenAIClose (SessionManager.released c) code reason sm
           = (Ok tt, sm, closeReport code reason))
  /\ (forall c : OpenAIRealtimeClient.t,
        SessionManager.openaiClient sm = Some c ->
        resultOf (SessionManager.onOpenAIClose SessionManager.held code reason) sm
        = Ok tt
        /\ outputsOf (SessionManager.onOpenAIClose SessionManager.held code reason) sm
           = closeReport code reason
        /\ stateAfter (SessionManager.onOpenAIClose SessionManager.held code reason) sm
           = SessionManager.set_openaiClient
               (Some (fst (fst (OpenAIRealtimeClient.onclose code reason c)))) sm
        /\ SessionManager.state
             (stateAfter (SessionManager.onOpenAIClose SessionManager.held code reason) sm)
           = SessionManager.state sm).
Proof.
  split; [reflexivity|]. split.
  - intros c. split; [reflexivity|]. split; [reflexivity|].
    destruct sm as [oc sc ac vh sid st cfg ok sk pt ar sent lastLog counter].
    reflexivity.
  - intros c Hc.
    unfold resultOf, outputsOf, stateAfter, SessionManager.onOpenAIClose,
      SessionManager.bind, SessionManager.get.
    cbn [fst snd]. rewrite Hc.
    destruct sm as [oc sc ac vh sid st cfg ok sk pt ar sent lastLog counter].
    repeat split.
Qed.

(** The close of a held socket with the code 1006, and the normal close that
    arrives after [endSession] has disconnected and released the client. *)
Lemma C6_close_always_reported_witness :
  outputsOf (SessionManager.onOpenAIClose SessionManager.held 1006 "")
    Examples.activeManager
  = closeReport 1006 ""
  /\ SessionManager.openaiClient
       (stateAfter SessionManager.endSession Examples.activeManager) = None
  /\ SessionManager.onOpenAIClose
       (SessionManager.released (fst (OpenAIRealtimeClient.disconnect Examples.heldClient)))
       1000 "" (stateAfter SessionManager.endSession Examples.activeManager)
     = (Ok tt, stateAfter SessionManager.endSession Examples.activeManager,
        closeReport 1000 "").
Proof.
  split; [|split].
  - eapply (C6_close_always_reported 1006 "" Examples.activeManager).
    vm_compute. reflexivity.
  - vm_compute. reflexivity.
  - apply (C6_close_always_reported 1000 ""
             (stateAfter SessionManager.endSession Examples.activeManager)).
Defined.

(** *** C1: frames captured while muted *)

(** C1, as stated, fails: while the pipeline is muted, a captured frame
    produces no [audio] event at all (and no [voiceDetected] event), although
    its voice activity is positive. *)
Lemma C1_counterexample :
  AudioCapture.isCapturing (SessionManager.audioCapture Examples.mutedManager) = true
  /\ AudioCapture.detectVoiceActivity Examples.loudWaveform
       (SessionManager.audioCapture Examples.mutedManager) = true
  /\ AudioCapture.processAudio 5000 Examples.fiveFloats Examples.loudWaveform
       (SessionManager.audioCapture Examples.mutedManager)
     = (SessionManager.audioCapture Examples.mutedManager, []).
Proof. repeat split; vm_compute; reflexivity. Qed.

(** C1, amended.  For a frame captured by a running pipeline: while muted,
    [processAudio] emits nothing, so the manager forwards nothing to the
    speech client and reports no audio level; while not muted, it emits
    exactly one [audio] event, with the PCM bytes of the frame, the time and
    the voice-activity flag.  The listener of the manager never looks at the
    mute flag: what it does with an [audio] event is the same muted or
    not. *)
Theorem C1_mute_withholds_the_event
    (sm : SessionManager.t) (now : Z) (inputData : list F64.float)
    (timeDomain : list Z) :
  AudioCapture.isCapturing (SessionManager.audioCapture sm) = true ->
  AudioCapture.analyser (SessionManager.audioCapture sm) = true ->
  (AudioCapture.isMuted (SessionManager.audioCapture sm) = true ->
   AudioCapture.processAudio now inputData timeDomain (SessionManager.audioCapture sm)
   = (SessionManager.audioCapture sm, [])
   /\ SessionManager.captureFrame now inputData timeDomain sm = (Ok tt, sm, []))
  /\ (AudioCapture.isMuted (SessionManager.audioCapture sm) = false ->
      filter SessionManager.isAudioEvent
        (snd (AudioCapture.processAudio now inputData timeDomain
                (SessionManager.audioCapture sm)))
      = [AudioCapture.audio (AudioCapture.convertToPCM16 inputData) now
           (AudioCapture.detectVoiceActivity timeDomain
              (SessionManager.audioCapture sm))])
  /\ (forall (data : list byte) (voiceActivity muted : bool),
        outputsOf (SessionManager.onAudio now data voiceActivity)
          (SessionManager.set_audioCapture
             (AudioCapture.setMuted muted (SessionManager.audioCapture sm)) sm)
        = outputsOf (SessionManager.onAudio now data voiceActivity) sm).
Proof.
  intros Hcap Han. split; [|split].
  - intros Hmuted.
    assert (Hp : AudioCapture.processAudio now inputData timeDomain
                   (SessionManager.audioCapture sm)
                 = (SessionManager.audioCapture sm, [])).
    { unfold AudioCapture.processAudio. rewrite Hcap, Han, Hmuted.
      cbn [negb orb andb]. rewrite andb_false_r. reflexivity. }
    split; [assumption|].
    unfold SessionManager.captureFrame, SessionManager.bind, SessionManager.get,
      SessionManager.modify.
    cbn [fst snd]. rewrite Hp. cbn [SessionManager.forEach SessionManager.ret fst snd app].
    rewrite SessionFacts.set_audioCapture_same, SessionFacts.emitCapture_nil.
    reflexivity.
  - intros Hmuted. unfold AudioCapture.processAudio. rewrite Hcap, Han, Hmuted.
    cbn [negb orb]. rewrite andb_true_r.
    destruct (AudioCapture.detectVoiceActivity timeDomain (SessionManager.audioCapture sm));
      reflexivity.
  - intros data voiceActivity muted.
    destruct sm as [oc sc ac vh sid st cfg ok sk pt ar sent lastLog counter].
    unfold outputsOf, SessionManager.onAudio, SessionManager.bind, SessionManager.get.
    cbn [fst snd SessionManager.state SessionManager.openaiClient
         SessionManager.set_audioCapture SessionManager.lastAudioLogTime
         SessionManager.audioChunksSent].
    destruct voiceActivity;
      (destruct (ConnectionState.eqb st ConnectionState.active); [|reflexivity]);
      (destruct oc as [c|]; [|reflexivity]);
      destruct (SessionFacts.sendAudioData_cases data c) as [-> | ->];
      destruct (now - lastLog >? 2000); reflexivity.
Qed.

Lemma C1_mute_withholds_the_event_witness :
  SessionManager.captureFrame 5000 Examples.fiveFloats Examples.loudWaveform
    Examples.mutedManager
  = (Ok tt, Examples.mutedManager, []).
Proof.
  apply (C1_mute_withholds_the_event Examples.mutedManager 5000 Examples.fiveFloats
           Examples.loudWaveform); reflexivity.
Defined.

(** *** [atob] after [btoa] *)

Module Base64Facts.

Import Base64.

Lemma triple_ind (P : list byte -> Prop) :
  P [] -> (forall a, P [a]) -> (forall a b, P [a; b]) ->
  (forall a b c r, P r -> P (a :: b :: c :: r)) ->
  forall l, P l.
Proof.
  intros H0 H1 H2 H3.
  assert (H : forall n l, (length l <= n)%nat -> P l).
  { induction n as [|n IH]; intros [|a [|b [|c r]]] Hl; cbn [length] in Hl;
      auto; try lia.
    apply H3. apply IH. lia. }
  intros l. apply (H (length l)). lia.
Qed.

Lemma byteToZ_range (b : byte) : 0 <= byteToZ b < 256.
Proof. unfold byteToZ. pose proof (Byte.to_N_bounded b). lia. Qed.

Lemma byteOfZ_of_mod (z : Z) (b : byte) : z mod 256 = byteToZ b -> byteOfZ z = b.
Proof.
  intros H. unfold byteOfZ. rewrite H. unfold byteToZ.
  rewrite N2Z.id, Byte.of_to_N. reflexivity.
Qed.

Lemma small_sextet (P : Z -> Prop) :
  (forall n : nat, (n < 64)%nat -> P (Z.of_nat n)) ->
  forall v, 0 <= v < 64 -> P v.
Proof.
  intros H v Hv. rewrite <- (Z2Nat.id v) by lia. apply H. lia.
Qed.

Lemma sextetOf_charOf (v : Z) : 0 <= v < 64 -> sextetOf (charOf v) = Some v.
Proof.
  revert v. apply small_sextet. intros n Hn.
  do 64 (destruct n as [|n]; [reflexivity|]). lia.
Qed.

Lemma charOf_plain (v : Z) :
  0 <= v < 64 -> isAsciiWhitespace (charOf v) = false /\ isPad (charOf v) = false.
Proof.
  revert v. apply small_sextet. intros n Hn.
  do 64 (destruct n as [|n]; [split; reflexivity|]). lia.
Qed.

Ltac sextet_bound :=
  first [ apply Z.mod_pos_bound; lia
        | split; [apply Z.div_pos; lia | apply Z.div_lt_upper_bound; lia] ].

Lemma sextetsOfBytes_range (bs : list byte) :
  Forall (fun v => 0 <= v < 64) (sextetsOfBytes bs).
Proof.
  induction bs as [| a | a b | a b c r IH] using triple_ind; cbn [sextetsOfBytes].
  - constructor.
  - pose proof (byteToZ_range a).
    repeat (apply Forall_cons; [sextet_bound|]). apply Forall_nil.
  - pose proof (byteToZ_range a). pose proof (byteToZ_range b).
    repeat (apply Forall_cons; [sextet_bound|]). apply Forall_nil.
  - pose proof (byteToZ_range a). pose proof (byteToZ_range b).
    pose proof (byteToZ_range c).
    repeat (apply Forall_cons; [sextet_bound|]). exact IH.
Qed.

Lemma sextets_map_charOf (vs : list Z) :
  Forall (fun v => 0 <= v < 64) vs -> sextets (map charOf vs) = Some vs.
Proof.
  induction 1 as [|v r Hv Hr IH]; [reflexivity|].
  cbn [map sextets]. rewrite sextetOf_charOf, IH by assumption. reflexivity.
Qed.

Lemma decodeSextets_sextetsOfBytes (bs : list byte) :
  decodeSextets (sextetsOfBytes bs) = bs.
Proof.
  induction bs as [| a | a b | a b c r IH] using triple_ind;
    cbn [sextetsOfBytes decodeSextets].
  - reflexivity.
  - pose proof (byteToZ_range a). f_equal.
    apply byteOfZ_of_mod. Z.div_mod_to_equations. lia.
  - pose proof (byteToZ_range a). pose proof (byteToZ_range b).
    f_equal; [|f_equal]; apply byteOfZ_of_mod; Z.div_mod_to_equations; lia.
  - pose proof (byteToZ_range a). pose proof (byteToZ_range b).
    pose proof (byteToZ_range c). rewrite IH.
    f_equal; [|f_equal; [|f_equal]]; apply byteOfZ_of_mod;
      Z.div_mod_to_equations; lia.
Qed.

Lemma length_encodeBytes (bs : list byte) :
  exists k : nat,
    length (encodeBytes bs) = (4 * k)%nat /\ (bs <> [] -> (1 <= k)%nat).
Proof.
  induction bs as [| a | a b | a b c r IH] using triple_ind; cbn [encodeBytes length].
  - exists 0%nat. split; [reflexivity | congruence].
  - exists 1%nat. split; [reflexivity | lia].
  - exists 1%nat. split; [reflexivity | lia].
  - destruct IH as (k & Hk & _). exists (S k). rewrite Hk. split; lia.
Qed.

Lemma multiple_of_four (k : nat) : (Z.of_nat (4 * k) mod 4 =? 0) = true.
Proof.
  apply Z.eqb_eq. rewrite Nat2Z.inj_mul, Z.mul_comm. apply Z.mod_mul. lia.
Qed.

(** Removing the padding only looks at the end of the text. *)
Lemma stripPadding_cons4 (x1 x2 x3 x4 : ascii) (cs : list ascii) (k : nat) :
  length cs = (4 * k)%nat -> (1 <= k)%nat ->
  stripPadding (x1 :: x2 :: x3 :: x4 :: cs) = x1 :: x2 :: x3 :: x4 :: stripPadding cs.
Proof.
  intros Hlen Hk. unfold stripPadding.
  assert (H4 : length (x1 :: x2 :: x3 :: x4 :: cs) = (4 * S k)%nat)
    by (cbn [length]; lia).
  rewrite H4, Hlen, !multiple_of_four.
  cbn [rev].
  destruct (rev cs) as [|p1 [|p2 r]] eqn:Hrev;
    try (apply (f_equal (@length ascii)) in Hrev; rewrite length_rev in Hrev;
         cbn [length] in Hrev; lia).
  cbn [app].
  destruct (isPad p1); [|reflexivity].
  destruct (isPad p2).
  - rewrite !rev_app_distr. reflexivity.
  - cbn [rev]. rewrite !rev_app_distr. reflexivity.
Qed.

Lemma stripPadding_encodeBytes (bs : list byte) :
  stripPadding (encodeBytes bs) = map charOf (sextetsOfBytes bs).
Proof.
  induction bs as [| a | a b | a b c r IH] using triple_ind.
  - reflexivity.
  - reflexivity.
  - cbn [encodeBytes sextetsOfBytes map]. unfold stripPadding. cbn [length rev app].
    change (Z.of_nat 4 mod 4 =? 0) with true. cbn match.
    change (isPad "=") with true. cbn match.
    pose proof (byteToZ_range a). pose proof (byteToZ_range b).
    rewrite (proj2 (charOf_plain _ ltac:(apply Z.mod_pos_bound; lia))).
    reflexivity.
  - cbn [encodeBytes sextetsOfBytes map].
    destruct r as [|r0 r'].
    + unfold stripPadding. cbn [encodeBytes length rev app sextetsOfBytes map].
      change (Z.of_nat 4 mod 4 =? 0) with true. cbn match.
      rewrite (proj2 (charOf_plain _ ltac:(apply Z.mod_pos_bound; lia))).
      reflexivity.
    + destruct (length_encodeBytes (r0 :: r')) as (k & Hk & Hpos).
      rewrite (stripPadding_cons4 _ _ _ _ _ k Hk (Hpos ltac:(discriminate))).
      rewrite IH. reflexivity.
Qed.

Lemma filter_all {A : Type} (f : A -> bool) (l : list A) :
  Forall (fun a => f a = true) l -> filter f l = l.
Proof.
  induction 1 as [|a r Ha Hr IH]; [reflexivity|].
  cbn [filter]. rewrite Ha, IH. reflexivity.
Qed.

Lemma encodeBytes_no_whitespace (bs : list byte) :
  Forall (fun c => negb (isAsciiWhitespace c) = true) (encodeBytes bs).
Proof.
  assert (Hc : forall v, 0 <= v < 64 -> negb (isAsciiWhitespace (charOf v)) = true).
  { intros v Hv. rewrite (proj1 (charOf_plain v Hv)). reflexivity. }
  induction bs as [| a | a b | a b c r IH] using triple_ind; cbn [encodeBytes].
  - constructor.
  - pose proof (byteToZ_range a).
    repeat (apply Forall_cons; [first [reflexivity | apply Hc; sextet_bound]|]).
    apply Forall_nil.
  - pose proof (byteToZ_range a). pose proof (byteToZ_range b).
    repeat (apply Forall_cons; [first [reflexivity | apply Hc; sextet_bound]|]).
    apply Forall_nil.
  - pose proof (byteToZ_range a). pose proof (byteToZ_range b).
    pose proof (byteToZ_range c).
    repeat (apply Forall_cons; [apply Hc; sextet_bound|]). exact IH.
Qed.

Lemma length_sextetsOfBytes (bs : list byte) :
  Z.of_nat (length (sextetsOfBytes bs)) mod 4 <> 1.
Proof.
  induction bs as [| a | a b | a b c r IH] using triple_ind;
    cbn [sextetsOfBytes length]; try (cbn; discriminate).
  replace (Z.of_nat (S (S (S (S (length (sextetsOfBytes r)))))))
    with (Z.of_nat (length (sextetsOfBytes r)) + 1 * 4) by lia.
  rewrite Z.mod_add by lia. exact IH.
Qed.

Lemma bytesOfBinaryString_binaryStringOfBytes (bs : list byte) :
  bytesOfBinaryString (binaryStringOfBytes bs) = bs.
Proof.
  unfold bytesOfBinaryString, binaryStringOfBytes.
  rewrite list_ascii_of_string_of_list_ascii, map_map.
  induction bs as [|b r IH]; [reflexivity|].
  cbn [map]. rewrite byte_of_ascii_of_byte, IH. reflexivity.
Qed.

(** Every text [btoa] writes is read back by [atob]. *)
Lemma atob_btoa (bs : list byte) :
  atob (btoa (binaryStringOfBytes bs)) = Some (binaryStringOfBytes bs).
Proof.
  unfold atob, btoa.
  rewrite bytesOfBinaryString_binaryStringOfBytes, list_ascii_of_string_of_list_ascii.
  rewrite (filter_all _ _ (encodeBytes_no_whitespace bs)).
  rewrite stripPadding_encodeBytes, length_map.
  destruct (Z.eqb_spec (Z.of_nat (length (sextetsOfBytes bs)) mod 4) 1) as [H1 | _];
    [exfalso; exact (length_sextetsOfBytes bs H1)|].
  rewrite (sextets_map_charOf _ (sextetsOfBytes_range bs)).
  rewrite decodeSextets_sextetsOfBytes. reflexivity.
Qed.

End Base64Facts.

(** *** C9: decoding base64 *)

(** On the texts [btoa] writes, [base64ToPCM16] depends on the parity of
    the number of encoded bytes only: it reads an even number of bytes back
    as samples and fails on an odd number of them. *)
Lemma base64ToPCM16_btoa (bs : list byte) :
  AudioResampler.base64ToPCM16 (Base64.btoa (binaryStringOfBytes bs))
  = if Nat.even (length bs) then Ok (int16sOfBytes bs) else Throw RangeError.
Proof.
  unfold AudioResampler.base64ToPCM16.
  rewrite Base64Facts.atob_btoa. cbv zeta.
  rewrite Base64Facts.bytesOfBinaryString_binaryStringOfBytes. reflexivity.
Qed.

(** C9, as stated, fails: [QQ==] is well-formed base64 (what [btoa] writes
    for the single byte 65, and what [atob] reads back), and [base64ToPCM16]
    fails on it, with a range error. *)
Lemma C9_counterexample :
  Base64.btoa "A" = "QQ=="%string
  /\ Base64.atob "QQ==" = Some "A"%string
  /\ AudioResampler.base64ToPCM16 "QQ==" = Throw RangeError.
Proof. repeat split; vm_compute; reflexivity. Qed.

Lemma length_int16sOfBytes_even (bytes : list byte) :
  Nat.even (length bytes) = true ->
  (2 * length (int16sOfBytes bytes))%nat = length bytes.
Proof.
  revert bytes.
  assert (H : forall n (bytes : list byte), (length bytes <= n)%nat ->
                Nat.even (length bytes) = true ->
                (2 * length (int16sOfBytes bytes))%nat = length bytes).
  { induction n as [|n IH]; intros [|a [|b r]] Hn Hev; try reflexivity;
      cbn [length] in *; try lia; try discriminate.
    cbn [int16sOfBytes length]. rewrite <- (IH r); [lia | lia | exact Hev]. }
  intros bytes. apply (H (length bytes)). lia.
Qed.

(** C9, amended.  [base64ToPCM16] fails with the decode error exactly when
    [atob] rejects the text; on a text [atob] accepts, it fails exactly
    when the decoded bytes are odd in number, with a range error, and
    otherwise returns the samples read from the bytes, low byte first.
    [resampleFromBase64] fails with the same error whenever [base64ToPCM16]
    fails, and with the rates 24000 and 16000 it succeeds whenever
    [base64ToPCM16] does (for at most [2^52 / 16000] samples). *)
Theorem C9_base64ToPCM16_errors (base64 : string) :
  (AudioResampler.base64ToPCM16 base64 = Throw InvalidCharacterError
   <-> Base64.atob base64 = None)
  /\ (forall binary, Base64.atob base64 = Some binary ->
        AudioResampler.base64ToPCM16 base64
        = if Nat.even (length (bytesOfBinaryString binary))
          then Ok (int16sOfBytes (bytesOfBinaryString binary))
          else Throw RangeError)
  /\ (forall cfg e, AudioResampler.base64ToPCM16 base64 = Throw e ->
        AudioResampler.resampleFromBase64 cfg base64 = Throw e)
  /\ (forall samples, AudioResampler.base64ToPCM16 base64 = Ok samples ->
        Z.of_nat (length samples) * 16000 <= 2 ^ 52 ->
        exists bytes,
          AudioResampler.resampleFromBase64 Examples.cfg_24000_16000 base64 = Ok bytes).
Proof.
  unfold AudioResampler.base64ToPCM16, AudioResampler.resampleFromBase64.
  split; [|split; [|split]].
  - unfold AudioResampler.base64ToPCM16.
    destruct (Base64.atob base64) as [binary|]; [|split; reflexivity].
    destruct (Nat.even (length (bytesOfBinaryString binary))); split; discriminate.
  - intros binary ->. reflexivity.
  - intros cfg e He. unfold AudioResampler.base64ToPCM16 in *. rewrite He. reflexivity.
  - intros samples Hs Hlen. unfold AudioResampler.base64ToPCM16 in *. rewrite Hs.
    rewrite (ResamplerFacts.resample_exact_ratio Examples.cfg_24000_16000 samples);
      try assumption.
    + eexists. reflexivity.
    + reflexivity.
    + reflexivity.
    + discriminate.
    + apply ResamplerFacts.exactRatio_24000_16000.
Qed.

Lemma C9_base64ToPCM16_errors_witness :
  AudioResampler.base64ToPCM16 "AQD//wCA/38=" = Ok [1; -1; -32768; 32767].
Proof.
  rewrite (proj1 (proj2 (C9_base64ToPCM16_errors "AQD//wCA/38="))
             (binaryStringOfBytes [x01; x00; xff; xff; x00; x80; xff; x7f]));
    vm_compute; reflexivity.
Defined.

(** *** C4: the relay of an audio response to the avatar *)

(** C4, evaluated on the code.  For an audio-response chunk whose text
    decodes to an even number [N] of bytes, with a connected avatar client,
    the relay resamples the [N / 2] samples into
    [floor (N / 2 * 16000 / 24000)] samples and hands all their bytes to the
    avatar client in one single [sendAudioData] call, whatever their number:
    nothing cuts the buffer into chunks of 6000 bytes. *)
Theorem C4_relay_sends_one_buffer
    (sm : SessionManager.t) (sc : SimliClient.t) (delta binary : string) :
  SessionManager.simliClient sm = Some sc ->
  SimliClient.client sc = true ->
  SimliClient.isConnectedFlag sc = true ->
  SessionManager.audioResampler sm = Examples.cfg_24000_16000 ->
  delta <> EmptyString ->
  Base64.atob delta = Some binary ->
  Nat.even (length (bytesOfBinaryString binary)) = true ->
  Z.of_nat (length (bytesOfBinaryString binary)) * 8000 <= 2 ^ 52 ->
  exists payload : list byte,
    SessionManager.onAudioResponse (Some delta) sm
    = (Ok tt, sm, [SessionManager.simliCall (SimliClient.officialSendAudioData payload)])
    /\ Z.of_nat (length payload)
       = 2 * (Z.of_nat (length (bytesOfBinaryString binary)) / 2 * 16000 / 24000).
Proof.
  intros Hsc Hclient Hconn Hcfg Hdelta Hatob Heven Hlen.
  pose proof (length_int16sOfBytes_even _ Heven) as Hhalf.
  set (bytes := bytesOfBinaryString binary) in *.
  set (samples := int16sOfBytes bytes) in *.
  assert (Hn : Z.of_nat (length bytes) / 2 = Z.of_nat (length samples)).
  { rewrite <- Hhalf, Nat2Z.inj_mul, Z.mul_comm, Z.div_mul by lia. reflexivity. }
  assert (Hres : AudioResampler.resampleFromBase64 Examples.cfg_24000_16000 delta
                 = Ok (AudioResampler.pcm16ToUint8Array
                         (map (AudioResampler.interpolate
                                 (AudioResampler.ratioOf Examples.cfg_24000_16000) samples)
                            (seq 0 (Z.to_nat (Z.of_nat (length samples) * 16000 / 24000)))))).
  { unfold AudioResampler.resampleFromBase64, AudioResampler.base64ToPCM16.
    rewrite Hatob. fold bytes. rewrite Heven. fold samples.
    rewrite (ResamplerFacts.resample_exact_ratio Examples.cfg_24000_16000 samples).
    - reflexivity.
    - reflexivity.
    - reflexivity.
    - discriminate.
    - apply ResamplerFacts.exactRatio_24000_16000.
    - change (AudioResampler.targetSampleRate Examples.cfg_24000_16000) with 16000.
      rewrite <- Hn.
      pose proof (Z.mul_div_le (Z.of_nat (length bytes)) 2 ltac:(lia)).
      change (2 ^ 52) with 4503599627370496 in *. lia. }
  eexists. split.
  - unfold SessionManager.onAudioResponse, SessionManager.bind, SessionManager.get.
    cbn [fst snd]. rewrite Hsc.
    assert (Ht : SessionManager.truthy (Some delta) = Some delta)
      by (destruct delta; [contradiction | reflexivity]).
    rewrite Ht, Hcfg, Hres.
    unfold SimliClient.sendAudioData. rewrite Hclient, Hconn.
    cbn [negb SessionManager.forEach SessionManager.onSimliOutput SessionManager.bind
         SessionManager.out SessionManager.ret fst snd app].
    reflexivity.
  - rewrite ResamplerFacts.length_pcm16ToUint8Array, length_map, length_seq.
    rewrite Nat2Z.inj_mul, Z2Nat.id by (apply Z.div_pos; lia).
    rewrite Hn. reflexivity.
Qed.

Lemma C4_relay_sends_one_buffer_witness :
  exists payload : list byte,
    SessionManager.onAudioResponse (Some Examples.delta9006) Examples.activeManager
    = (Ok tt, Examples.activeManager,
       [SessionManager.simliCall (SimliClient.officialSendAudioData payload)])
    /\ Z.of_nat (length payload) = 6004.
Proof.
  destruct (C4_relay_sends_one_buffer Examples.activeManager
              {| SimliClient.client := true;
                 SimliClient.config :=
                   {| SimliClient.apiKey := "simli-key";
                      SimliClient.faceId := SessionManager.defaultFaceId;
                      SimliClient.handleSilence := true;
                      SimliClient.maxSessionLength := 3600;
                      SimliClient.maxIdleTime := 600;
                      SimliClient.videoElement := true;
                      SimliClient.configAudioElement := None |};
                 SimliClient.isConnectedFlag := true;
                 SimliClient.audioElement :=
                   Some {| SimliClient.paused := true; SimliClient.muted := false |};
                 SimliClient.audioElementCreatedByUs := true;
                 SimliClient.instanceId := 1 |}
              Examples.delta9006 Examples.zeros9006)
    as (payload & Hrun & Hlen).
  - vm_compute. reflexivity.
  - reflexivity.
  - reflexivity.
  - reflexivity.
  - intros H. apply (f_equal Examples.isEmptyString) in H.
    vm_compute in H. discriminate H.
  - vm_cast_no_check (@eq_refl (option string) (Some Examples.zeros9006)).
  - vm_compute. reflexivity.
  - vm_compute. discriminate.
  - exists payload. split; [exact Hrun|]. rewrite Hlen. vm_compute. reflexivity.
Defined.

(** ** Operations of [SpecFloat] whose result is exact *)

Module F64Exact.

Import F64 F64Spec F64Facts.

Lemma rebase (a n e E B B' : Z) :
  B <= e -> B <= E -> B' <= e -> B' <= E ->
  a * 2 ^ (e - B) = n * 2 ^ (E - B) -> a * 2 ^ (e - B') = n * 2 ^ (E - B').
Proof.
  intros H1 H2 H3 H4 H.
  destruct (Z.le_gt_cases B' B) as [Hle | Hgt].
  - replace (e - B') with ((e - B) + (B - B')) by lia.
    replace (E - B') with ((E - B) + (B - B')) by lia.
    rewrite !Z.pow_add_r by lia. rewrite !Z.mul_assoc, H. reflexivity.
  - apply (Z.mul_reg_r _ _ (2 ^ (B' - B))).
    + pose proof (pow2_pos (B' - B)). lia.
    + rewrite <- !Z.mul_assoc, <- !Z.pow_add_r by lia.
      replace (e - B' + (B' - B)) with (e - B) by lia.
      replace (E - B' + (B' - B)) with (E - B) by lia. exact H.
Qed.

Lemma exactly_intro (s : bool) (m : positive) (e n E B : Z) :
  B <= e -> B <= E ->
  signed_mantissa s m * 2 ^ (e - B) = n * 2 ^ (E - B) ->
  exactly (S754_finite s m e) n E.
Proof.
  intros H1 H2 H. cbn [exactly]. apply (rebase _ _ _ _ B); try assumption; lia.
Qed.

Lemma exactly_elim (s : bool) (m : positive) (e n E B : Z) :
  exactly (S754_finite s m e) n E -> B <= e -> B <= E ->
  signed_mantissa s m * 2 ^ (e - B) = n * 2 ^ (E - B).
Proof.
  intros H H1 H2. cbn [exactly] in H.
  apply (rebase _ _ _ _ (Z.min e E)); try assumption; lia.
Qed.

Lemma exactly_sign (s : bool) (m : positive) (e n E : Z) :
  exactly (S754_finite s m e) n E -> if s then n < 0 else 0 < n.
Proof.
  intros H. cbn [exactly] in H.
  pose proof (pow2_pos (e - Z.min e E)). pose proof (pow2_pos (E - Z.min e E)).
  unfold signed_mantissa in H. destruct s; nia.
Qed.

(** The same number in units of a smaller power of two. *)
Lemma exactly_scale (x : spec_float) (n E j : Z) :
  0 <= j -> exactly x n E -> exactly x (n * 2 ^ j) (E - j).
Proof.
  intros Hj H. destruct x as [s| | |s m e]; cbn [exactly] in *; try contradiction.
  - subst n. reflexivity.
  - apply (exactly_intro s m e _ _ (Z.min e (E - j))); try lia.
    rewrite (exactly_elim s m e n E (Z.min e (E - j)) H) by lia.
    rewrite <- Z.mul_assoc, <- Z.pow_add_r by lia.
    do 2 f_equal. lia.
Qed.

Lemma shl_align_spec (mx : positive) (ex ex' : Z) :
  ex' <= ex ->
  exists mz, shl_align mx ex ex' = (mz, ex')
             /\ Zpos mz = Zpos mx * 2 ^ (ex - ex').
Proof.
  intros Hle. unfold shl_align.
  destruct (ex' - ex) as [|d|d] eqn:Hd; try lia.
  - exists mx. replace ex' with ex by lia. rewrite Z.sub_diag, Z.mul_1_r. auto.
  - exists (shift_pos d mx). split; [reflexivity|].
    unfold shift_pos. rewrite iter_xO. do 2 f_equal. lia.
Qed.

Lemma shl_align_le (mx : positive) (ex ex' : Z) :
  exists mz ez, shl_align mx ex ex' = (mz, ez) /\ ez <= ex
                /\ Zpos mz = Zpos mx * 2 ^ (ex - ez).
Proof.
  destruct (Z.le_gt_cases ex' ex) as [Hle | Hgt].
  - destruct (shl_align_spec mx ex ex' Hle) as (mz & H1 & H2).
    exists mz, ex'. auto.
  - exists mx, ex. unfold shl_align.
    destruct (ex' - ex) as [|d|d] eqn:Hd; try lia.
    rewrite Z.sub_diag, Z.mul_1_r. repeat split; lia.
Qed.

Lemma rounded_exact (c a b q : Z) : 0 < b -> rounded c a b -> a = q * b -> c = q.
Proof.
  intros Hb (_ & Hlo & Hhi) Ha.
  pose proof (Hlo q ltac:(lia)). pose proof (Hhi q ltac:(lia)). lia.
Qed.

(** Rounding a number that is a double leaves it unchanged. *)
Lemma round_aux_exact (s : bool) (mx : positive) (ex c E B : Z) :
  0 < c < 2 ^ 53 -> -1074 <= E <= 900 ->
  B <= ex -> B <= E -> Zpos mx * 2 ^ (ex - B) = c * 2 ^ (E - B) ->
  exactly (binary_round_aux prec emax s (Zpos mx) ex loc_Exact)
    (if s then - c else c) E.
Proof.
  intros Hc HE HB1 HB2 Hval.
  assert (Hin : inbetween (Zpos mx) (Zpos mx) 1 loc_Exact) by (cbn; lia).
  pose proof (binary_round_aux_spec s (Zpos mx) ex loc_Exact (Zpos mx) 1
                ltac:(lia) ltac:(lia) Hin) as Hspec.
  cbv zeta in Hspec.
  set (k := shift_of (Zpos mx) ex) in *.
  set (r := binary_round_aux prec emax s (Zpos mx) ex loc_Exact) in *.
  assert (Hk : k = Z.max 0 (Z.max (Zdigits2 (Zpos mx) + ex - 53) (-1074) - ex)).
  { unfold k, shift_of. rewrite fexp_eq. reflexivity. }
  destruct (Z.le_gt_cases E ex) as [Hle | Hgt].
  - (* the mantissa is below 2^53 already *)
    pose proof (rebase _ _ _ _ B E HB1 HB2 Hle ltac:(lia) Hval) as HvE.
    rewrite Z.sub_diag, Z.mul_1_r in HvE.
    assert (Hp : 0 < 2 ^ (ex - E)) by (apply pow2_pos; lia).
    assert (Hmx : Zpos mx < 2 ^ 53) by nia.
    pose proof (Zdigits2_le (Zpos mx) 53 ltac:(lia) Hmx) as Hd.
    assert (Hk0 : k = 0) by lia.
    assert (Hex : ex - E < 53).
    { apply pow2_lt_inv; [lia|]. nia. }
    destruct Hspec as (c' & Hc0 & Hr & Hrep); [unfold emax, prec; lia|].
    rewrite Hk0, Z.add_0_r in Hrep.
    assert (Hc' : c' = Zpos mx).
    { apply (rounded_exact c' (Zpos mx) (2 ^ k * 1) (Zpos mx)).
      - rewrite Hk0. reflexivity.
      - exact Hr.
      - rewrite Hk0. lia. }
    subst c'.
    destruct r as [s'| | |s' m' e']; cbn [represents] in Hrep; try contradiction.
    + lia.
    + destruct Hrep as (-> & He' & Hm').
      apply (exactly_intro s m' e' _ E E); try lia.
      rewrite Z.sub_diag, Z.mul_1_r.
      replace (e' - E) with ((e' - ex) + (ex - E)) by lia.
      rewrite Z.pow_add_r by lia.
      assert (Hs : signed_mantissa s m' * 2 ^ (e' - ex) = (if s then - Zpos mx else Zpos mx)).
      { unfold signed_mantissa. destruct s; [|exact Hm'].
        change (Zneg m') with (- Zpos m'). rewrite Z.mul_opp_l, Hm'. reflexivity. }
      rewrite Z.mul_assoc, Hs. destruct s; [rewrite Z.mul_opp_l|]; rewrite HvE; reflexivity.
  - (* the mantissa is a multiple of the power of two it is shifted by *)
    pose proof (rebase _ _ _ _ B ex HB1 HB2 ltac:(lia) ltac:(lia) Hval) as Hvx.
    rewrite Z.sub_diag, Z.mul_1_r in Hvx.
    assert (Hd : Zdigits2 (Zpos mx) = Zdigits2 c + (E - ex)).
    { rewrite Hvx. apply Zdigits2_mul_pow2; lia. }
    pose proof (Zdigits2_le c 53 ltac:(lia) ltac:(lia)) as Hdc.
    assert (Hk1 : 0 <= k <= E - ex) by lia.
    destruct Hspec as (c' & Hc0 & Hr & Hrep); [unfold emax, prec; lia|].
    assert (Hc' : c' = c * 2 ^ (E - ex - k)).
    { apply (rounded_exact c' (Zpos mx) (2 ^ k * 1) (c * 2 ^ (E - ex - k))).
      - pose proof (pow2_pos k). lia.
      - exact Hr.
      - rewrite Hvx, Z.mul_1_r, <- Z.mul_assoc, <- Z.pow_add_r by lia.
        do 2 f_equal. lia. }
    assert (Hpos : 0 < c * 2 ^ (E - ex - k)).
    { pose proof (pow2_pos (E - ex - k)). nia. }
    destruct r as [s'| | |s' m' e']; cbn [represents] in Hrep; try contradiction.
    + lia.
    + destruct Hrep as (-> & He' & Hm').
      apply (exactly_intro s m' e' _ E (ex + k)); try lia.
      replace (E - (ex + k)) with (E - ex - k) by lia.
      unfold signed_mantissa. destruct s.
      * change (Zneg m') with (- Zpos m'). rewrite !Z.mul_opp_l, Hm', Hc'. reflexivity.
      * rewrite Hm', Hc'. reflexivity.
Qed.

Lemma binary_round_exact (s : bool) (mx : positive) (ex c E B : Z) :
  0 < c < 2 ^ 53 -> -1074 <= E <= 900 ->
  B <= ex -> B <= E -> Zpos mx * 2 ^ (ex - B) = c * 2 ^ (E - B) ->
  exactly (binary_round prec emax s mx ex) (if s then - c else c) E.
Proof.
  intros Hc HE HB1 HB2 Hval. unfold binary_round.
  destruct (shl_align_le mx ex (fexp prec emax (Zpos (digits2_pos mx) + ex)))
    as (mz & ez & -> & Hez & Hmz).
  apply (round_aux_exact s mz ez c E (Z.min B ez)); try lia.
  rewrite Hmz, <- Z.mul_assoc, <- Z.pow_add_r by lia.
  replace (ex - ez + (ez - Z.min B ez)) with (ex - Z.min B ez) by lia.
  apply (rebase _ _ _ _ B); first [lia | exact Hval].
Qed.

Lemma binary_normalize_exact (S ez n E B : Z) :
  Z.abs n < 2 ^ 53 -> -1074 <= E <= 900 ->
  B <= ez -> B <= E -> S * 2 ^ (ez - B) = n * 2 ^ (E - B) ->
  exactly (binary_normalize prec emax S ez false) n E.
Proof.
  intros Hn HE HB1 HB2 Hval.
  pose proof (pow2_pos (ez - B)). pose proof (pow2_pos (E - B)).
  destruct S as [|p|p]; cbn [binary_normalize].
  - cbn [exactly]. nia.
  - assert (Hpos : 0 < n) by nia.
    apply (binary_round_exact false p ez n E B); first [lia | exact Hval].
  - assert (Hneg : n < 0) by nia.
    replace n with (- (- n)) by lia.
    apply (binary_round_exact true p ez (- n) E B); try lia.
Qed.

(** An integer below [2^53] in magnitude is a double. *)
Lemma exactly_of_Z (n : Z) : Z.abs n < 2 ^ 53 -> exactly (of_Z n) n 0.
Proof.
  intros Hn. unfold of_Z.
  apply (binary_normalize_exact n 0 n 0 0); lia.
Qed.

Lemma cond_Zopp_signed (s : bool) (m : positive) :
  cond_Zopp s (Zpos m) = signed_mantissa s m.
Proof. destruct s; reflexivity. Qed.

Lemma aligned_sum (sx sy : bool) (mx my : positive) (ex ey nx ny E : Z) (sub : bool) :
  exactly (S754_finite sx mx ex) nx E ->
  exactly (S754_finite sy my ey) ny E ->
  let ez := Z.min ex ey in
  let S := if sub
           then cond_Zopp sx (Zpos (fst (shl_align mx ex ez)))
                - cond_Zopp sy (Zpos (fst (shl_align my ey ez)))
           else cond_Zopp sx (Zpos (fst (shl_align mx ex ez)))
                + cond_Zopp sy (Zpos (fst (shl_align my ey ez))) in
  S * 2 ^ (ez - Z.min ez E)
  = (if sub then nx - ny else nx + ny) * 2 ^ (E - Z.min ez E).
Proof.
  intros Hx Hy ez S.
  destruct (shl_align_spec mx ex ez ltac:(lia)) as (mx' & Hax & Hmx).
  destruct (shl_align_spec my ey ez ltac:(lia)) as (my' & Hay & Hmy).
  subst S. rewrite Hax, Hay. cbn [fst].
  set (B := Z.min ez E).
  pose proof (exactly_elim _ _ _ _ _ B Hx ltac:(lia) ltac:(lia)) as Ex.
  pose proof (exactly_elim _ _ _ _ _ B Hy ltac:(lia) ltac:(lia)) as Ey.
  assert (Hsx : cond_Zopp sx (Zpos mx') * 2 ^ (ez - B) = nx * 2 ^ (E - B)).
  { rewrite <- Ex. unfold signed_mantissa.
    replace (ex - B) with ((ex - ez) + (ez - B)) by lia.
    rewrite Z.pow_add_r by lia.
    destruct sx; cbn [cond_Zopp].
    - change (Zneg mx) with (- Zpos mx). rewrite Hmx. ring.
    - rewrite Hmx. ring. }
  assert (Hsy : cond_Zopp sy (Zpos my') * 2 ^ (ez - B) = ny * 2 ^ (E - B)).
  { rewrite <- Ey. unfold signed_mantissa.
    replace (ey - B) with ((ey - ez) + (ez - B)) by lia.
    rewrite Z.pow_add_r by lia.
    destruct sy; cbn [cond_Zopp].
    - change (Zneg my) with (- Zpos my). rewrite Hmy. ring.
    - rewrite Hmy. ring. }
  destruct sub.
  - rewrite Z.mul_sub_distr_r, Hsx, Hsy. ring.
  - rewrite Z.mul_add_distr_r, Hsx, Hsy. ring.
Qed.

Lemma exactly_add (x y : spec_float) (nx ny E : Z) :
  exactly x nx E -> exactly y ny E ->
  Z.abs (nx + ny) < 2 ^ 53 -> -1074 <= E <= 900 ->
  exactly (add x y) (nx + ny) E.
Proof.
  intros Hx Hy Hn HE. unfold add.
  destruct x as [sx| | |sx mx ex]; cbn [exactly] in Hx; try contradiction;
    destruct y as [sy| | |sy my ey]; cbn [exactly] in Hy; try contradiction.
  - subst. destruct sx, sy; reflexivity.
  - subst nx. cbn [SFadd]. rewrite Z.add_0_l. exact Hy.
  - subst ny. cbn [SFadd]. rewrite Z.add_0_r. exact Hx.
  - cbn [SFadd]. change (IntDef.Z.min ex ey) with (Z.min ex ey).
    apply (binary_normalize_exact _ _ _ _ (Z.min (Z.min ex ey) E)); try lia.
    exact (aligned_sum sx sy mx my ex ey nx ny E false Hx Hy).
Qed.

Lemma exactly_sub (x y : spec_float) (nx ny E : Z) :
  exactly x nx E -> exactly y ny E ->
  Z.abs (nx - ny) < 2 ^ 53 -> -1074 <= E <= 900 ->
  exactly (sub x y) (nx - ny) E.
Proof.
  intros Hx Hy Hn HE. unfold sub.
  destruct x as [sx| | |sx mx ex]; cbn [exactly] in Hx; try contradiction;
    destruct y as [sy| | |sy my ey]; cbn [exactly] in Hy; try contradiction.
  - subst. destruct sx, sy; reflexivity.
  - subst nx. cbn [SFsub exactly]. rewrite Z.sub_0_l, Z.mul_opp_l, <- Hy.
    unfold signed_mantissa. destruct sy; cbn [negb].
    + change (Zneg my) with (- Zpos my). lia.
    + change (Zneg my) with (- Zpos my). lia.
  - subst ny. cbn [SFsub]. rewrite Z.sub_0_r. exact Hx.
  - cbn [SFsub]. change (IntDef.Z.min ex ey) with (Z.min ex ey).
    apply (binary_normalize_exact _ _ _ _ (Z.min (Z.min ex ey) E)); try lia.
    exact (aligned_sum sx sy mx my ex ey nx ny E true Hx Hy).
Qed.

Lemma exactly_mul (x y : spec_float) (nx ny Ex Ey : Z) :
  exactly x nx Ex -> exactly y ny Ey ->
  Z.abs (nx * ny) < 2 ^ 53 -> -1074 <= Ex + Ey <= 900 ->
  exactly (mul x y) (nx * ny) (Ex + Ey).
Proof.
  intros Hx Hy Hn HE. unfold mul.
  destruct x as [sx| | |sx mx ex]; cbn [exactly] in Hx; try contradiction;
    destruct y as [sy| | |sy my ey]; cbn [exactly] in Hy; try contradiction;
    cbn [SFmul exactly]; try (subst; lia).
  pose proof (exactly_sign _ _ _ _ _ Hx) as Sx.
  pose proof (exactly_sign _ _ _ _ _ Hy) as Sy.
  set (Bx := Z.min ex Ex) in *. set (By := Z.min ey Ey) in *.
  assert (Hval : Zpos (mx * my) * 2 ^ (ex + ey - (Bx + By))
                 = Z.abs (nx * ny) * 2 ^ (Ex + Ey - (Bx + By))).
  { replace (ex + ey - (Bx + By)) with ((ex - Bx) + (ey - By)) by lia.
    replace (Ex + Ey - (Bx + By)) with ((Ex - Bx) + (Ey - By)) by lia.
    rewrite !Z.pow_add_r by lia. rewrite Pos2Z.inj_mul, Z.abs_mul.
    assert (Ax : Zpos mx * 2 ^ (ex - Bx) = Z.abs nx * 2 ^ (Ex - Bx)).
    { unfold signed_mantissa in Hx. destruct sx.
      - change (Zneg mx) with (- Zpos mx) in Hx. lia.
      - rewrite Hx. f_equal. lia. }
    assert (Ay : Zpos my * 2 ^ (ey - By) = Z.abs ny * 2 ^ (Ey - By)).
    { unfold signed_mantissa in Hy. destruct sy.
      - change (Zneg my) with (- Zpos my) in Hy. lia.
      - rewrite Hy. f_equal. lia. }
    transitivity ((Zpos mx * 2 ^ (ex - Bx)) * (Zpos my * 2 ^ (ey - By))); [ring|].
    rewrite Ax, Ay. ring. }
  assert (Hsgn : (nx * ny = if xorb sx sy then - Z.abs (nx * ny) else Z.abs (nx * ny))
                 /\ 0 < Z.abs (nx * ny)).
  { destruct sx, sy; cbn [xorb].
    - pose proof (Z.mul_neg_neg nx ny Sx Sy). lia.
    - pose proof (Z.mul_neg_pos nx ny Sx Sy). lia.
    - pose proof (Z.mul_pos_neg nx ny Sx Sy). lia.
    - pose proof (Z.mul_pos_pos nx ny Sx Sy). lia. }
  destruct Hsgn as [Hsgn Hpos]. rewrite Hsgn.
  apply (round_aux_exact _ _ _ _ _ (Bx + By)); first [lia | exact Hval].
Qed.

Lemma floorZ_exactly (x : spec_float) (n E : Z) :
  exactly x n E -> E <= 0 -> floorZ x = Some (n / 2 ^ (- E)).
Proof.
  intros H HE. destruct x as [s| | |s m e]; cbn [exactly] in H; try contradiction.
  - subst n. reflexivity.
  - cbn [floorZ]. f_equal. unfold floor_scaled.
    set (a := signed_mantissa s m) in *.
    destruct (Z.leb_spec 0 e) as [He | He].
    + rewrite Z.min_r in H by lia. rewrite Z.sub_diag, Z.mul_1_r in H.
      rewrite <- H. replace (e - E) with (e + (- E)) by lia.
      rewrite Z.pow_add_r, Z.mul_assoc by lia.
      rewrite Z.div_mul; [reflexivity|]. pose proof (pow2_pos (- E)). lia.
    + destruct (Z.le_gt_cases e E) as [Hle | Hgt].
      * rewrite Z.min_l in H by lia. rewrite Z.sub_diag, Z.mul_1_r in H.
        rewrite H. replace (- e) with ((- E) + (E - e)) by lia.
        rewrite Z.pow_add_r by lia.
        apply Z.div_mul_cancel_r.
        -- pose proof (pow2_pos (- E)). lia.
        -- pose proof (pow2_pos (E - e)). lia.
      * rewrite Z.min_r in H by lia. rewrite Z.sub_diag, Z.mul_1_r in H.
        rewrite <- H. replace (- E) with ((- e) + (e - E)) by lia.
        rewrite Z.pow_add_r by lia. symmetry.
        apply Z.div_mul_cancel_r.
        -- pose proof (pow2_pos (- e)). lia.
        -- pose proof (pow2_pos (e - E)). lia.
Qed.

(** [Math.round] of a number of halves. *)
Lemma roundZ_halves (x : spec_float) (n : Z) :
  exactly x n (-1) -> roundZ x = Some ((n + 1) / 2).
Proof.
  intros H. destruct x as [s| | |s m e]; cbn [exactly] in H; try contradiction.
  - subst n. reflexivity.
  - cbn [roundZ]. f_equal.
    set (a := signed_mantissa s m) in *.
    destruct (Z.leb_spec 0 e) as [He | He].
    + rewrite Z.min_r in H by lia.
      replace (-1 - -1) with 0 in H by lia. rewrite Z.mul_1_r in H.
      replace (e - -1) with (e + 1) in H by lia.
      rewrite Z.pow_add_r in H by lia. change (2 ^ 1) with 2 in H.
      rewrite <- H. replace (a * (2 ^ e * 2) + 1) with (1 + (a * 2 ^ e) * 2) by ring.
      rewrite Z.div_add by lia. reflexivity.
    + rewrite Z.min_l in H by lia. rewrite Z.sub_diag, Z.mul_1_r in H.
      assert (He1 : 0 <= -1 - e) by lia.
      rewrite H.
      replace (- e + 1) with ((-1 - e) + 2) by lia.
      replace (- e) with ((-1 - e) + 1) by lia.
      rewrite !Z.pow_add_r by lia. change (2 ^ 1) with 2. change (2 ^ 2) with 4.
      set (p := 2 ^ (-1 - e)).
      assert (Hp : 0 < p) by (apply pow2_pos; lia).
      replace (2 * (n * p) + p * 2) with ((n + 1) * (2 * p)) by ring.
      replace (p * 4) with (2 * (2 * p)) by ring.
      apply Z.div_mul_cancel_r; lia.
Qed.

End F64Exact.

(** ** The event emitter *)

Module EmitterFacts.

Import EventEmitter.

Lemma mapGet_mapSet_same (key : string) (v : list Listener) (m : t) :
  mapGet key (mapSet key v m) = Some v.
Proof.
  induction m as [|[k w] r IH]; cbn [mapSet mapGet].
  - rewrite String.eqb_refl. reflexivity.
  - destruct (String.eqb k key) eqn:E; cbn [mapGet]; rewrite E; [reflexivity | exact IH].
Qed.

Lemma mapGet_mapSet_other (key key' : string) (v : list Listener) (m : t) :
  key' <> key -> mapGet key' (mapSet key v m) = mapGet key' m.
Proof.
  intros Hne. induction m as [|[k w] r IH]; cbn [mapSet mapGet].
  - destruct (String.eqb_spec key key'); [congruence | reflexivity].
  - destruct (String.eqb_spec k key) as [-> | Hk]; cbn [mapGet].
    + destruct (String.eqb_spec key key'); [congruence | reflexivity].
    + destruct (String.eqb k key'); [reflexivity | exact IH].
Qed.

Lemma mapGet_mapDelete_same (key : string) (m : t) :
  mapGet key (mapDelete key m) = None.
Proof.
  induction m as [|[k w] r IH]; [reflexivity|].
  unfold mapDelete in *. cbn [filter fst].
  destruct (String.eqb k key) eqn:E; cbn [negb]; [exact IH|].
  cbn [mapGet]. rewrite E. exact IH.
Qed.

Lemma mapGet_mapDelete_other (key key' : string) (m : t) :
  key' <> key -> mapGet key' (mapDelete key m) = mapGet key' m.
Proof.
  intros Hne. induction m as [|[k w] r IH]; [reflexivity|].
  unfold mapDelete in *. cbn [filter fst].
  destruct (String.eqb_spec k key) as [-> | Hk]; cbn [negb mapGet].
  - destruct (String.eqb_spec key key'); [congruence | exact IH].
  - destruct (String.eqb k key'); [reflexivity | exact IH].
Qed.

Lemma sameFunction_refl (l : Listener) : sameFunction l l = true.
Proof. destruct l; cbn; apply Nat.eqb_refl. Qed.

Lemma skipn_nth_error {A : Type} (l : list A) (k : nat) (x : A) :
  nth_error l k = Some x -> skipn k l = x :: skipn (S k) l.
Proof.
  revert k. induction l as [|a r IH]; intros [|k] H; cbn in H; try discriminate.
  - injection H as ->. reflexivity.
  - cbn [skipn]. rewrite (IH k H). reflexivity.
Qed.

Lemma skipn_nth_error_None {A : Type} (l : list A) (k : nat) :
  nth_error l k = None -> skipn k l = [].
Proof.
  intros H. apply skipn_all2. apply nth_error_None. exact H.
Qed.

(** The loop over listeners that are all functions of the caller. *)
Lemma forEachFrom_plain {Arg : Type} (event : string) (args : Arg) (em : t)
    (listeners : list Listener) :
  mapGet event em = Some listeners ->
  forallb isPlain listeners = true ->
  forall n k,
    forEachFrom n k event args em
    = (em, callsOf args (firstn n (skipn k listeners))).
Proof.
  intros Hget Hplain. induction n as [|n IH]; intros k; cbn [forEachFrom].
  - reflexivity.
  - rewrite Hget. destruct (nth_error listeners k) as [l|] eqn:Hk.
    + rewrite (skipn_nth_error _ _ _ Hk). cbn [firstn].
      assert (Hl : isPlain l = true).
      { rewrite forallb_forall in Hplain. apply Hplain.
        eapply nth_error_In. exact Hk. }
      destruct l as [id|]; [|discriminate]. cbn [invoke].
      rewrite IH. reflexivity.
    + rewrite IH, (skipn_nth_error_None _ _ Hk).
      assert (H1 : skipn (S k) listeners = []).
      { apply skipn_all2. apply nth_error_None in Hk. lia. }
      rewrite H1. destruct n; reflexivity.
Qed.

Lemma indexOf_first (l : Listener) (pre post : list Listener) :
  forallb (fun x => negb (sameFunction x l)) pre = true ->
  indexOf l (pre ++ l :: post) = Some (length pre).
Proof.
  induction pre as [|p r IH]; cbn [app indexOf forallb length]; intros H.
  - rewrite sameFunction_refl. reflexivity.
  - apply andb_true_iff in H. destruct H as [Hp Hr].
    apply negb_true_iff in Hp. rewrite Hp, (IH Hr). reflexivity.
Qed.

Lemma indexOf_None_all (l : Listener) (ls : list Listener) :
  indexOf l ls = None <-> forallb (fun x => negb (sameFunction x l)) ls = true.
Proof.
  induction ls as [|p r IH]; cbn [indexOf forallb]; [tauto|].
  destruct (sameFunction p l); cbn [negb andb].
  - split; discriminate.
  - rewrite <- IH. destruct (indexOf l r); cbn; split; congruence.
Qed.

Lemma splice_middle (pre post : list Listener) (l : Listener) :
  splice (length pre) (pre ++ l :: post) = pre ++ post.
Proof.
  induction pre as [|p r IH]; cbn [app length splice]; [reflexivity|].
  rewrite IH. reflexivity.
Qed.

Lemma plain_differs (closure inner : nat) (event : string) (ls : list Listener) :
  forallb isPlain ls = true ->
  forallb (fun x => negb (sameFunction x (OnceWrapper closure event inner))) ls = true.
Proof.
  intros H. rewrite forallb_forall in *. intros x Hx.
  specialize (H x Hx). destruct x; [reflexivity | discriminate].
Qed.

Lemma off_first (event : string) (l : Listener) (em : t) (pre post : list Listener) :
  mapGet event em = Some (pre ++ l :: post) ->
  forallb (fun x => negb (sameFunction x l)) pre = true ->
  off event l em = mapSet event (pre ++ post) em.
Proof.
  intros Hget Hpre. unfold off. rewrite Hget, (indexOf_first _ _ _ Hpre), splice_middle.
  reflexivity.
Qed.

Lemma forallb_app_plain (a b : list Listener) :
  forallb isPlain (a ++ b) = forallb isPlain a && forallb isPlain b.
Proof. apply forallb_app. Qed.

(** The loop when one listener is the wrapper of [once]. *)
Lemma forEachFrom_once {Arg : Type} (event : string) (args : Arg) (em : t)
    (closure inner : nat) (post : list Listener) :
  forallb isPlain post = true ->
  forall pre2 pre1,
    forallb isPlain (pre1 ++ pre2) = true ->
    mapGet event em
    = Some ((pre1 ++ pre2) ++ OnceWrapper closure event inner :: post) ->
    forEachFrom (length pre2 + S (length post)) (length pre1) event args em
    = (mapSet event ((pre1 ++ pre2) ++ post) em,
       callsOf args pre2 ++ (inner, args) :: callsOf args (tl post)).
Proof.
  intros Hpost. induction pre2 as [|p pre2 IH]; intros pre1 Hpre Hget.
  - rewrite app_nil_r in *. cbn [length Nat.add forEachFrom]. rewrite Hget.
    rewrite nth_error_app2 by lia. rewrite Nat.sub_diag. cbn [nth_error invoke].
    rewrite (off_first _ _ _ _ _ Hget (plain_differs _ _ _ _ Hpre)).
    rewrite (forEachFrom_plain event args _ (pre1 ++ post)).
    + rewrite skipn_app, skipn_all2 by lia.
      replace (S (length pre1) - length pre1)%nat with 1%nat by lia.
      cbn [app]. rewrite firstn_all2; [reflexivity|].
      destruct post; cbn; lia.
    + apply mapGet_mapSet_same.
    + rewrite forallb_app_plain, Hpre, Hpost. reflexivity.
  - cbn [length Nat.add forEachFrom]. rewrite Hget.
    rewrite <- app_assoc. rewrite nth_error_app2 by lia. rewrite Nat.sub_diag.
    cbn [app nth_error].
    assert (Hp : isPlain p = true).
    { rewrite !forallb_app_plain in Hpre. cbn [forallb] in Hpre.
      apply andb_true_iff in Hpre. destruct Hpre as [_ H].
      apply andb_true_iff in H. tauto. }
    destruct p as [id|]; [|discriminate]. cbn [invoke].
    specialize (IH (pre1 ++ [Plain id])).
    rewrite <- !app_assoc in IH. cbn [app] in IH.
    rewrite length_app in IH. cbn [length] in IH.
    replace (length pre1 + 1)%nat with (S (length pre1)) in IH by lia.
    rewrite IH.
    + rewrite <- !app_assoc. reflexivity.
    + exact Hpre.
    + rewrite Hget, <- !app_assoc. reflexivity.
Qed.

End EmitterFacts.

(** X1.  [emit] on an event whose listeners are all functions of the caller
    calls each of them once, in the order of registration and with the
    arguments of the event, returns whether there was a listener, and
    leaves the registry as it was; on an event without an entry it calls
    nothing and returns [false].  A listener added by [on] is called last. *)
Theorem X1_emit_calls_listeners_in_order
    {Arg : Type} (event : string) (args : Arg) (em : EventEmitter.t) :
  forallb isPlain (listenersOf event em) = true ->
  EventEmitter.emit event args em
  = (Nat.ltb 0 (EventEmitter.listenerCount event em), em,
     callsOf args (listenersOf event em))
  /\ forall id : nat,
       EventEmitter.emit event args (EventEmitter.on event (EventEmitter.Plain id) em)
       = (true, EventEmitter.on event (EventEmitter.Plain id) em,
          callsOf args (listenersOf event em) ++ [(id, args)]).
Proof.
  intros Hplain.
  assert (Hgen : forall em' ls,
             EventEmitter.mapGet event em' = Some ls -> forallb isPlain ls = true ->
             EventEmitter.emit event args em'
             = (Nat.ltb 0 (length ls), em', callsOf args ls)).
  { intros em' ls Hget Hls. unfold EventEmitter.emit. rewrite Hget.
    destruct ls as [|l r]; [reflexivity|].
    change (0 <? length (l :: r))%nat with true. cbv iota.
    rewrite (EmitterFacts.forEachFrom_plain event args em' (l :: r) Hget Hls).
    cbn [skipn]. rewrite firstn_all. reflexivity. }
  split.
  - unfold listenersOf, EventEmitter.listenerCount in *.
    destruct (EventEmitter.mapGet event em) as [ls|] eqn:Hget.
    + apply Hgen; assumption.
    + unfold EventEmitter.emit. rewrite Hget. reflexivity.
  - intros id.
    assert (Hon : EventEmitter.mapGet event
                    (EventEmitter.on event (EventEmitter.Plain id) em)
                  = Some (listenersOf event em ++ [EventEmitter.Plain id])).
    { unfold EventEmitter.on, EventEmitter.mapHas, listenersOf.
      destruct (EventEmitter.mapGet event em) as [ls|] eqn:Hget.
      - rewrite Hget. apply EmitterFacts.mapGet_mapSet_same.
      - rewrite EmitterFacts.mapGet_mapSet_same. apply EmitterFacts.mapGet_mapSet_same. }
    rewrite (Hgen _ _ Hon).
    + unfold callsOf. rewrite length_app, map_app. cbn [length map functionOf].
      replace (0 <? length (listenersOf event em) + 1)%nat with true; [reflexivity|].
      symmetry. apply Nat.ltb_lt. lia.
    + rewrite EmitterFacts.forallb_app_plain, Hplain. reflexivity.
Qed.

Lemma X1_emit_calls_listeners_in_order_witness :
  EventEmitter.emit "status" 7
    (EventEmitter.on "status" (EventEmitter.Plain 2)
       (EventEmitter.on "audio" (EventEmitter.Plain 3)
          (EventEmitter.on "status" (EventEmitter.Plain 1) EventEmitter.new)))
  = (true,
     EventEmitter.on "status" (EventEmitter.Plain 2)
       (EventEmitter.on "audio" (EventEmitter.Plain 3)
          (EventEmitter.on "status" (EventEmitter.Plain 1) EventEmitter.new)),
     [(1%nat, 7); (2%nat, 7)]).
Proof.
  apply (proj2 (X1_emit_calls_listeners_in_order "status" 7
                  (EventEmitter.on "audio" (EventEmitter.Plain 3)
                     (EventEmitter.on "status" (EventEmitter.Plain 1)
                        EventEmitter.new))
                  eq_refl) 2%nat).
Defined.

(** X2.  [off] removes one registration of the listener, the earliest one,
    and keeps the order of the others; the arrays of the other events are
    untouched; when the listener is not registered for the event the
    emitter is unchanged. *)
Theorem X2_off_removes_earliest_registration
    (event : string) (l : EventEmitter.Listener) (em : EventEmitter.t) :
  (forall pre post,
      EventEmitter.mapGet event em = Some (pre ++ l :: post) ->
      forallb (fun x => negb (EventEmitter.sameFunction x l)) pre = true ->
      EventEmitter.mapGet event (EventEmitter.off event l em) = Some (pre ++ post)
      /\ EventEmitter.listenerCount event (EventEmitter.off event l em)
         = pred (EventEmitter.listenerCount event em))
  /\ (forall e, e <> event ->
        EventEmitter.mapGet e (EventEmitter.off event l em) = EventEmitter.mapGet e em)
  /\ (forallb (fun x => negb (EventEmitter.sameFunction x l)) (listenersOf event em) = true ->
      EventEmitter.off event l em = em).
Proof.
  split; [|split].
  - intros pre post Hget Hpre.
    rewrite (EmitterFacts.off_first _ _ _ _ _ Hget Hpre).
    unfold EventEmitter.listenerCount.
    rewrite EmitterFacts.mapGet_mapSet_same, Hget, !length_app. cbn [length].
    split; [reflexivity | lia].
  - intros e He. unfold EventEmitter.off.
    destruct (EventEmitter.mapGet event em) as [ls|]; [|reflexivity].
    destruct (EventEmitter.indexOf l ls); [|reflexivity].
    apply EmitterFacts.mapGet_mapSet_other. exact He.
  - unfold listenersOf, EventEmitter.off.
    destruct (EventEmitter.mapGet event em) as [ls|]; [|reflexivity].
    intros H. apply EmitterFacts.indexOf_None_all in H. rewrite H. reflexivity.
Qed.

Lemma X2_off_removes_earliest_registration_witness :
  let em := EventEmitter.on "audio" (EventEmitter.Plain 1)
              (EventEmitter.on "audio" (EventEmitter.Plain 2)
                 (EventEmitter.on "audio" (EventEmitter.Plain 1) EventEmitter.new)) in
  EventEmitter.mapGet "audio" (EventEmitter.off "audio" (EventEmitter.Plain 1) em)
  = Some [EventEmitter.Plain 2; EventEmitter.Plain 1].
Proof.
  exact (proj1 (proj1 (X2_off_removes_earliest_registration "audio" (EventEmitter.Plain 1)
                         (EventEmitter.on "audio" (EventEmitter.Plain 1)
                            (EventEmitter.on "audio" (EventEmitter.Plain 2)
                               (EventEmitter.on "audio" (EventEmitter.Plain 1)
                                  EventEmitter.new))))
                  [] [EventEmitter.Plain 2; EventEmitter.Plain 1] eq_refl eq_refl)).
Defined.

(** X3.  A listener registered by [once] among listeners that are functions
    of the caller: the [emit] that reaches it calls the listeners before it,
    then the function it wraps, and removes the wrapper from the array
    while [forEach] is running over it.  The array has then moved up by one
    place, so the listener registered right after the wrapper is not called
    by this [emit]; the ones after that are.  Afterwards the wrapper is gone
    and the other listeners are all registered still, in their order. *)
Theorem X3_emit_once_listener_skips_successor
    {Arg : Type} (event : string) (args : Arg) (em : EventEmitter.t)
    (closure inner : nat) (pre post : list EventEmitter.Listener) :
  EventEmitter.mapGet event em
  = Some (pre ++ EventEmitter.OnceWrapper closure event inner :: post) ->
  forallb isPlain pre = true ->
  forallb isPlain post = true ->
  exists em',
    EventEmitter.emit event args em
    = (true, em', callsOf args pre ++ (inner, args) :: callsOf args (tl post))
    /\ EventEmitter.mapGet event em' = Some (pre ++ post)
    /\ (forall e, e <> event -> EventEmitter.mapGet e em' = EventEmitter.mapGet e em)
    /\ EventEmitter.emit event args em'
       = (Nat.ltb 0 (length (pre ++ post)), em', callsOf args (pre ++ post)).
Proof.
  intros Hget Hpre Hpost.
  exists (EventEmitter.mapSet event (pre ++ post) em).
  assert (Hget' : EventEmitter.mapGet event (EventEmitter.mapSet event (pre ++ post) em)
                  = Some (pre ++ post)) by apply EmitterFacts.mapGet_mapSet_same.
  split; [|split; [exact Hget' | split]].
  - unfold EventEmitter.emit. rewrite Hget.
    replace (0 <? length (pre ++ EventEmitter.OnceWrapper closure event inner :: post))%nat
      with true by (symmetry; apply Nat.ltb_lt; rewrite length_app; cbn [length]; lia).
    cbv iota. rewrite length_app. cbn [length].
    pose proof (EmitterFacts.forEachFrom_once event args em closure inner post Hpost
                  pre [] Hpre Hget) as H.
    cbn [app length] in H. rewrite H. reflexivity.
  - intros e He. apply EmitterFacts.mapGet_mapSet_other. exact He.
  - unfold EventEmitter.emit. rewrite Hget'.
    destruct (pre ++ post) as [|l r] eqn:Hpp; [reflexivity|].
    change (0 <? length (l :: r))%nat with true. cbv iota.
    rewrite (EmitterFacts.forEachFrom_plain event args _ (l :: r) Hget').
    + cbn [skipn]. rewrite firstn_all. reflexivity.
    + rewrite <- Hpp, EmitterFacts.forallb_app_plain, Hpre, Hpost. reflexivity.
Qed.

Lemma X3_emit_once_listener_skips_successor_witness :
  let em := EventEmitter.on "ready" (EventEmitter.Plain 3)
              (EventEmitter.on "ready" (EventEmitter.Plain 2)
                 (EventEmitter.once 100 "ready" 1 EventEmitter.new)) in
  exists em',
    EventEmitter.emit "ready" tt em = (true, em', [(1%nat, tt); (3%nat, tt)])
    /\ EventEmitter.mapGet "ready" em'
       = Some [EventEmitter.Plain 2; EventEmitter.Plain 3].
Proof.
  destruct (X3_emit_once_listener_skips_successor "ready" tt
              (EventEmitter.on "ready" (EventEmitter.Plain 3)
                 (EventEmitter.on "ready" (EventEmitter.Plain 2)
                    (EventEmitter.once 100 "ready" 1 EventEmitter.new)))
              100 1 [] [EventEmitter.Plain 2; EventEmitter.Plain 3]
              eq_refl eq_refl eq_refl) as (em' & H1 & H2 & _).
  exists em'. split; [exact H1 | exact H2].
Defined.

(** X4.  [removeAllListeners] with the name of an event removes the
    listeners of that event and leaves every other event as it was; with
    the empty string as the name, as with no argument, it removes the
    listeners of every event. *)
Theorem X4_removeAllListeners_scope (em : EventEmitter.t) :
  (forall e, EventEmitter.listenerCount e
               (EventEmitter.removeAllListeners (Some EmptyString) em) = 0%nat)
  /\ (forall e, EventEmitter.listenerCount e
                  (EventEmitter.removeAllListeners None em) = 0%nat)
  /\ (forall event, event <> EmptyString ->
        EventEmitter.listenerCount event
          (EventEmitter.removeAllListeners (Some event) em) = 0%nat
        /\ forall e, e <> event ->
             EventEmitter.mapGet e (EventEmitter.removeAllListeners (Some event) em)
             = EventEmitter.mapGet e em).
Proof.
  split; [|split].
  - reflexivity.
  - reflexivity.
  - intros [|c s] Hne; [congruence|]. cbn [EventEmitter.removeAllListeners]. split.
    + unfold EventEmitter.listenerCount.
      rewrite EmitterFacts.mapGet_mapDelete_same. reflexivity.
    + intros e He. apply EmitterFacts.mapGet_mapDelete_other. exact He.
Qed.

Lemma X4_removeAllListeners_scope_witness :
  let em := EventEmitter.on "status" (EventEmitter.Plain 2)
              (EventEmitter.on EmptyString (EventEmitter.Plain 1) EventEmitter.new) in
  EventEmitter.listenerCount "status"
    (EventEmitter.removeAllListeners (Some "status"%string) em) = 0%nat
  /\ EventEmitter.mapGet EmptyString
       (EventEmitter.removeAllListeners (Some "status"%string) em)
     = Some [EventEmitter.Plain 1].
Proof.
  destruct (proj2 (proj2 (X4_removeAllListeners_scope
                            (EventEmitter.on "status" (EventEmitter.Plain 2)
                               (EventEmitter.on EmptyString (EventEmitter.Plain 1)
                                  EventEmitter.new))))
              "status"%string ltac:(discriminate)) as [H1 H2].
  split; [exact H1|]. rewrite (H2 EmptyString); [reflexivity | discriminate].
Defined.

(** ** The status log *)

Module StatusFacts.

Import StatusMessages.

Lemma addMessage_lastN (now : Z) (o : AddMessageOptions) (prev : list StatusMessage) :
  addMessage now o prev = lastN MAX_MESSAGES (prev ++ [messageOf (now, o)]).
Proof.
  unfold addMessage, lastN, slice, messageOf. cbn [fst snd].
  set (updated := prev ++ _).
  destruct (Nat.ltb_spec MAX_MESSAGES (length updated)) as [H | H]; [reflexivity|].
  replace (length updated - MAX_MESSAGES)%nat with 0%nat by lia. reflexivity.
Qed.

Lemma lastN_app_one {A : Type} (n : nat) (l : list A) (x : A) :
  (0 < n)%nat -> lastN n (lastN n l ++ [x]) = lastN n (l ++ [x]).
Proof.
  intros Hn. unfold lastN. rewrite !length_app, length_skipn. cbn [length].
  destruct (Nat.le_gt_cases (length l) n) as [H | H].
  - replace (length l - n)%nat with 0%nat by lia. cbn [skipn].
    rewrite Nat.sub_0_r. reflexivity.
  - replace (length l - (length l - n) + 1 - n)%nat with 1%nat by lia.
    replace (length l + 1 - n)%nat with (1 + (length l - n))%nat by lia.
    rewrite <- skipn_skipn, (skipn_app (length l - n) l).
    replace (length l - n - length l)%nat with 0%nat by lia.
    reflexivity.
Qed.

Lemma addMessages_lastN (calls : list (Z * AddMessageOptions)) :
  forall prev,
    (length prev <= MAX_MESSAGES)%nat ->
    addMessages calls prev = lastN MAX_MESSAGES (prev ++ map messageOf calls).
Proof.
  unfold addMessages.
  induction calls as [|[now o] r IH] using rev_ind; intros prev Hprev.
  - cbn [fold_left map]. rewrite app_nil_r. unfold lastN.
    replace (length prev - MAX_MESSAGES)%nat with 0%nat by lia. reflexivity.
  - rewrite fold_left_app. cbn [fold_left fst snd]. rewrite (IH prev Hprev).
    rewrite addMessage_lastN, map_app. cbn [map].
    rewrite lastN_app_one by (unfold MAX_MESSAGES; lia).
    rewrite app_assoc. reflexivity.
Qed.

End StatusFacts.

(** X5.  The status log keeps the most recent 100 messages: after any
    sequence of [addMessage] calls on an empty log (the initial state, and
    the state after [clearMessages]), the log holds the messages of the last
    100 calls, in the order of the calls, an absent level being ["info"];
    it never holds more than 100 messages. *)
Theorem X5_status_log_keeps_last_100
    (calls : list (Z * StatusMessages.AddMessageOptions))
    (log : list StatusMessages.StatusMessage) :
  StatusMessages.addMessages calls (StatusMessages.clearMessages log)
  = lastN 100 (map messageOf calls)
  /\ length (StatusMessages.addMessages calls (StatusMessages.clearMessages log))
     = Nat.min (length calls) 100.
Proof.
  unfold StatusMessages.clearMessages.
  rewrite StatusFacts.addMessages_lastN by (cbn; lia). cbn [app].
  split; [reflexivity|].
  unfold lastN, StatusMessages.MAX_MESSAGES. rewrite length_skipn, length_map. lia.
Qed.

(** ** The resampler of the orchestrator, sample by sample *)

Module InterpolationFacts.

Import F64 F64Spec F64Facts F64Exact AudioResampler.

(** The ratio [24000 / 16000] is the double [1.5]. *)
Lemma ratio_three_halves : exactly (ratioOf Examples.cfg_24000_16000) 3 (-1).
Proof. vm_compute. reflexivity. Qed.

Lemma sampleAt_valid (samples : list Z) (i : Z) :
  0 <= i < Z.of_nat (length samples) ->
  sampleAt samples (Some i) = of_Z (nth (Z.to_nat i) samples 0).
Proof.
  intros Hi. unfold sampleAt.
  destruct (Z.leb_spec 0 i) as [_ | ?]; [|lia].
  rewrite (nth_error_nth' samples 0) by lia. reflexivity.
Qed.

Lemma nth_in_range (samples : list Z) (k : nat) :
  Forall (fun s => -32768 <= s <= 32767) samples ->
  -32768 <= nth k samples 0 <= 32767.
Proof.
  intros H. destruct (Nat.lt_ge_cases k (length samples)) as [Hk | Hk].
  - rewrite Forall_forall in H. apply H. apply nth_In. exact Hk.
  - rewrite nth_overflow by lia. lia.
Qed.

(** One iteration of the loop of [resample] at the ratio [1.5]. *)
Lemma interpolate_three_halves (samples : list Z) (i : nat) :
  Forall (fun s => -32768 <= s <= 32767) samples ->
  3 * Z.of_nat i / 2 < Z.of_nat (length samples) ->
  Z.of_nat (length samples) < 2 ^ 50 ->
  let i1 := 3 * Z.of_nat i / 2 in
  let i2 := Z.min (i1 + 1) (Z.of_nat (length samples) - 1) in
  interpolate (ratioOf Examples.cfg_24000_16000) samples i
  = if (3 * Z.of_nat i) mod 2 =? 0
    then nth (Z.to_nat i1) samples 0
    else (nth (Z.to_nat i1) samples 0 + nth (Z.to_nat i2) samples 0 + 1) / 2.
Proof.
  intros Hrange Hi1 Hlen i1 i2.
  set (n := Z.of_nat (length samples)) in *.
  set (zi := Z.of_nat i) in *.
  assert (Hzi : 0 <= zi) by (unfold zi; lia).
  assert (Hi1' : 0 <= i1 < n) by (unfold i1; split; [apply Z.div_pos; lia | exact Hi1]).
  assert (Hdm : 3 * zi = 2 * i1 + (3 * zi) mod 2) by (unfold i1; apply Z.div_mod; lia).
  pose proof (Z.mod_pos_bound (3 * zi) 2 ltac:(lia)) as Hf.
  set (f := (3 * zi) mod 2) in *.
  assert (H53 : 2 ^ 50 * 8 = 2 ^ 53) by reflexivity.
  assert (Hzi53 : 3 * zi < 2 ^ 53) by lia.
  assert (Hi2 : 0 <= i2 < n) by (unfold i2; lia).
  pose proof (nth_in_range samples (Z.to_nat i1) Hrange) as Hs1.
  pose proof (nth_in_range samples (Z.to_nat i2) Hrange) as Hs2.
  set (s1 := nth (Z.to_nat i1) samples 0) in *.
  set (s2 := nth (Z.to_nat i2) samples 0) in *.
  assert (Hpow : 2 ^ 53 = 9007199254740992) by reflexivity.
  (* the source index *)
  assert (Esrc : exactly (mul (of_Z zi) (ratioOf Examples.cfg_24000_16000)) (zi * 3) (-1)).
  { apply (exactly_mul _ _ zi 3 0 (-1)).
    - apply exactly_of_Z. lia.
    - exact ratio_three_halves.
    - lia.
    - lia. }
  unfold interpolate. fold zi n.
  set (sourceIndex := mul (of_Z zi) (ratioOf Examples.cfg_24000_16000)) in *.
  assert (Hfloor : floorZ sourceIndex = Some i1).
  { rewrite (floorZ_exactly _ _ _ Esrc) by lia.
    unfold i1. do 2 f_equal. lia. }
  rewrite Hfloor. cbn [option_map]. fold i2.
  rewrite (sampleAt_valid samples i1 Hi1'), (sampleAt_valid samples i2 Hi2).
  fold s1 s2.
  (* the fraction and its complement *)
  assert (Efrac : exactly (sub sourceIndex (of_Z i1)) f (-1)).
  { replace f with (zi * 3 - i1 * 2 ^ 1) by (change (2 ^ 1) with 2; lia).
    apply exactly_sub.
    - exact Esrc.
    - apply (exactly_scale (of_Z i1) i1 0 1); [lia|]. apply exactly_of_Z. lia.
    - change (2 ^ 1) with 2. lia.
    - lia. }
  set (fraction := sub sourceIndex (of_Z i1)) in *.
  assert (Ecomp : exactly (sub (of_Z 1) fraction) (2 - f) (-1)).
  { change 2 with (1 * 2 ^ 1) at 1. apply exactly_sub.
    - apply (exactly_scale (of_Z 1) 1 0 1); [lia|]. apply exactly_of_Z. lia.
    - exact Efrac.
    - change (2 ^ 1) with 2. lia.
    - lia. }
  assert (E1 : exactly (mul (of_Z s1) (sub (of_Z 1) fraction)) (s1 * (2 - f)) (-1)).
  { apply (exactly_mul _ _ s1 (2 - f) 0 (-1)).
    - apply exactly_of_Z. lia.
    - exact Ecomp.
    - assert (Z.abs (s1 * (2 - f)) <= 65536) by nia. lia.
    - lia. }
  assert (E2 : exactly (mul (of_Z s2) fraction) (s2 * f) (-1)).
  { apply (exactly_mul _ _ s2 f 0 (-1)).
    - apply exactly_of_Z. lia.
    - exact Efrac.
    - assert (Z.abs (s2 * f) <= 65536) by nia. lia.
    - lia. }
  assert (Esum : exactly (add (mul (of_Z s1) (sub (of_Z 1) fraction))
                            (mul (of_Z s2) fraction))
                   (s1 * (2 - f) + s2 * f) (-1)).
  { apply exactly_add; try assumption.
    - assert (Z.abs (s1 * (2 - f) + s2 * f) <= 131072) by nia. lia.
    - lia. }
  rewrite (roundZ_halves _ _ Esum).
  assert (Hf01 : f = 0 \/ f = 1) by lia.
  destruct Hf01 as [Hf0 | Hf1].
  - rewrite Hf0. cbn [Z.eqb].
    replace (s1 * (2 - 0) + s2 * 0 + 1) with (1 + s1 * 2) by ring.
    rewrite Z.div_add by lia. change (1 / 2) with 0. rewrite Z.add_0_l.
    apply CaptureFacts.wrapInt16_small. lia.
  - rewrite Hf1. cbn [Z.eqb].
    replace (s1 * (2 - 1) + s2 * 1 + 1) with (s1 + s2 + 1) by ring.
    apply CaptureFacts.wrapInt16_small.
    split.
    + apply Z.div_le_lower_bound; lia.
    + assert ((s1 + s2 + 1) / 2 < 32768); [|lia].
      apply Z.div_lt_upper_bound; lia.
Qed.

End InterpolationFacts.

(** X6.  What the resampler of the orchestrator (24000 Hz to 16000 Hz)
    computes, in double precision arithmetic, on 16-bit samples: out of
    every three input samples it makes two; output sample [2j] is input
    sample [3j], and output sample [2j + 1] is the mean of the input samples
    [3j + 1] and [3j + 2], rounded to the nearest integer with halves going
    up.  No output sample wraps around. *)
Theorem X6_resample_24000_16000_samples (samples : list Z) :
  Forall (fun s => -32768 <= s <= 32767) samples ->
  Z.of_nat (length samples) * 16000 <= 2 ^ 52 ->
  exists out,
    AudioResampler.resample Examples.cfg_24000_16000 samples = Ok out
    /\ Z.of_nat (length out) = 2 * Z.of_nat (length samples) / 3
    /\ forall j : nat,
         ((2 * j < length out)%nat -> nth (2 * j) out 0 = nth (3 * j) samples 0)
         /\ ((2 * j + 1 < length out)%nat ->
             nth (2 * j + 1) out 0
             = (nth (3 * j + 1) samples 0 + nth (3 * j + 2) samples 0 + 1) / 2).
Proof.
  intros Hrange Hlen.
  set (n := Z.of_nat (length samples)) in *.
  assert (Hn : 0 <= n) by (unfold n; lia).
  assert (Hdiv : n * 16000 / 24000 = 2 * n / 3).
  { replace (n * 16000) with (2 * n * 8000) by ring.
    change 24000 with (3 * 8000). apply Z.div_mul_cancel_r; lia. }
  change (2 ^ 52) with 4503599627370496 in Hlen.
  assert (Hn50 : n < 2 ^ 50) by (change (2 ^ 50) with 1125899906842624; lia).
  pose proof (Z.mul_div_le (2 * n) 3 ltac:(lia)) as Hq.
  assert (Hq0 : 0 <= 2 * n / 3) by (apply Z.div_pos; lia).
  set (L := Z.to_nat (2 * n / 3)).
  exists (map (AudioResampler.interpolate
                 (AudioResampler.ratioOf Examples.cfg_24000_16000) samples) (seq 0 L)).
  assert (Hnth : forall i, (i < L)%nat ->
            nth i (map (AudioResampler.interpolate
                          (AudioResampler.ratioOf Examples.cfg_24000_16000) samples)
                     (seq 0 L)) 0
            = AudioResampler.interpolate
                (AudioResampler.ratioOf Examples.cfg_24000_16000) samples i).
  { intros i Hi.
    rewrite (nth_indep _ 0 (AudioResampler.interpolate
                              (AudioResampler.ratioOf Examples.cfg_24000_16000)
                              samples 0%nat))
      by (rewrite length_map, length_seq; exact Hi).
    rewrite map_nth, seq_nth by exact Hi. reflexivity. }
  split; [|split].
  - rewrite (ResamplerFacts.resample_exact_ratio Examples.cfg_24000_16000 samples).
    + cbn [AudioResampler.targetSampleRate AudioResampler.sourceSampleRate
           Examples.cfg_24000_16000 AudioResampler.createAudioResampler].
      fold n. rewrite Hdiv. reflexivity.
    + reflexivity.
    + reflexivity.
    + discriminate.
    + apply ResamplerFacts.exactRatio_24000_16000.
    + cbn [AudioResampler.targetSampleRate Examples.cfg_24000_16000
           AudioResampler.createAudioResampler]. fold n.
      change (2 ^ 52) with 4503599627370496. exact Hlen.
  - rewrite length_map, length_seq. unfold L. lia.
  - intros j. rewrite length_map, length_seq. split; intros Hj.
    + rewrite (Hnth _ Hj).
      rewrite InterpolationFacts.interpolate_three_halves; try assumption.
      * replace (3 * Z.of_nat (2 * j)) with (Z.of_nat (3 * j) * 2) by lia.
        rewrite Z.mod_mul, Z.div_mul by lia. cbn [Z.eqb].
        rewrite Nat2Z.id. reflexivity.
      * replace (3 * Z.of_nat (2 * j)) with (Z.of_nat (3 * j) * 2) by lia.
        rewrite Z.div_mul by lia. fold n. unfold L in Hj. lia.
    + rewrite (Hnth _ Hj).
      assert (Hi1 : 3 * Z.of_nat (2 * j + 1) / 2 = Z.of_nat (3 * j + 1)).
      { replace (3 * Z.of_nat (2 * j + 1)) with (1 + Z.of_nat (3 * j + 1) * 2) by lia.
        rewrite Z.div_add by lia. reflexivity. }
      assert (Hmod : (3 * Z.of_nat (2 * j + 1)) mod 2 = 1).
      { replace (3 * Z.of_nat (2 * j + 1)) with (1 + Z.of_nat (3 * j + 1) * 2) by lia.
        rewrite Z.mod_add by lia. reflexivity. }
      assert (Hroom : Z.of_nat (3 * j + 2) <= n - 1) by (unfold L in Hj; lia).
      rewrite InterpolationFacts.interpolate_three_halves; try assumption.
      * rewrite Hmod, Hi1. cbn [Z.eqb]. fold n.
        rewrite Z.min_l by lia.
        replace (Z.of_nat (3 * j + 1) + 1) with (Z.of_nat (3 * j + 2)) by lia.
        rewrite !Nat2Z.id. reflexivity.
      * rewrite Hi1. fold n. lia.
Qed.

Lemma X6_resample_24000_16000_samples_witness :
  exists out,
    AudioResampler.resample Examples.cfg_24000_16000 Examples.sevenSamples = Ok out
    /\ nth 0 out 0 = 1 /\ nth 1 out 0 = (-1 + -32768 + 1) / 2
    /\ nth 2 out 0 = 32767 /\ nth 3 out 0 = (0 + 1 + 1) / 2.
Proof.
  destruct (X6_resample_24000_16000_samples Examples.sevenSamples) as (out & Hr & Hl & Hn).
  - repeat constructor; lia.
  - vm_compute. discriminate.
  - exists out. split; [exact Hr|].
    assert (Hlen : length out = 4%nat).
    { apply Nat2Z.inj. rewrite Hl. reflexivity. }
    pose proof (Hn 0%nat) as [H0 H1]. pose proof (Hn 1%nat) as [H2 H3].
    rewrite Hlen in *.
    repeat split.
    + apply H0. lia.
    + apply H1. lia.
    + apply H2. lia.
    + apply H3. lia.
Defined.

(** ** PCM16 through base64 *)

Module CodecFacts.

Lemma int16sOfBytes_flat_map {A : Type} (g : A -> Z) (l : list A) :
  int16sOfBytes (flat_map (fun x => int16ToBytes (g x)) l)
  = map (fun x => wrapInt16 (g x)) l.
Proof.
  induction l as [|a r IH]; [reflexivity|].
  cbn [flat_map map]. rewrite CaptureFacts.int16OfBytes_int16ToBytes, IH. reflexivity.
Qed.

Lemma length_flat_map_int16ToBytes {A : Type} (g : A -> Z) (l : list A) :
  length (flat_map (fun x => int16ToBytes (g x)) l) = (2 * length l)%nat.
Proof.
  induction l as [|a r IH]; [reflexivity|].
  cbn [flat_map]. rewrite length_app, IH. cbn [length int16ToBytes]. lia.
Qed.

Lemma even_double (n : nat) : Nat.even (2 * n) = true.
Proof. rewrite Nat.even_mul. reflexivity. Qed.

Lemma toInt16_range (x : F64.float) : -32768 <= toInt16 x <= 32767.
Proof.
  unfold toInt16. destruct (F64.truncZ x); [apply CaptureFacts.wrapInt16_range | lia].
Qed.

(** Decoding what [arrayBufferToBase64] encodes. *)
Lemma base64ToPCM16_arrayBufferToBase64 {A : Type} (g : A -> Z) (l : list A) :
  AudioResampler.base64ToPCM16
    (OpenAIRealtimeClient.arrayBufferToBase64
       (flat_map (fun x => int16ToBytes (g x)) l))
  = Ok (map (fun x => wrapInt16 (g x)) l).
Proof.
  unfold OpenAIRealtimeClient.arrayBufferToBase64.
  rewrite base64ToPCM16_btoa, length_flat_map_int16ToBytes, even_double.
  rewrite int16sOfBytes_flat_map. reflexivity.
Qed.

End CodecFacts.

(** X7.  The byte and text encodings of PCM16 audio are inverse to each
    other: the samples written by [pcm16ToUint8Array], encoded by
    [arrayBufferToBase64], are read back by [base64ToPCM16], each reduced to
    its 16-bit value; samples that are 16-bit values come back unchanged,
    whatever their number. *)
Theorem X7_pcm16_base64_round_trip (samples : list Z) :
  AudioResampler.base64ToPCM16
    (OpenAIRealtimeClient.arrayBufferToBase64
       (AudioResampler.pcm16ToUint8Array samples))
  = Ok (map wrapInt16 samples)
  /\ (Forall (fun s => -32768 <= s <= 32767) samples ->
      AudioResampler.base64ToPCM16
        (OpenAIRealtimeClient.arrayBufferToBase64
           (AudioResampler.pcm16ToUint8Array samples))
      = Ok samples).
Proof.
  assert (H : AudioResampler.base64ToPCM16
                (OpenAIRealtimeClient.arrayBufferToBase64
                   (AudioResampler.pcm16ToUint8Array samples))
              = Ok (map wrapInt16 samples)).
  { unfold AudioResampler.pcm16ToUint8Array.
    exact (CodecFacts.base64ToPCM16_arrayBufferToBase64 (fun z => z) samples). }
  split; [exact H|].
  intros Hrange. rewrite H. f_equal. clear H.
  induction Hrange as [|s r Hs Hr IH]; [reflexivity|].
  cbn [map]. rewrite IH, (CaptureFacts.wrapInt16_small s Hs). reflexivity.
Qed.

Lemma X7_pcm16_base64_round_trip_witness :
  AudioResampler.base64ToPCM16
    (OpenAIRealtimeClient.arrayBufferToBase64
       (AudioResampler.pcm16ToUint8Array Examples.sevenSamples))
  = Ok Examples.sevenSamples.
Proof.
  apply (proj2 (X7_pcm16_base64_round_trip Examples.sevenSamples)).
  repeat constructor; lia.
Defined.

(** ** The session manager: what its methods leave untouched *)

Module KeepFacts.

Import SessionManager.

Lemma keeps_ret {A B : Type} (f : t -> B) (a : A) : keeps f (ret a).
Proof. intros sm. reflexivity. Qed.

Lemma keeps_throw {A B : Type} (f : t -> B) (e : JsError) : keeps f (@throw A e).
Proof. intros sm. reflexivity. Qed.

Lemma keeps_get {B : Type} (f : t -> B) : keeps f get.
Proof. intros sm. reflexivity. Qed.

Lemma keeps_out {B : Type} (f : t -> B) (o : list Output) : keeps f (out o).
Proof. intros sm. reflexivity. Qed.

Lemma keeps_pending {A B : Type} (f : t -> B) :
  keeps f (fun sm : t => (@Pending A, sm, @nil Output)).
Proof. intros sm. reflexivity. Qed.

Lemma keeps_modify {B : Type} (f : t -> B) (g : t -> t) :
  (forall sm, f (g sm) = f sm) -> keeps f (modify g).
Proof. intros Hg sm. apply Hg. Qed.

Lemma keeps_bind {A A' B : Type} (f : t -> B) (m : M A) (k : A -> M A') :
  keeps f m -> (forall a, keeps f (k a)) -> keeps f (bind m k).
Proof.
  intros Hm Hk sm. specialize (Hm sm). unfold stateAfter, bind in *.
  destruct (m sm) as [[r sm1] o1]. cbn [fst snd] in *.
  destruct r as [a| |]; try exact Hm.
  specialize (Hk a sm1). unfold stateAfter in Hk.
  destruct (k a sm1) as [[r2 sm2] o2]. cbn [fst snd] in *. congruence.
Qed.

Lemma keeps_tryCatch {A B : Type} (f : t -> B) (m : M A) (h : JsError -> M A) :
  keeps f m -> (forall e, keeps f (h e)) -> keeps f (tryCatch m h).
Proof.
  intros Hm Hh sm. specialize (Hm sm). unfold stateAfter, tryCatch in *.
  destruct (m sm) as [[r sm1] o1]. cbn [fst snd] in *.
  destruct r as [a|e|]; try exact Hm.
  specialize (Hh e sm1). unfold stateAfter in Hh.
  destruct (h e sm1) as [[r2 sm2] o2]. cbn [fst snd] in *. congruence.
Qed.

Lemma keeps_when {B : Type} (f : t -> B) (b : bool) (m : M unit) :
  keeps f m -> keeps f (when b m).
Proof. intros Hm. destruct b; [assumption | apply keeps_ret]. Qed.

Lemma keeps_forEach {A B : Type} (f : t -> B) (l : list A) (g : A -> M unit) :
  (forall a, keeps f (g a)) -> keeps f (forEach l g).
Proof.
  intros Hg. induction l as [|a r IH]; cbn [forEach].
  - apply keeps_ret.
  - apply keeps_bind; [apply Hg | intros _; exact IH].
Qed.

(** One step of the analysis of a method: the combinators of the monad,
    then the case distinctions of the code. *)
Ltac keeps_step :=
  match goal with
  | |- keeps _ (bind _ _) => apply keeps_bind; [|intros ?]
  | |- keeps _ (tryCatch _ _) => apply keeps_tryCatch; [|intros ?]
  | |- keeps _ (when _ _) => apply keeps_when
  | |- keeps _ (forEach _ _) => apply keeps_forEach; intros ?
  | |- keeps _ (ret _) => apply keeps_ret
  | |- keeps _ (throw _) => apply keeps_throw
  | |- keeps _ get => apply keeps_get
  | |- keeps _ (out _) => apply keeps_out
  | |- keeps _ (emitStatus _ _ _) => apply keeps_out
  | |- keeps _ (modify _) => apply keeps_modify; intros ?; reflexivity
  | |- keeps _ (fun sm => (Pending, sm, [])) => apply keeps_pending
  | |- keeps _ (let _ := _ in _) => cbv zeta
  | |- keeps _ (match ?x with _ => _ end) => destruct x
  end.

Ltac keeps_tac := repeat keeps_step.

Section Keeps.

Context {B : Type} (f : t -> B).

Lemma keeps_onSimliOutput (o : SimliClient.Output) : keeps f (onSimliOutput o).
Proof. unfold onSimliOutput. keeps_tac. Qed.

Lemma keeps_loadApiKeys (env : Env) :
  (forall v sm, f (set_openaiApiKey v sm) = f sm) ->
  (forall v sm, f (set_simliApiKey v sm) = f sm) ->
  keeps f (loadApiKeys env).
Proof.
  intros H1 H2. unfold loadApiKeys, fetchKey. keeps_tac;
    apply keeps_modify; intros ?; first [apply H1 | apply H2].
Qed.

Lemma keeps_loadCharacterFile (env : Env) : keeps f (loadCharacterFile env).
Proof. unfold loadCharacterFile. keeps_tac. Qed.

Lemma keeps_onAudioResponse (delta : option string) : keeps f (onAudioResponse delta).
Proof.
  unfold onAudioResponse. keeps_tac. apply keeps_onSimliOutput.
Qed.

Lemma keeps_onOpenAIEvent (e : OpenAIRealtimeClient.Event) :
  (forall v sm, f (set_sessionId v sm) = f sm) ->
  keeps f (onOpenAIEvent e).
Proof.
  intros H. unfold onOpenAIEvent. destruct e; keeps_tac;
    first [apply keeps_onAudioResponse | apply keeps_modify; intros ?; apply H].
Qed.

Lemma keeps_onOpenAIOutput (o : OpenAIRealtimeClient.Output) :
  (forall v sm, f (set_sessionId v sm) = f sm) ->
  keeps f (onOpenAIOutput o).
Proof.
  intros H. unfold onOpenAIOutput. destruct o; keeps_tac.
  apply keeps_onOpenAIEvent. exact H.
Qed.

Lemma keeps_clearPreviewTimeout :
  (forall v sm, f (set_previewTimeout v sm) = f sm) ->
  keeps f clearPreviewTimeout.
Proof.
  intros H. unfold clearPreviewTimeout. keeps_tac.
  apply keeps_modify; intros ?; apply H.
Qed.

Lemma keeps_createAndStartSimli (env : Env) (key : string) :
  (forall v sm, f (set_simliClient v sm) = f sm) ->
  (forall v sm, f (set_counter v sm) = f sm) ->
  keeps f (createAndStartSimli env key).
Proof.
  intros H1 H2. unfold createAndStartSimli. keeps_tac;
    first [apply keeps_onSimliOutput
          | apply keeps_modify; intros ?; first [apply H1 | apply H2]].
Qed.

Lemma keeps_connectOpenAI (env : Env) :
  (forall v sm, f (set_sessionId v sm) = f sm) ->
  (forall v sm, f (set_openaiClient v sm) = f sm) ->
  keeps f (connectOpenAI env).
Proof.
  intros H1 H2. unfold connectOpenAI. keeps_tac;
    first [apply keeps_loadCharacterFile
          | apply keeps_onOpenAIOutput; exact H1
          | apply keeps_modify; intros ?; apply H2].
Qed.

End Keeps.

End KeepFacts.

(** ** The session manager: invariants of its states *)

Module InvariantFacts.

Import SessionManager KeepFacts.

Lemma preserves_bind {A A' : Type} (P : t -> Prop) (m : M A) (k : A -> M A') :
  preserves P m -> (forall a, preserves P (k a)) -> preserves P (bind m k).
Proof.
  intros Hm Hk sm HP. specialize (Hm sm HP). unfold stateAfter, bind in *.
  destruct (m sm) as [[r sm1] o1]. cbn [fst snd] in *.
  destruct r as [a| |]; try exact Hm.
  specialize (Hk a sm1 Hm). unfold stateAfter in Hk.
  destruct (k a sm1) as [[r2 sm2] o2]. exact Hk.
Qed.

Lemma preserves_tryCatch {A : Type} (P : t -> Prop) (m : M A) (h : JsError -> M A) :
  preserves P m -> (forall e, preserves P (h e)) -> preserves P (tryCatch m h).
Proof.
  intros Hm Hh sm HP. specialize (Hm sm HP). unfold stateAfter, tryCatch in *.
  destruct (m sm) as [[r sm1] o1]. cbn [fst snd] in *.
  destruct r as [a|e|]; try exact Hm.
  specialize (Hh e sm1 Hm). unfold stateAfter in Hh.
  destruct (h e sm1) as [[r2 sm2] o2]. exact Hh.
Qed.

(** The methods that touch neither the state nor the capture pipeline. *)

Ltac keeps_method :=
  first
    [ apply keeps_onSimliOutput
    | apply keeps_loadApiKeys; intros; reflexivity
    | apply keeps_loadCharacterFile
    | apply keeps_onAudioResponse
    | apply keeps_onOpenAIEvent; intros; reflexivity
    | apply keeps_onOpenAIOutput; intros; reflexivity
    | apply keeps_clearPreviewTimeout; intros; reflexivity
    | apply keeps_createAndStartSimli; intros; reflexivity
    | apply keeps_connectOpenAI; intros; reflexivity ].

Ltac keeps_all := repeat first [keeps_step | keeps_method].

Section StateAndCapture.

Context {B : Type} (f : t -> B).
Hypothesis f_openaiClient : forall v sm, f (set_openaiClient v sm) = f sm.
Hypothesis f_simliClient : forall v sm, f (set_simliClient v sm) = f sm.
Hypothesis f_sessionId : forall v sm, f (set_sessionId v sm) = f sm.
Hypothesis f_openaiApiKey : forall v sm, f (set_openaiApiKey v sm) = f sm.
Hypothesis f_simliApiKey : forall v sm, f (set_simliApiKey v sm) = f sm.
Hypothesis f_previewTimeout : forall v sm, f (set_previewTimeout v sm) = f sm.
Hypothesis f_counter : forall v sm, f (set_counter v sm) = f sm.
Hypothesis f_videoHandler : forall v sm, f (set_videoHandler v sm) = f sm.
Hypothesis f_audioLog : forall a b sm, f (set_audioLog a b sm) = f sm.

Ltac field_step :=
  first
    [ keeps_step
    | apply keeps_onSimliOutput
    | apply keeps_loadApiKeys; assumption
    | apply keeps_loadCharacterFile
    | apply keeps_onAudioResponse
    | apply keeps_onOpenAIOutput; assumption
    | apply keeps_clearPreviewTimeout; assumption
    | apply keeps_createAndStartSimli; assumption
    | apply keeps_connectOpenAI; assumption
    | apply keeps_modify; intros ?;
      first [ apply f_openaiClient | apply f_simliClient | apply f_sessionId
            | apply f_openaiApiKey | apply f_simliApiKey | apply f_previewTimeout
            | apply f_counter | apply f_videoHandler | apply f_audioLog ] ].

Ltac field_all := repeat field_step.

Lemma keeps_connectSimliPreview (env : Env) : keeps f (connectSimliPreview env).
Proof. unfold connectSimliPreview. field_all. Qed.

Lemma keeps_connectSimli (env : Env) : keeps f (connectSimli env).
Proof. unfold connectSimli. field_all. Qed.

Lemma keeps_startPreview (env : Env) : keeps f (startPreview env).
Proof. unfold startPreview. field_all. apply keeps_connectSimliPreview. Qed.

Lemma keeps_stopPreview (keepConnectionAlive : bool) :
  keeps f (stopPreview keepConnectionAlive).
Proof. unfold stopPreview. field_all. Qed.

Lemma keeps_previewTimeoutCallback : keeps f previewTimeoutCallback.
Proof. unfold previewTimeoutCallback. field_all. apply keeps_stopPreview. Qed.

Lemma keeps_onOpenAIMessage (from : SpeechClient)
    (m : OpenAIRealtimeClient.ServerMessage) :
  keeps f (onOpenAIMessage from m).
Proof. unfold onOpenAIMessage. field_all. Qed.

Lemma keeps_onOpenAIClose (from : SpeechClient) (code : Z) (reason : string) :
  keeps f (onOpenAIClose from code reason).
Proof. unfold onOpenAIClose. field_all. Qed.

Lemma keeps_onCaptureEvent (e : AudioCapture.Event) : keeps f (onCaptureEvent e).
Proof. unfold onCaptureEvent. destruct e; unfold onAudio; field_all. Qed.

Lemma keeps_emitCapture (events : list AudioCapture.Event) :
  keeps f (emitCapture events).
Proof.
  unfold emitCapture. field_all. apply keeps_onCaptureEvent.
Qed.

Lemma keeps_setVideoElement : keeps f (SessionOps.run SessionOps.setVideoElement).
Proof. cbn [SessionOps.run]. field_all. Qed.

(** The part of [initialize] between its two changes of state. *)
Lemma keeps_initialize_simli (env : Env) (sm : t) :
  keeps f (match simliClient sm with
           | Some c =>
               let c1 := SimliClient.stopAudio c in
               modify (set_simliClient (Some c1)) ;;
               forEach (SimliClient.clearBuffer c1) onSimliOutput ;;
               emitStatus Category.simli
                 "upgrading preview connection to full session" Level.info
           | None => connectSimli env
           end).
Proof. field_all. apply keeps_connectSimli. Qed.

End StateAndCapture.

(** The answers of the methods that change the state or the capture. *)

Lemma stateAfter_bind_ok {A A' : Type} (m : M A) (k : A -> M A') (sm : t) (a : A) :
  resultOf m sm = Ok a -> stateAfter (bind m k) sm = stateAfter (k a) (stateAfter m sm).
Proof.
  unfold resultOf, stateAfter, bind. destruct (m sm) as [[r sm1] o1]. cbn [fst snd].
  intros ->. destruct (k a sm1) as [[r2 sm2] o2]. reflexivity.
Qed.

Lemma resultOf_clearPreviewTimeout (sm : t) : resultOf clearPreviewTimeout sm = Ok tt.
Proof.
  unfold resultOf, clearPreviewTimeout, bind, get. cbn [fst snd].
  destruct (previewTimeout sm); reflexivity.
Qed.

Lemma state_after_destroy (sm : t) : state (stateAfter destroy sm) = ConnectionState.idle.
Proof.
  unfold destroy.
  rewrite (stateAfter_bind_ok _ _ _ tt (resultOf_clearPreviewTimeout sm)).
  rewrite (stateAfter_bind_ok _ _ _ tt (proj1 (SessionFacts.endSession_spec _))).
  rewrite (proj2 (SessionFacts.endSession_spec _)). reflexivity.
Qed.

Lemma processAudio_isCapturing (now : Z) (inputData : list F64.float)
    (timeDomain : list Z) (ac : AudioCapture.t) :
  AudioCapture.isCapturing (fst (AudioCapture.processAudio now inputData timeDomain ac))
  = AudioCapture.isCapturing ac.
Proof.
  unfold AudioCapture.processAudio.
  destruct (negb (AudioCapture.isCapturing ac) || negb (AudioCapture.analyser ac));
    [reflexivity|].
  destruct (AudioCapture.detectVoiceActivity timeDomain ac && negb (AudioCapture.isMuted ac));
    reflexivity.
Qed.

Lemma captureFrame_after (now : Z) (inputData : list F64.float) (timeDomain : list Z)
    (sm : t) :
  state (stateAfter (captureFrame now inputData timeDomain) sm) = state sm
  /\ AudioCapture.isCapturing
       (audioCapture (stateAfter (captureFrame now inputData timeDomain) sm))
     = AudioCapture.isCapturing (audioCapture sm).
Proof.
  pose proof (processAudio_isCapturing now inputData timeDomain (audioCapture sm)) as Hp.
  unfold captureFrame.
  rewrite (stateAfter_bind_ok get _ sm sm eq_refl).
  change (stateAfter get sm) with sm.
  destruct (AudioCapture.processAudio now inputData timeDomain (audioCapture sm))
    as [ac events]. cbn [fst] in Hp.
  rewrite (stateAfter_bind_ok (modify (set_audioCapture ac)) _ sm tt eq_refl).
  change (stateAfter (modify (set_audioCapture ac)) sm) with (set_audioCapture ac sm).
  split.
  - rewrite (keeps_emitCapture state); [reflexivity | intros; reflexivity ..].
  - rewrite (keeps_emitCapture audioCapture); [exact Hp | intros; reflexivity ..].
Qed.

(** [startSession] either leaves the state and the capture as they are, or
    ends in the state [active] with the capture running. *)
Lemma startSession_after (env : Env) (sm : t) :
  (state (stateAfter (startSession env) sm) = state sm
   /\ audioCapture (stateAfter (startSession env) sm) = audioCapture sm)
  \/ (state (stateAfter (startSession env) sm) = ConnectionState.active
      /\ AudioCapture.isCapturing (audioCapture (stateAfter (startSession env) sm))
         = true).
Proof.
  destruct sm as [oc sc ac vh sid st cfg ok sk pt ar sent lastLog counter].
  destruct ac as [li a1 a2 a3 a4 a5 acfg capturing muted lv vc].
  destruct env as [q1 q2 cf oconn sstart mic tid].
  unfold stateAfter, startSession, emitCapture, bind, get, tryCatch.
  cbn [fst snd state audioCapture microphone].
  destruct st; cbn [ConnectionState.eqb negb andb]; try (left; split; reflexivity);
    destruct li; destruct capturing; destruct mic; destruct sc; cbn;
    first [left; split; reflexivity | right; split; reflexivity].
Qed.

Section Invariant.

Variable P : t -> Prop.

Hypothesis P_ext :
  forall sm sm',
    state sm' = state sm ->
    AudioCapture.isCapturing (audioCapture sm')
    = AudioCapture.isCapturing (audioCapture sm) ->
    P sm -> P sm'.

Hypothesis P_quiet :
  forall sm,
    state sm = ConnectionState.idle \/ state sm = ConnectionState.connecting
    \/ state sm = ConnectionState.connected ->
    P sm.

Hypothesis P_active :
  forall sm,
    state sm = ConnectionState.active ->
    AudioCapture.isCapturing (audioCapture sm) = true -> P sm.

Lemma quiet_preserves {A : Type} (m : M A) :
  keeps state m -> keeps audioCapture m -> preserves P m.
Proof.
  intros Hs Ha sm H. apply (P_ext sm); [apply Hs | rewrite Ha; reflexivity | exact H].
Qed.

Lemma setState_preserves (s : ConnectionState.t) :
  s = ConnectionState.connecting \/ s = ConnectionState.connected ->
  preserves P (setState s).
Proof.
  intros Hs sm _. apply P_quiet.
  change (state (stateAfter (setState s) sm)) with s. tauto.
Qed.

Ltac quiet :=
  apply quiet_preserves;
  first [ apply keeps_clearPreviewTimeout | apply keeps_out
        | apply keeps_loadApiKeys | apply keeps_connectOpenAI
        | apply keeps_initialize_simli ];
  intros; reflexivity.

Lemma initialize_preserves (env : Env) : preserves P (initialize env).
Proof.
  unfold initialize.
  apply preserves_bind; [apply setState_preserves; tauto | intros _].
  do 6 (apply preserves_bind; [quiet | intros _]).
  apply preserves_bind; [apply quiet_preserves; apply keeps_get | intros sm0].
  apply preserves_bind; [quiet | intros _].
  apply setState_preserves; tauto.
Qed.

Lemma run_preserves (op : SessionOps.Op) : preserves P (SessionOps.run op).
Proof.
  destruct op as [env|keep|env|env| |muted| | |from m|from code reason
                 |now inputData timeDomain| ];
    cbn [SessionOps.run].
  - apply quiet_preserves; apply keeps_startPreview; intros; reflexivity.
  - apply quiet_preserves; apply keeps_stopPreview; intros; reflexivity.
  - apply initialize_preserves.
  - intros sm H.
    destruct (startSession_after env sm) as [[Hs Ha] | [Hs Ha]].
    + apply (P_ext sm); [exact Hs | rewrite Ha; reflexivity | exact H].
    + apply P_active; assumption.
  - intros sm _. apply P_quiet. left.
    rewrite (proj2 (SessionFacts.endSession_spec sm)). reflexivity.
  - intros sm H. apply (P_ext sm); [reflexivity | reflexivity | exact H].
  - intros sm _. apply P_quiet. left. apply state_after_destroy.
  - apply quiet_preserves; apply keeps_setVideoElement; intros; reflexivity.
  - apply quiet_preserves; apply keeps_onOpenAIMessage; intros; reflexivity.
  - apply quiet_preserves; apply keeps_onOpenAIClose; intros; reflexivity.
  - intros sm H. destruct (captureFrame_after now inputData timeDomain sm) as [Hs Ha].
    apply (P_ext sm); assumption.
  - apply quiet_preserves; apply keeps_previewTimeoutCallback; intros; reflexivity.
Qed.

Lemma after_preserves (ops : list SessionOps.Op) :
  forall sm, P sm -> P (SessionOps.after ops sm).
Proof.
  unfold SessionOps.after. induction ops as [|op r IH]; intros sm H; cbn [fold_left].
  - exact H.
  - apply IH. apply run_preserves. exact H.
Qed.

End Invariant.

End InvariantFacts.

(** X9.  Whatever the application calls and whatever the platform reports,
    each call run to its end, a manager created by [new SessionManager] is
    found in one of four states: [idle], [connecting], [connected] or
    [active].  It is never left in [ending], and no method ever puts it in
    [ready], [error] or [closed]. *)
Theorem X9_manager_rests_in_four_states
    (cfg : SessionManager.SessionConfig) (counter : Z) (ops : list SessionOps.Op) :
  SessionManager.state (SessionOps.after ops (SessionManager.new cfg counter))
  = ConnectionState.idle
  \/ SessionManager.state (SessionOps.after ops (SessionManager.new cfg counter))
     = ConnectionState.connecting
  \/ SessionManager.state (SessionOps.after ops (SessionManager.new cfg counter))
     = ConnectionState.connected
  \/ SessionManager.state (SessionOps.after ops (SessionManager.new cfg counter))
     = ConnectionState.active.
Proof.
  assert (H : restsProperly (SessionOps.after ops (SessionManager.new cfg counter))).
  { apply (InvariantFacts.after_preserves restsProperly).
    - unfold restsProperly. intros sm sm' -> _ H. exact H.
    - unfold restsProperly. intros sm [-> | [-> | ->]]; reflexivity.
    - unfold restsProperly. intros sm -> _. reflexivity.
    - reflexivity. }
  unfold restsProperly in H.
  destruct (SessionManager.state (SessionOps.after ops (SessionManager.new cfg counter)));
    try discriminate H; tauto.
Qed.

(** X10.  Whatever the application calls and whatever the platform reports,
    each call run to its end: whenever the manager is in the state
    [active], its capture pipeline is running. *)
Theorem X10_active_manager_is_capturing
    (cfg : SessionManager.SessionConfig) (counter : Z) (ops : list SessionOps.Op) :
  SessionManager.state (SessionOps.after ops (SessionManager.new cfg counter))
  = ConnectionState.active ->
  AudioCapture.isCapturing
    (SessionManager.audioCapture
       (SessionOps.after ops (SessionManager.new cfg counter))) = true.
Proof.
  apply (InvariantFacts.after_preserves activeCaptures).
  - unfold activeCaptures. intros sm sm' -> -> H. exact H.
  - unfold activeCaptures. intros sm [H | [H | H]] Ha; rewrite H in Ha; discriminate Ha.
  - unfold activeCaptures. intros sm _ H _. exact H.
  - unfold activeCaptures. cbn. discriminate.
Qed.

Lemma X10_active_manager_is_capturing_witness :
  AudioCapture.isCapturing
    (SessionManager.audioCapture
       (SessionOps.after
          [SessionOps.setVideoElement; SessionOps.initialize Examples.env0;
           SessionOps.startSession Examples.env0;
           SessionOps.audioFrame 5000 Examples.fiveFloats Examples.loudWaveform]
          (SessionManager.new
             {| SessionManager.faceId := None;
                SessionManager.characterInstructions := None |} 0))) = true.
Proof.
  apply (X10_active_manager_is_capturing
           {| SessionManager.faceId := None;
              SessionManager.characterInstructions := None |} 0
           [SessionOps.setVideoElement; SessionOps.initialize Examples.env0;
            SessionOps.startSession Examples.env0;
            SessionOps.audioFrame 5000 Examples.fiveFloats Examples.loudWaveform]).
  vm_compute. reflexivity.
Defined.

(** ** The session manager: single operations *)

Module OperationFacts.

Import SessionManager KeepFacts InvariantFacts.

Lemma resultOf_bind_ok {A A' : Type} (m : M A) (k : A -> M A') (sm : t) (a : A) :
  resultOf m sm = Ok a -> resultOf (bind m k) sm = resultOf (k a) (stateAfter m sm).
Proof.
  unfold resultOf, stateAfter, bind. destruct (m sm) as [[r sm1] o1]. cbn [fst snd].
  intros ->. destruct (k a sm1) as [[r2 sm2] o2]. reflexivity.
Qed.

Lemma outputsOf_bind_ok {A A' : Type} (m : M A) (k : A -> M A') (sm : t) (a : A) :
  resultOf m sm = Ok a ->
  outputsOf (bind m k) sm = outputsOf m sm ++ outputsOf (k a) (stateAfter m sm).
Proof.
  unfold resultOf, stateAfter, outputsOf, bind.
  destruct (m sm) as [[r sm1] o1]. cbn [fst snd].
  intros ->. destruct (k a sm1) as [[r2 sm2] o2]. reflexivity.
Qed.

(** Handing the outputs of the avatar client on changes nothing in the
    manager and cannot fail. *)
Lemma forEach_onSimliOutput (o : list SimliClient.Output) (sm : t) :
  resultOf (forEach o onSimliOutput) sm = Ok tt
  /\ stateAfter (forEach o onSimliOutput) sm = sm.
Proof.
  induction o as [|x r IH]; cbn [forEach]; [split; reflexivity|].
  assert (Hx : resultOf (onSimliOutput x) sm = Ok tt /\ stateAfter (onSimliOutput x) sm = sm)
    by (destruct x; split; reflexivity).
  destruct Hx as [Hr Hs].
  rewrite (resultOf_bind_ok _ _ _ tt Hr), (stateAfter_bind_ok _ _ _ tt Hr), Hs.
  exact IH.
Qed.

Lemma run_bind {A A' : Type} (m : M A) (k : A -> M A') (sm sm1 : t) (a : A) :
  resultOf m sm = Ok a -> stateAfter m sm = sm1 ->
  resultOf (bind m k) sm = resultOf (k a) sm1
  /\ stateAfter (bind m k) sm = stateAfter (k a) sm1.
Proof.
  intros Hr Hs. rewrite (resultOf_bind_ok _ _ _ _ Hr), (stateAfter_bind_ok _ _ _ _ Hr), Hs.
  split; reflexivity.
Qed.

Lemma clearPreviewTimeout_spec (sm : t) :
  resultOf clearPreviewTimeout sm = Ok tt
  /\ stateAfter clearPreviewTimeout sm = set_previewTimeout None sm.
Proof.
  destruct sm as [oc sc ac vh sid st cfg ok sk pt ar sent lastLog counter].
  destruct pt; split; reflexivity.
Qed.



Lemma truthy_nonempty (o : option string) (k : string) :
  truthy o = Some k -> o = Some k /\ truthy (Some k) = Some k.
Proof.
  destruct o as [[|c s]|]; cbn; intros H; try discriminate H.
  injection H as <-. split; reflexivity.
Qed.

Lemma loadApiKeys_ok (env : Env) (sm : t) (k1 k2 : string) :
  queryError (openaiKeyQuery env) = None ->
  truthy (key_value (openaiKeyQuery env)) = Some k1 ->
  queryError (simliKeyQuery env) = None ->
  truthy (key_value (simliKeyQuery env)) = Some k2 ->
  resultOf (loadApiKeys env) sm = Ok tt
  /\ stateAfter (loadApiKeys env) sm
     = set_simliApiKey (Some k2) (set_openaiApiKey (Some k1) sm).
Proof.
  intros H1 H2 H3 H4.
  unfold resultOf, stateAfter, loadApiKeys, tryCatch, bind, fetchKey.
  rewrite H1, H2. cbn [ret modify fst snd]. rewrite H3, H4. split; reflexivity.
Qed.

Lemma forEach_onOpenAIOutput_statuses (o : list OpenAIRealtimeClient.Output) (sm : t) :
  Forall (fun x => match x with
                   | OpenAIRealtimeClient.emit (OpenAIRealtimeClient.status _)
                   | OpenAIRealtimeClient.send _ => True
                   | _ => False
                   end) o ->
  resultOf (forEach o onOpenAIOutput) sm = Ok tt
  /\ stateAfter (forEach o onOpenAIOutput) sm = sm.
Proof.
  induction 1 as [|x r Hx Hr IH]; cbn [forEach]; [split; reflexivity|].
  assert (H1 : resultOf (onOpenAIOutput x) sm = Ok tt
               /\ stateAfter (onOpenAIOutput x) sm = sm).
  { destruct x as [[]| |]; try contradiction; split; reflexivity. }
  destruct H1 as [Hres Hst].
  destruct (run_bind _ (fun _ => forEach r onOpenAIOutput) sm sm tt Hres Hst) as [-> ->].
  exact IH.
Qed.

Lemma connectOpenAI_opened (env : Env) (sm : t) (k : string) :
  truthy (openaiApiKey sm) = Some k ->
  openaiConnect env = OpenAIRealtimeClient.Opened ->
  exists c,
    resultOf (connectOpenAI env) sm = Ok tt
    /\ stateAfter (connectOpenAI env) sm = set_openaiClient (Some c) sm
    /\ OpenAIRealtimeClient.isConnected c = true
    /\ OpenAIRealtimeClient.isOpen c = true.
Proof.
  intros Hk Hconn.
  destruct env as [q1 q2 cf oconn sstart mic tid].
  cbn [openaiConnect] in Hconn. subst oconn.
  set (env := {| openaiKeyQuery := q1; simliKeyQuery := q2; characterFile := cf; openaiConnect := OpenAIRealtimeClient.Opened; simliStart := sstart; microphone := mic; timerId := tid |}).
  unfold connectOpenAI.
  match goal with
  | |- context [bind get ?k] =>
      destruct (run_bind get k sm sm sm eq_refl eq_refl) as [E1 E2]
  end.
  rewrite Hk in E1, E2.
  assert (Hfile : exists instr,
             resultOf (loadCharacterFile env) sm = Ok instr
             /\ stateAfter (loadCharacterFile env) sm = sm).
  { unfold loadCharacterFile. cbn [characterFile].
    destruct cf; eexists; split; reflexivity. }
  destruct Hfile as (fileInstr & Hf1 & Hf2).
  match type of E1 with
  | context [bind (loadCharacterFile env) ?k] =>
      destruct (run_bind (loadCharacterFile env) k sm sm fileInstr Hf1 Hf2) as [F1 F2]
  end.
  rewrite F1 in E1. rewrite F2 in E2. clear F1 F2.
  unfold env in E1, E2. cbn [openaiConnect] in E1, E2.
  set (instr := OpenAIRealtimeClient.orElse fileInstr (characterInstructions (config sm)))
    in *.
  set (c0 := OpenAIRealtimeClient.new _) in *.
  set (c1 := {| OpenAIRealtimeClient.ws := Some OpenAIRealtimeClient.OPEN;
                OpenAIRealtimeClient.config := OpenAIRealtimeClient.config c0;
                OpenAIRealtimeClient.isConnected := true;
                OpenAIRealtimeClient.sessionId := OpenAIRealtimeClient.sessionId c0 |}).
  exists c1.
  assert (Hc : OpenAIRealtimeClient.connect OpenAIRealtimeClient.Opened c0
               = (Ok tt, c1,
                  snd (OpenAIRealtimeClient.connect OpenAIRealtimeClient.Opened c0)))
    by reflexivity.
  rewrite Hc in E1, E2.
  match type of E1 with
  | context [bind (modify ?g) ?k] =>
      destruct (run_bind (modify g) k sm (g sm) tt eq_refl eq_refl) as [G1 G2]
  end.
  rewrite G1 in E1. rewrite G2 in E2. clear G1 G2.
  set (sm1 := set_openaiClient (Some c1) sm) in *.
  assert (Hst : resultOf (forEach (snd (OpenAIRealtimeClient.connect
                                          OpenAIRealtimeClient.Opened c0)) onOpenAIOutput)
                  sm1 = Ok tt
                /\ stateAfter (forEach (snd (OpenAIRealtimeClient.connect
                                               OpenAIRealtimeClient.Opened c0))
                                 onOpenAIOutput) sm1 = sm1).
  { apply forEach_onOpenAIOutput_statuses. repeat constructor. }
  destruct Hst as [S1 S2].
  match type of E1 with
  | context [bind (forEach ?o onOpenAIOutput) ?k] =>
      destruct (run_bind (forEach o onOpenAIOutput) k sm1 sm1 tt S1 S2) as [G1 G2]
  end.
  rewrite G1 in E1. rewrite G2 in E2. clear G1 G2.
  assert (Hup : resultOf (when (isSome (truthy instr))
                            (forEach (OpenAIRealtimeClient.updateSession instr c1)
                               onOpenAIOutput)) sm1 = Ok tt
                /\ stateAfter (when (isSome (truthy instr))
                                 (forEach (OpenAIRealtimeClient.updateSession instr c1)
                                    onOpenAIOutput)) sm1 = sm1).
  { destruct (isSome (truthy instr)); cbn [when]; [|split; reflexivity].
    apply forEach_onOpenAIOutput_statuses. repeat constructor. }
  destruct Hup as [U1 U2].
  rewrite U1 in E1. rewrite U2 in E2.
  split; [exact E1 | split; [exact E2 | split; reflexivity]].
Qed.

Lemma createAndStartSimli_connected (env : Env) (sm : t) (key : string) :
  VideoHandler.getVideoElement (videoHandler sm) = true ->
  simliStart env = SimliClient.Connected ->
  exists c,
    resultOf (createAndStartSimli env key) sm = Ok tt
    /\ stateAfter (createAndStartSimli env key) sm
       = set_simliClient (Some c) (set_counter (simliClientInstanceCounter sm + 1) sm)
    /\ SimliClient.isConnected c = true
    /\ SimliClient.client c = true.
Proof.
  intros Hv Hs.
  destruct env as [q1 q2 cf oconn sstart mic tid].
  cbn [simliStart] in Hs. subst sstart.
  unfold createAndStartSimli. eexists.
  match goal with
  | |- context [bind get ?k] =>
      destruct (run_bind get k sm sm sm eq_refl eq_refl) as [-> ->]
  end.
  rewrite Hv. cbn [negb].
  unfold SimliClient.new, SimliClient.start.
  cbn [SimliClient.config SimliClient.videoElement negb
       SimliClient.configAudioElement simliStart].
  split; [reflexivity|]. split; [reflexivity|]. split; reflexivity.
Qed.

(** One more step of a method whose first part is known. *)
Ltac step m sm' Hr Hs :=
  match goal with
  | |- context [bind m ?k] =>
      destruct (run_bind m k _ sm' _ Hr Hs) as [-> ->]
  end.

(** [initialize] up to the avatar client: the keys are found and the speech
    socket opens. *)
Lemma initialize_ok (env : Env) (sm : t) (k1 k2 : string)
    (rest : t -> M unit) (Q : Result unit -> t -> Prop) :
  queryError (openaiKeyQuery env) = None ->
  truthy (key_value (openaiKeyQuery env)) = Some k1 ->
  queryError (simliKeyQuery env) = None ->
  truthy (key_value (simliKeyQuery env)) = Some k2 ->
  openaiConnect env = OpenAIRealtimeClient.Opened ->
  (forall c,
      OpenAIRealtimeClient.isConnected c = true ->
      OpenAIRealtimeClient.isOpen c = true ->
      let sm1 := set_openaiClient (Some c)
                   (set_simliApiKey (Some k2)
                      (set_openaiApiKey (Some k1)
                         (set_previewTimeout None
                            (set_state ConnectionState.connecting sm)))) in
      Q (resultOf (rest sm1) sm1) (stateAfter (rest sm1) sm1)) ->
  Q (resultOf
       (setState ConnectionState.connecting ;;
        clearPreviewTimeout ;;
        emitStatus Category.connection "retrieving API keys from Supabase" Level.info ;;
        loadApiKeys env ;;
        emitStatus Category.connection "connecting to OpenAI Realtime API" Level.info ;;
        connectOpenAI env ;;
        emitStatus Category.connection "connecting to Simli Avatar API" Level.info ;;
        sm0 <- get ;; rest sm0) sm)
    (stateAfter
       (setState ConnectionState.connecting ;;
        clearPreviewTimeout ;;
        emitStatus Category.connection "retrieving API keys from Supabase" Level.info ;;
        loadApiKeys env ;;
        emitStatus Category.connection "connecting to OpenAI Realtime API" Level.info ;;
        connectOpenAI env ;;
        emitStatus Category.connection "connecting to Simli Avatar API" Level.info ;;
        sm0 <- get ;; rest sm0) sm).
Proof.
  intros H1 H2 H3 H4 Hconn Hrest.
  set (sa := set_state ConnectionState.connecting sm).
  step (setState ConnectionState.connecting) sa
       (eq_refl : resultOf (setState ConnectionState.connecting) sm = Ok tt)
       (eq_refl : stateAfter (setState ConnectionState.connecting) sm = sa).
  destruct (clearPreviewTimeout_spec sa) as [Hr Hs].
  step clearPreviewTimeout (set_previewTimeout None sa) Hr Hs. clear Hr Hs.
  set (sb := set_previewTimeout None sa).
  step (emitStatus Category.connection "retrieving API keys from Supabase" Level.info) sb
       (eq_refl : resultOf (emitStatus Category.connection
                              "retrieving API keys from Supabase" Level.info) sb = Ok tt)
       (eq_refl : stateAfter (emitStatus Category.connection
                                "retrieving API keys from Supabase" Level.info) sb = sb).
  destruct (loadApiKeys_ok env sb k1 k2 H1 H2 H3 H4) as [Hr Hs].
  step (loadApiKeys env) (set_simliApiKey (Some k2) (set_openaiApiKey (Some k1) sb)) Hr Hs.
  clear Hr Hs.
  set (sc := set_simliApiKey (Some k2) (set_openaiApiKey (Some k1) sb)).
  step (emitStatus Category.connection "connecting to OpenAI Realtime API" Level.info) sc
       (eq_refl : resultOf (emitStatus Category.connection
                              "connecting to OpenAI Realtime API" Level.info) sc = Ok tt)
       (eq_refl : stateAfter (emitStatus Category.connection
                                "connecting to OpenAI Realtime API" Level.info) sc = sc).
  destruct (connectOpenAI_opened env sc k1
              (proj2 (truthy_nonempty _ _ H2)) Hconn) as (c & Hr & Hs & Hc1 & Hc2).
  step (connectOpenAI env) (set_openaiClient (Some c) sc) Hr Hs. clear Hr Hs.
  set (sd := set_openaiClient (Some c) sc).
  step (emitStatus Category.connection "connecting to Simli Avatar API" Level.info) sd
       (eq_refl : resultOf (emitStatus Category.connection
                              "connecting to Simli Avatar API" Level.info) sd = Ok tt)
       (eq_refl : stateAfter (emitStatus Category.connection
                                "connecting to Simli Avatar API" Level.info) sd = sd).
  step get sd (eq_refl : resultOf get sd = Ok sd) (eq_refl : stateAfter get sd = sd).
  exact (Hrest c Hc1 Hc2).
Qed.

Lemma run_bind_throw {A A' : Type} (m : M A) (k : A -> M A') (sm : t) (e : JsError) :
  resultOf m sm = Throw e ->
  resultOf (bind m k) sm = Throw e /\ stateAfter (bind m k) sm = stateAfter m sm.
Proof.
  unfold resultOf, stateAfter, bind. destruct (m sm) as [[r sm1] o1]. cbn [fst snd].
  intros ->. split; reflexivity.
Qed.

Lemma run_tryCatch_throw {A : Type} (m : M A) (h : JsError -> M A) (sm : t) (e : JsError) :
  resultOf m sm = Throw e ->
  resultOf (tryCatch m h) sm = resultOf (h e) (stateAfter m sm)
  /\ stateAfter (tryCatch m h) sm = stateAfter (h e) (stateAfter m sm).
Proof.
  unfold resultOf, stateAfter, tryCatch. destruct (m sm) as [[r sm1] o1]. cbn [fst snd].
  intros ->. destruct (h e sm1) as [[r2 sm2] o2]. split; reflexivity.
Qed.

Lemma loadApiKeys_settles (env : Env) (sm : t) :
  resultOf (loadApiKeys env) sm = Ok tt
  \/ exists e, resultOf (loadApiKeys env) sm = Throw e.
Proof.
  unfold resultOf, loadApiKeys, tryCatch, bind, fetchKey.
  destruct (queryError (openaiKeyQuery env)); [right; eexists; reflexivity|].
  destruct (truthy (key_value (openaiKeyQuery env))); [|right; eexists; reflexivity].
  cbn [ret modify fst snd].
  destruct (queryError (simliKeyQuery env)); [right; eexists; reflexivity|].
  destruct (truthy (key_value (simliKeyQuery env))); [|right; eexists; reflexivity].
  left. reflexivity.
Qed.

(** Without a video element no avatar client is created. *)
Lemma connectSimliPreview_without_video (env : Env) (sm : t) :
  VideoHandler.getVideoElement (videoHandler sm) = false ->
  exists e,
    resultOf (connectSimliPreview env) sm = Throw e
    /\ stateAfter (connectSimliPreview env) sm = sm.
Proof.
  intros Hv. unfold connectSimliPreview.
  match goal with
  | |- context [bind get ?k] =>
      destruct (run_bind get k sm sm sm eq_refl eq_refl) as [-> ->]
  end.
  destruct (truthy (simliApiKey sm)) as [key|]; [|eexists; split; reflexivity].
  unfold createAndStartSimli.
  match goal with
  | |- context [bind get ?k] =>
      destruct (run_bind get k sm sm sm eq_refl eq_refl) as [-> ->]
  end.
  rewrite Hv. eexists; split; reflexivity.
Qed.

Lemma startPreview_without_video (env : Env) (sm : t) :
  VideoHandler.getVideoElement (videoHandler sm) = false ->
  resultOf (startPreview env) sm = Ok tt
  /\ simliClient (stateAfter (startPreview env) sm) = simliClient sm
  /\ previewTimeout (stateAfter (startPreview env) sm) = previewTimeout sm.
Proof.
  intros Hv. unfold startPreview.
  set (handler := fun _ : JsError =>
                    emitStatus Category.error "avatar preview unavailable" Level.warning).
  match goal with
  | |- context [tryCatch ?b handler] => set (body := b)
  end.
  assert (Hbody : exists e,
             resultOf body sm = Throw e
             /\ simliClient (stateAfter body sm) = simliClient sm
             /\ previewTimeout (stateAfter body sm) = previewTimeout sm).
  { unfold body.
    match goal with
    | |- context [bind (emitStatus ?c ?m ?l) ?k] =>
        destruct (run_bind (emitStatus c m l) k sm sm tt eq_refl eq_refl) as [-> ->]
    end.
    pose proof (keeps_loadApiKeys videoHandler env
                  (fun _ _ => eq_refl) (fun _ _ => eq_refl) sm) as Kv.
    pose proof (keeps_loadApiKeys simliClient env
                  (fun _ _ => eq_refl) (fun _ _ => eq_refl) sm) as Ks.
    pose proof (keeps_loadApiKeys previewTimeout env
                  (fun _ _ => eq_refl) (fun _ _ => eq_refl) sm) as Kp.
    destruct (loadApiKeys_settles env sm) as [Hok | [e He]].
    - match goal with
      | |- context [bind (loadApiKeys env) ?k] =>
          destruct (run_bind (loadApiKeys env) k sm _ tt Hok eq_refl) as [-> ->]
      end.
      destruct (connectSimliPreview_without_video env (stateAfter (loadApiKeys env) sm))
        as (e & Hr & Hs); [rewrite Kv; exact Hv|].
      exists e.
      match goal with
      | |- context [bind (connectSimliPreview env) ?k] =>
          destruct (run_bind_throw (connectSimliPreview env) k _ e Hr) as [-> ->]
      end.
      rewrite Hs, Ks, Kp. repeat split; reflexivity.
    - exists e.
      match goal with
      | |- context [bind (loadApiKeys env) ?k] =>
          destruct (run_bind_throw (loadApiKeys env) k sm e He) as [-> ->]
      end.
      rewrite Ks, Kp. repeat split; reflexivity. }
  destruct Hbody as (e & Hr & Hs & Hp).
  destruct (run_tryCatch_throw body handler sm e Hr) as [-> ->].
  unfold handler. split; [reflexivity|]. split; assumption.
Qed.

Lemma destroy_spec (sm : t) :
  resultOf destroy sm = Ok tt
  /\ stateAfter destroy sm
     = set_videoHandler
         (VideoHandler.destroy (VideoHandler.clear (videoHandler sm)))
         (set_audioCapture
            (AudioCapture.removeAllListeners
               (audioCapture (afterEndSession (set_previewTimeout None sm))))
            (afterEndSession (set_previewTimeout None sm))).
Proof.
  unfold destroy.
  destruct (clearPreviewTimeout_spec sm) as [Hr Hs].
  step clearPreviewTimeout (set_previewTimeout None sm) Hr Hs. clear Hr Hs.
  destruct (SessionFacts.endSession_spec (set_previewTimeout None sm)) as [Hr Hs].
  step endSession (afterEndSession (set_previewTimeout None sm)) Hr Hs. clear Hr Hs.
  set (s := afterEndSession (set_previewTimeout None sm)).
  step get s (eq_refl : resultOf get s = Ok s) (eq_refl : stateAfter get s = s).
  split; reflexivity.
Qed.

End OperationFacts.

(** X11.  The relay of an audio response to the avatar never fails and
    never changes the manager, whatever the chunk: a chunk that is missing
    or empty, that is not base64, or whose bytes are odd in number is
    dropped without a trace, and so is every chunk while there is no avatar
    client.  At most one call reaches the avatar client per chunk. *)
Theorem X11_audio_relay_never_fails (delta : option string) (sm : SessionManager.t) :
  resultOf (SessionManager.onAudioResponse delta) sm = Ok tt
  /\ stateAfter (SessionManager.onAudioResponse delta) sm = sm
  /\ (length (outputsOf (SessionManager.onAudioResponse delta) sm) <= 1)%nat
  /\ (SessionManager.simliClient sm = None ->
      outputsOf (SessionManager.onAudioResponse delta) sm = [])
  /\ (SessionManager.truthy delta = None ->
      outputsOf (SessionManager.onAudioResponse delta) sm = [])
  /\ (forall d e,
        delta = Some d ->
        AudioResampler.base64ToPCM16 d = Throw e ->
        outputsOf (SessionManager.onAudioResponse delta) sm = []).
Proof.
  unfold resultOf, stateAfter, outputsOf, SessionManager.onAudioResponse,
    SessionManager.bind, SessionManager.get.
  cbn [fst snd].
  destruct (SessionManager.simliClient sm) as [sc|] eqn:Hsc.
  2: { repeat split; try reflexivity; cbn; lia. }
  destruct (SessionManager.truthy delta) as [d|] eqn:Hd.
  2: { repeat split; try reflexivity; try discriminate; cbn; lia. }
  assert (Hdelta : delta = Some d).
  { destruct delta as [[|c s]|]; cbn in Hd; congruence. }
  destruct (AudioResampler.resampleFromBase64 (SessionManager.audioResampler sm) d)
    as [bytes|e|] eqn:Hres.
  - assert (Hno : forall e, AudioResampler.base64ToPCM16 d <> Throw e).
    { intros e He. unfold AudioResampler.resampleFromBase64 in Hres.
      rewrite He in Hres. discriminate Hres. }
    unfold SimliClient.sendAudioData.
    destruct (SimliClient.client sc); destruct (SimliClient.isConnectedFlag sc);
      cbn; repeat split; try reflexivity; try discriminate; try lia;
      intros d' e' Hd' He'; rewrite Hdelta in Hd'; injection Hd' as <-;
      exfalso; exact (Hno e' He').
  - cbn. repeat split; try reflexivity; try discriminate; lia.
  - cbn. repeat split; try reflexivity; try discriminate; lia.
Qed.

Lemma X11_audio_relay_never_fails_witness :
  resultOf (SessionManager.onAudioResponse (Some "QQ=="%string)) Examples.activeManager
  = Ok tt
  /\ stateAfter (SessionManager.onAudioResponse (Some "QQ=="%string))
       Examples.activeManager
     = Examples.activeManager
  /\ outputsOf (SessionManager.onAudioResponse (Some "QQ=="%string))
       Examples.activeManager
     = [].
Proof.
  pose proof (X11_audio_relay_never_fails (Some "QQ=="%string) Examples.activeManager)
    as (Hr & Hs & _ & _ & _ & Ho).
  assert (Hodd : AudioResampler.base64ToPCM16 "QQ==" = Throw RangeError)
    by (vm_compute; reflexivity).
  split; [exact Hr | split; [exact Hs | exact (Ho "QQ=="%string RangeError eq_refl Hodd)]].
Defined.

(** X12.  [isConnected()] of the manager only tells whether the two client
    objects exist.  It keeps answering as before after the socket of a
    speech client, held or released, has closed, with any code, and after
    any message of the speech service, while the speech client the manager
    holds itself reports that it is no longer connected. *)
Theorem X12_isConnected_ignores_the_socket
    (from : SessionManager.SpeechClient)
    (code : Z) (reason : string) (m : OpenAIRealtimeClient.ServerMessage)
    (sm : SessionManager.t) :
  SessionManager.isConnected
    (stateAfter (SessionManager.onOpenAIClose from code reason) sm)
  = SessionManager.isConnected sm
  /\ SessionManager.isConnected
       (stateAfter (SessionManager.onOpenAIMessage from m) sm)
     = SessionManager.isConnected sm
  /\ (SessionManager.isConnected sm = true ->
      option_map OpenAIRealtimeClient.isActive
        (SessionManager.openaiClient
           (stateAfter (SessionManager.onOpenAIClose SessionManager.held code reason)
              sm))
      = Some false).
Proof.
  assert (Hout : forall o sm',
             SessionManager.openaiClient
               (stateAfter (SessionManager.forEach o SessionManager.onOpenAIOutput) sm')
             = SessionManager.openaiClient sm'
             /\ SessionManager.simliClient
                  (stateAfter (SessionManager.forEach o SessionManager.onOpenAIOutput) sm')
                = SessionManager.simliClient sm').
  { intros o sm'. split.
    - apply (KeepFacts.keeps_forEach SessionManager.openaiClient).
      intros a. apply KeepFacts.keeps_onOpenAIOutput. intros; reflexivity.
    - apply (KeepFacts.keeps_forEach SessionManager.simliClient).
      intros a. apply KeepFacts.keeps_onOpenAIOutput. intros; reflexivity. }
  assert (Hmsg : forall o sm',
             SessionManager.openaiClient
               (stateAfter
                  (SessionManager.tryCatch
                     (SessionManager.forEach o SessionManager.onOpenAIOutput)
                     (fun _ => SessionManager.ret tt)) sm')
             = SessionManager.openaiClient sm'
             /\ SessionManager.simliClient
                  (stateAfter
                     (SessionManager.tryCatch
                        (SessionManager.forEach o SessionManager.onOpenAIOutput)
                        (fun _ => SessionManager.ret tt)) sm')
                = SessionManager.simliClient sm').
  { intros o sm'. split.
    - apply (KeepFacts.keeps_tryCatch SessionManager.openaiClient).
      + apply KeepFacts.keeps_forEach.
        intros a. apply KeepFacts.keeps_onOpenAIOutput. intros; reflexivity.
      + intros _. apply KeepFacts.keeps_ret.
    - apply (KeepFacts.keeps_tryCatch SessionManager.simliClient).
      + apply KeepFacts.keeps_forEach.
        intros a. apply KeepFacts.keeps_onOpenAIOutput. intros; reflexivity.
      + intros _. apply KeepFacts.keeps_ret. }
  split; [|split].
  - unfold SessionManager.onOpenAIClose.
    rewrite (InvariantFacts.stateAfter_bind_ok SessionManager.get _ sm sm eq_refl).
    change (stateAfter SessionManager.get sm) with sm.
    destruct from as [|c0].
    + destruct (SessionManager.openaiClient sm) as [c|] eqn:Hc; [|reflexivity].
      destruct (OpenAIRealtimeClient.onclose code reason c) as [[c' o] rej].
      rewrite (InvariantFacts.stateAfter_bind_ok
                 (SessionManager.modify (SessionManager.set_openaiClient (Some c')))
                 _ sm tt eq_refl).
      unfold SessionManager.isConnected.
      destruct (Hout o (stateAfter (SessionManager.modify
                                      (SessionManager.set_openaiClient (Some c'))) sm))
        as [-> ->].
      rewrite Hc. reflexivity.
    + destruct (OpenAIRealtimeClient.onclose code reason c0) as [[c' o] rej].
      unfold SessionManager.isConnected.
      destruct (Hout o sm) as [-> ->]. reflexivity.
  - unfold SessionManager.onOpenAIMessage.
    rewrite (InvariantFacts.stateAfter_bind_ok SessionManager.get _ sm sm eq_refl).
    change (stateAfter SessionManager.get sm) with sm.
    destruct from as [|c0].
    + destruct (SessionManager.openaiClient sm) as [c|] eqn:Hc; [|reflexivity].
      destruct (OpenAIRealtimeClient.handleMessage m c) as [c' o].
      rewrite (InvariantFacts.stateAfter_bind_ok
                 (SessionManager.modify (SessionManager.set_openaiClient (Some c')))
                 _ sm tt eq_refl).
      unfold SessionManager.isConnected.
      destruct (Hmsg o (stateAfter (SessionManager.modify
                                      (SessionManager.set_openaiClient (Some c'))) sm))
        as [-> ->].
      rewrite Hc. reflexivity.
    + destruct (OpenAIRealtimeClient.handleMessage m c0) as [c' o].
      unfold SessionManager.isConnected.
      destruct (Hmsg o sm) as [-> ->]. reflexivity.
  - intros Hconn. unfold SessionManager.isConnected in Hconn.
    unfold SessionManager.onOpenAIClose.
    rewrite (InvariantFacts.stateAfter_bind_ok SessionManager.get _ sm sm eq_refl).
    change (stateAfter SessionManager.get sm) with sm.
    destruct (SessionManager.openaiClient sm) as [c|] eqn:Hc; [|discriminate Hconn].
    unfold OpenAIRealtimeClient.onclose.
    rewrite (InvariantFacts.stateAfter_bind_ok
               (SessionManager.modify (SessionManager.set_openaiClient _))
               _ sm tt eq_refl).
    match goal with
    | |- context [SessionManager.forEach ?o SessionManager.onOpenAIOutput] =>
        match goal with
        | |- context [stateAfter (SessionManager.forEach o SessionManager.onOpenAIOutput) ?s] =>
            destruct (Hout o s) as [-> _]
        end
    end.
    reflexivity.
Qed.

Lemma X12_isConnected_ignores_the_socket_witness :
  SessionManager.isConnected
    (stateAfter (SessionManager.onOpenAIClose SessionManager.held 1006 EmptyString)
       Examples.activeManager)
  = true
  /\ option_map OpenAIRealtimeClient.isActive
       (SessionManager.openaiClient
          (stateAfter (SessionManager.onOpenAIClose SessionManager.held 1006 EmptyString)
             Examples.activeManager))
     = Some false.
Proof.
  pose proof (X12_isConnected_ignores_the_socket SessionManager.held 1006 EmptyString
                OpenAIRealtimeClient.response_created Examples.activeManager)
    as (H1 & _ & H3).
  split.
  - rewrite H1. vm_compute. reflexivity.
  - apply H3. vm_compute. reflexivity.
Defined.

(** X13.  The outcomes of [startSession] from the state [connected] (or
    [ready]).  When the microphone is granted, the call resolves, the
    capture runs, the state is [active], the audio of the avatar client is
    unmuted, the mute flag of the microphone is as it was, and the last
    event is [sessionReady], which reports both services as connected
    whether or not the manager holds their clients.  When the microphone is
    refused, or the request times out, or the capture is running already,
    the call rejects with that error and the manager is exactly as it was:
    the state has not moved and the call can be repeated. *)
Theorem X13_startSession_outcomes (env : SessionManager.Env) (sm : SessionManager.t) :
  SessionManager.state sm = ConnectionState.connected
  \/ SessionManager.state sm = ConnectionState.ready ->
  (SessionManager.microphone env = AudioCapture.Granted ->
   AudioCapture.isCapturing (SessionManager.audioCapture sm) = false ->
   resultOf (SessionManager.startSession env) sm = Ok tt
   /\ SessionManager.state (stateAfter (SessionManager.startSession env) sm)
      = ConnectionState.active
   /\ AudioCapture.isCapturing
        (SessionManager.audioCapture (stateAfter (SessionManager.startSession env) sm))
      = true
   /\ AudioCapture.isMuted
        (SessionManager.audioCapture (stateAfter (SessionManager.startSession env) sm))
      = AudioCapture.isMuted (SessionManager.audioCapture sm)
   /\ SessionManager.simliClient (stateAfter (SessionManager.startSession env) sm)
      = option_map SimliClient.resumeAudio (SessionManager.simliClient sm)
   /\ last (outputsOf (SessionManager.startSession env) sm)
        (SessionManager.emit SessionManager.ended)
      = SessionManager.emit (SessionManager.sessionReady true true))
  /\ (forall e,
        SessionManager.microphone env = AudioCapture.Denied e ->
        AudioCapture.isCapturing (SessionManager.audioCapture sm) = false ->
        resultOf (SessionManager.startSession env) sm = Throw e
        /\ stateAfter (SessionManager.startSession env) sm = sm)
  /\ (SessionManager.microphone env = AudioCapture.TimedOut ->
      AudioCapture.isCapturing (SessionManager.audioCapture sm) = false ->
      resultOf (SessionManager.startSession env) sm
      = Throw (Error "Microphone access timeout after 10 seconds")
      /\ stateAfter (SessionManager.startSession env) sm = sm)
  /\ (AudioCapture.isCapturing (SessionManager.audioCapture sm) = true ->
      resultOf (SessionManager.startSession env) sm
      = Throw (Error "Audio capture is already running")
      /\ stateAfter (SessionManager.startSession env) sm = sm).
Proof.
  intros Hstate.
  destruct sm as [oc sc ac vh sid st cfg ok sk pt ar sent lastLog counter].
  destruct ac as [li a1 a2 a3 a4 a5 acfg capturing muted lv vc].
  destruct env as [q1 q2 cf oconn sstart mic tid].
  cbn [SessionManager.state SessionManager.microphone SessionManager.audioCapture
       AudioCapture.isCapturing AudioCapture.isMuted SessionManager.simliClient] in *.
  unfold resultOf, stateAfter, outputsOf, SessionManager.startSession,
    SessionManager.emitCapture,
    SessionManager.bind, SessionManager.get, SessionManager.tryCatch.
  destruct li.
  all: cbn [fst snd SessionManager.state SessionManager.audioCapture
            SessionManager.microphone].
  all: destruct Hstate as [-> | ->]; cbn [ConnectionState.eqb negb andb];
    (split; [|split; [|split]]).
  all: try (intros -> ->; destruct sc; cbn; repeat split; reflexivity).
  all: try (intros e -> ->; cbn; split; reflexivity).
  all: intros ->; cbn; split; reflexivity.
Qed.

Lemma X13_startSession_outcomes_witness :
  resultOf (SessionManager.startSession Examples.env0) Examples.connectedManager = Ok tt
  /\ SessionManager.state
       (stateAfter (SessionManager.startSession Examples.env0) Examples.connectedManager)
     = ConnectionState.active.
Proof.
  pose proof (proj1 (X13_startSession_outcomes Examples.env0 Examples.connectedManager
                       (or_introl eq_refl)) eq_refl eq_refl) as (H1 & H2 & _).
  split; [exact H1 | exact H2].
Defined.



(** X15.  [initialize] when the two keys are stored and the speech socket
    opens.  With an avatar client left by the preview, the call resolves in
    the state [connected] and the manager holds that same client, its audio
    stopped: no second avatar connection is opened (the instance counter
    has not moved).  Without one, provided the video element is set and the
    avatar service connects, it resolves in the state [connected] with a
    new, connected avatar client.  Either way the preview timer is
    forgotten and the speech client is connected. *)
Theorem X15_initialize_connects
    (env : SessionManager.Env) (sm : SessionManager.t) (k1 k2 : string) :
  SessionManager.queryError (SessionManager.openaiKeyQuery env) = None ->
  SessionManager.truthy (SessionManager.key_value (SessionManager.openaiKeyQuery env))
  = Some k1 ->
  SessionManager.queryError (SessionManager.simliKeyQuery env) = None ->
  SessionManager.truthy (SessionManager.key_value (SessionManager.simliKeyQuery env))
  = Some k2 ->
  SessionManager.openaiConnect env = OpenAIRealtimeClient.Opened ->
  (forall sc,
      SessionManager.simliClient sm = Some sc ->
      resultOf (SessionManager.initialize env) sm = Ok tt
      /\ SessionManager.state (stateAfter (SessionManager.initialize env) sm)
         = ConnectionState.connected
      /\ SessionManager.simliClient (stateAfter (SessionManager.initialize env) sm)
         = Some (SimliClient.stopAudio sc)
      /\ SessionManager.simliClientInstanceCounter
           (stateAfter (SessionManager.initialize env) sm)
         = SessionManager.simliClientInstanceCounter sm
      /\ SessionManager.previewTimeout (stateAfter (SessionManager.initialize env) sm)
         = None
      /\ option_map OpenAIRealtimeClient.isActive
           (SessionManager.openaiClient (stateAfter (SessionManager.initialize env) sm))
         = Some true)
  /\ (SessionManager.simliClient sm = None ->
      VideoHandler.getVideoElement (SessionManager.videoHandler sm) = true ->
      SessionManager.simliStart env = SimliClient.Connected ->
      resultOf (SessionManager.initialize env) sm = Ok tt
      /\ SessionManager.state (stateAfter (SessionManager.initialize env) sm)
         = ConnectionState.connected
      /\ option_map SimliClient.isConnected
           (SessionManager.simliClient (stateAfter (SessionManager.initialize env) sm))
         = Some true
      /\ SessionManager.simliClientInstanceCounter
           (stateAfter (SessionManager.initialize env) sm)
         = SessionManager.simliClientInstanceCounter sm + 1
      /\ SessionManager.previewTimeout (stateAfter (SessionManager.initialize env) sm)
         = None
      /\ option_map OpenAIRealtimeClient.isActive
           (SessionManager.openaiClient (stateAfter (SessionManager.initialize env) sm))
         = Some true).
Proof.
  intros H1 H2 H3 H4 Hconn. split.
  - intros sc Hsc. unfold SessionManager.initialize.
    apply (OperationFacts.initialize_ok env sm k1 k2 _
             (fun r s =>
                r = Ok tt
                /\ SessionManager.state s = ConnectionState.connected
                /\ SessionManager.simliClient s = Some (SimliClient.stopAudio sc)
                /\ SessionManager.simliClientInstanceCounter s
                   = SessionManager.simliClientInstanceCounter sm
                /\ SessionManager.previewTimeout s = None
                /\ option_map OpenAIRealtimeClient.isActive
                     (SessionManager.openaiClient s) = Some true)
             H1 H2 H3 H4 Hconn).
    intros c Hc1 Hc2 sm1.
    change (SessionManager.simliClient sm1) with (SessionManager.simliClient sm).
    rewrite Hsc. cbv zeta.
    set (c1 := SimliClient.stopAudio sc).
    set (sm2 := SessionManager.set_simliClient (Some c1) sm1).
    assert (Hup : resultOf
                    (SessionManager.bind
                       (SessionManager.modify (SessionManager.set_simliClient (Some c1)))
                       (fun _ =>
                          SessionManager.bind
                            (SessionManager.forEach (SimliClient.clearBuffer c1)
                               SessionManager.onSimliOutput)
                            (fun _ =>
                               SessionManager.emitStatus Category.simli
                                 "upgrading preview connection to full session"
                                 Level.info))) sm1 = Ok tt
                  /\ stateAfter
                       (SessionManager.bind
                          (SessionManager.modify
                             (SessionManager.set_simliClient (Some c1)))
                          (fun _ =>
                             SessionManager.bind
                               (SessionManager.forEach (SimliClient.clearBuffer c1)
                                  SessionManager.onSimliOutput)
                               (fun _ =>
                                  SessionManager.emitStatus Category.simli
                                    "upgrading preview connection to full session"
                                    Level.info))) sm1 = sm2).
    { destruct (OperationFacts.run_bind
                  (SessionManager.modify (SessionManager.set_simliClient (Some c1)))
                  (fun _ =>
                     SessionManager.bind
                       (SessionManager.forEach (SimliClient.clearBuffer c1)
                          SessionManager.onSimliOutput)
                       (fun _ =>
                          SessionManager.emitStatus Category.simli
                            "upgrading preview connection to full session"
                            Level.info))
                  sm1 sm2 tt eq_refl eq_refl) as [-> ->].
      destruct (OperationFacts.forEach_onSimliOutput (SimliClient.clearBuffer c1) sm2)
        as [Hr Hs].
      destruct (OperationFacts.run_bind _
                  (fun _ =>
                     SessionManager.emitStatus Category.simli
                       "upgrading preview connection to full session" Level.info)
                  sm2 sm2 tt Hr Hs) as [-> ->].
      split; reflexivity. }
    destruct Hup as [Hr Hs].
    destruct (OperationFacts.run_bind _
                (fun _ => SessionManager.setState ConnectionState.connected)
                sm1 sm2 tt Hr Hs) as [-> ->].
    repeat split; try reflexivity.
    cbn. unfold OpenAIRealtimeClient.isActive. rewrite Hc1. reflexivity.
  - intros Hnone Hvideo Hstart. unfold SessionManager.initialize.
    apply (OperationFacts.initialize_ok env sm k1 k2 _
             (fun r s =>
                r = Ok tt
                /\ SessionManager.state s = ConnectionState.connected
                /\ option_map SimliClient.isConnected (SessionManager.simliClient s)
                   = Some true
                /\ SessionManager.simliClientInstanceCounter s
                   = SessionManager.simliClientInstanceCounter sm + 1
                /\ SessionManager.previewTimeout s = None
                /\ option_map OpenAIRealtimeClient.isActive
                     (SessionManager.openaiClient s) = Some true)
             H1 H2 H3 H4 Hconn).
    intros c Hc1 Hc2 sm1.
    change (SessionManager.simliClient sm1) with (SessionManager.simliClient sm).
    rewrite Hnone.
    assert (Hcs : exists s,
               resultOf (SessionManager.connectSimli env) sm1 = Ok tt
               /\ stateAfter (SessionManager.connectSimli env) sm1
                  = SessionManager.set_simliClient (Some s)
                      (SessionManager.set_counter
                         (SessionManager.simliClientInstanceCounter sm + 1) sm1)
               /\ SimliClient.isConnected s = true).
    { unfold SessionManager.connectSimli.
      destruct (OperationFacts.createAndStartSimli_connected env sm1 k2 Hvideo Hstart)
        as (s & Hr & Hs & Hs1 & _).
      exists s.
      match goal with
      | |- context [SessionManager.bind SessionManager.get ?k] =>
          destruct (OperationFacts.run_bind SessionManager.get k sm1 sm1 sm1
                      eq_refl eq_refl) as [-> ->]
      end.
      change (SessionManager.simliApiKey sm1) with (Some k2).
      rewrite (proj2 (OperationFacts.truthy_nonempty _ _ H4)).
      change (SessionManager.simliClient sm1) with (SessionManager.simliClient sm).
      rewrite Hnone. split; [exact Hr | split; [exact Hs | exact Hs1]]. }
    destruct Hcs as (s & Hr & Hs & Hs1).
    destruct (OperationFacts.run_bind _
                (fun _ => SessionManager.setState ConnectionState.connected)
                sm1 _ tt Hr Hs) as [-> ->].
    repeat split; try reflexivity.
    + cbn. rewrite Hs1. reflexivity.
    + cbn. unfold OpenAIRealtimeClient.isActive. rewrite Hc1. reflexivity.
Qed.

Lemma X15_initialize_connects_witness :
  resultOf (SessionManager.initialize Examples.env0) Examples.previewManager = Ok tt
  /\ SessionManager.state
       (stateAfter (SessionManager.initialize Examples.env0) Examples.previewManager)
     = ConnectionState.connected
  /\ SessionManager.simliClientInstanceCounter
       (stateAfter (SessionManager.initialize Examples.env0) Examples.previewManager)
     = SessionManager.simliClientInstanceCounter Examples.previewManager.
Proof.
  assert (Hsc : exists sc, SessionManager.simliClient Examples.previewManager = Some sc)
    by (vm_compute; eexists; reflexivity).
  destruct Hsc as [sc Hsc].
  destruct (proj1 (X15_initialize_connects Examples.env0 Examples.previewManager
                     "sk-openai" "simli-key" eq_refl eq_refl eq_refl eq_refl eq_refl)
              sc Hsc) as (H1 & H2 & _ & H4 & _).
  split; [exact H1 | split; [exact H2 | exact H4]].
Defined.

(** X16.  [destroy] always completes and releases everything: the state is
    [idle], no client, no session id and no preview timer is left, the
    capture is stopped and has lost its listeners, and the video element is
    detached.  A manager that
    has been destroyed cannot show a preview any more: [startPreview] still
    resolves, but whatever the credential store and the avatar service
    answer it creates no avatar client and sets no timer. *)
Theorem X16_destroy_releases_everything (sm : SessionManager.t) :
  resultOf SessionManager.destroy sm = Ok tt
  /\ SessionManager.state (stateAfter SessionManager.destroy sm) = ConnectionState.idle
  /\ SessionManager.openaiClient (stateAfter SessionManager.destroy sm) = None
  /\ SessionManager.simliClient (stateAfter SessionManager.destroy sm) = None
  /\ SessionManager.sessionId (stateAfter SessionManager.destroy sm) = None
  /\ SessionManager.previewTimeout (stateAfter SessionManager.destroy sm) = None
  /\ AudioCapture.isCapturing
       (SessionManager.audioCapture (stateAfter SessionManager.destroy sm)) = false
  /\ VideoHandler.getVideoElement
       (SessionManager.videoHandler (stateAfter SessionManager.destroy sm)) = false
  /\ AudioCapture.listening
       (SessionManager.audioCapture (stateAfter SessionManager.destroy sm)) = false
  /\ forall env,
       resultOf (SessionManager.startPreview env) (stateAfter SessionManager.destroy sm)
       = Ok tt
       /\ SessionManager.simliClient
            (stateAfter (SessionManager.startPreview env)
               (stateAfter SessionManager.destroy sm)) = None
       /\ SessionManager.previewTimeout
            (stateAfter (SessionManager.startPreview env)
               (stateAfter SessionManager.destroy sm)) = None.
Proof.
  destruct (OperationFacts.destroy_spec sm) as [Hr Hs]. rewrite Hs.
  split; [exact Hr|].
  repeat (split; [reflexivity|]).
  split.
  - cbn. destruct (AudioCapture.isActive (SessionManager.audioCapture sm)) eqn:Ha.
    + reflexivity.
    + exact Ha.
  - split; [reflexivity|]. split; [reflexivity|].
    intros env.
    match goal with
    | |- context [stateAfter (SessionManager.startPreview env) ?s] =>
        destruct (OperationFacts.startPreview_without_video env s eq_refl)
          as (H1 & H2 & H3)
    end.
    split; [exact H1|]. split; [rewrite H2 | rewrite H3]; reflexivity.
Qed.

(** X17.  [SimliClient.close] is final and can be repeated.  Whatever the
    client was doing, after [close] it holds no official client and no
    audio element and reports that it is not connected; asked to send audio
    or to clear the buffer it makes no call on the official client; and
    closing it a second time changes nothing, makes no call and only emits
    the status once more. *)
Theorem X17_simli_close_is_final (c : SimliClient.t) (audioData : list byte) :
  SimliClient.client (fst (SimliClient.close c)) = false
  /\ SimliClient.audioElement (fst (SimliClient.close c)) = None
  /\ SimliClient.isConnected (fst (SimliClient.close c)) = false
  /\ SimliClient.sendAudioData audioData (fst (SimliClient.close c)) = []
  /\ SimliClient.clearBuffer (fst (SimliClient.close c)) = []
  /\ SimliClient.stopAudio (fst (SimliClient.close c)) = fst (SimliClient.close c)
  /\ SimliClient.resumeAudio (fst (SimliClient.close c)) = fst (SimliClient.close c)
  /\ SimliClient.close (fst (SimliClient.close c))
     = (fst (SimliClient.close c),
        SimliClient.status Category.simli "connection closed" Level.info).
Proof.
  assert (Hclose : fst (SimliClient.close c)
                   = {| SimliClient.client := false;
                        SimliClient.config := SimliClient.config c;
                        SimliClient.isConnectedFlag := false;
                        SimliClient.audioElement := None;
                        SimliClient.audioElementCreatedByUs := false;
                        SimliClient.instanceId := SimliClient.instanceId c |}).
  { unfold SimliClient.close, SimliClient.stopAudio. cbn [fst].
    destruct (SimliClient.audioElement c); reflexivity. }
  rewrite Hclose. repeat split; reflexivity.
Qed.

(** X18.  Nothing is written to a speech socket that has closed.  After the
    [onclose] handler ran, and after [disconnect], the client reports
    inactive and [sendAudioData], [commitAudio], [createResponse] and
    [updateSession] write nothing.  [onclose] keeps the socket object and the
    session id, so a later [disconnect] still calls [close] on the dead
    socket; [disconnect] drops both, and repeating it does nothing. *)
Theorem X18_closed_speech_socket_is_silent
    (code : Z) (reason : string) (c : OpenAIRealtimeClient.t) :
  sendsNothing (fst (fst (OpenAIRealtimeClient.onclose code reason c)))
  /\ sendsNothing (fst (OpenAIRealtimeClient.disconnect c))
  /\ OpenAIRealtimeClient.isActive
       (fst (fst (OpenAIRealtimeClient.onclose code reason c))) = false
  /\ OpenAIRealtimeClient.isActive (fst (OpenAIRealtimeClient.disconnect c)) = false
  /\ OpenAIRealtimeClient.getSessionId
       (fst (fst (OpenAIRealtimeClient.onclose code reason c)))
     = OpenAIRealtimeClient.getSessionId c
  /\ OpenAIRealtimeClient.getSessionId (fst (OpenAIRealtimeClient.disconnect c)) = None
  /\ snd (OpenAIRealtimeClient.disconnect
            (fst (fst (OpenAIRealtimeClient.onclose code reason c))))
     = snd (OpenAIRealtimeClient.disconnect c)
  /\ OpenAIRealtimeClient.disconnect (fst (OpenAIRealtimeClient.disconnect c))
     = (fst (OpenAIRealtimeClient.disconnect c), []).
Proof.
  unfold sendsNothing, OpenAIRealtimeClient.onclose, OpenAIRealtimeClient.disconnect,
    OpenAIRealtimeClient.sendAudioData, OpenAIRealtimeClient.commitAudio,
    OpenAIRealtimeClient.createResponse, OpenAIRealtimeClient.updateSession,
    OpenAIRealtimeClient.sendMessage, OpenAIRealtimeClient.isOpen,
    OpenAIRealtimeClient.isActive, OpenAIRealtimeClient.getSessionId.
  cbn [fst snd OpenAIRealtimeClient.ws OpenAIRealtimeClient.isConnected
       OpenAIRealtimeClient.sessionId OpenAIRealtimeClient.config].
  destruct (OpenAIRealtimeClient.ws c) as [r|]; cbn [option_map];
    repeat split; reflexivity.
Qed.

(** ** The listeners of the manager on its capture pipeline *)

Module ListenerFacts.

Import SessionManager KeepFacts.

Lemma processAudio_listening (now : Z) (inputData : list F64.float)
    (timeDomain : list Z) (ac : AudioCapture.t) :
  AudioCapture.listening (fst (AudioCapture.processAudio now inputData timeDomain ac))
  = AudioCapture.listening ac.
Proof.
  unfold AudioCapture.processAudio.
  destruct (negb (AudioCapture.isCapturing ac) || negb (AudioCapture.analyser ac));
    [reflexivity|].
  destruct (AudioCapture.detectVoiceActivity timeDomain ac && negb (AudioCapture.isMuted ac));
    reflexivity.
Qed.

Lemma keeps_initialize (env : Env) : keeps audioCapture (initialize env).
Proof.
  unfold initialize, setState.
  repeat first
    [ keeps_step
    | apply keeps_loadApiKeys; intros; reflexivity
    | apply keeps_clearPreviewTimeout; intros; reflexivity
    | apply keeps_connectOpenAI; intros; reflexivity
    | apply keeps_onSimliOutput
    | apply InvariantFacts.keeps_connectSimli; intros; reflexivity ].
Qed.

Lemma captureFrame_listening (now : Z) (inputData : list F64.float)
    (timeDomain : list Z) (sm : t) :
  AudioCapture.listening
    (audioCapture (stateAfter (captureFrame now inputData timeDomain) sm))
  = AudioCapture.listening (audioCapture sm).
Proof.
  pose proof (processAudio_listening now inputData timeDomain (audioCapture sm)) as Hp.
  unfold captureFrame.
  rewrite (InvariantFacts.stateAfter_bind_ok get _ sm sm eq_refl).
  change (stateAfter get sm) with sm.
  destruct (AudioCapture.processAudio now inputData timeDomain (audioCapture sm))
    as [ac events]. cbn [fst] in Hp.
  rewrite (InvariantFacts.stateAfter_bind_ok (modify (set_audioCapture ac)) _ sm tt eq_refl).
  change (stateAfter (modify (set_audioCapture ac)) sm) with (set_audioCapture ac sm).
  rewrite (InvariantFacts.keeps_emitCapture audioCapture); [exact Hp | intros; reflexivity ..].
Qed.

Lemma startSession_listening (env : Env) (sm : t) :
  AudioCapture.listening (audioCapture (stateAfter (startSession env) sm))
  = AudioCapture.listening (audioCapture sm).
Proof.
  destruct sm as [oc sc ac vh sid st cfg ok sk pt ar sent lastLog counter].
  destruct ac as [li a1 a2 a3 a4 a5 acfg capturing muted lv vc].
  destruct env as [q1 q2 cf oconn sstart mic tid].
  unfold stateAfter, startSession, emitCapture, bind, get, tryCatch.
  cbn [fst snd state audioCapture microphone].
  destruct st; cbn [ConnectionState.eqb negb andb]; try reflexivity;
    destruct li; destruct capturing; destruct mic; destruct sc; cbn; reflexivity.
Qed.

(** The listeners stay registered until [destroy], and nothing registers
    them again. *)
Lemma run_listening (op : SessionOps.Op) (sm : t) :
  AudioCapture.listening (audioCapture (stateAfter (SessionOps.run op) sm))
  = negb (SessionOps.isDestroy op) && AudioCapture.listening (audioCapture sm).
Proof.
  assert (Hkeep : forall m : M unit,
             keeps audioCapture m ->
             AudioCapture.listening (audioCapture (stateAfter m sm))
             = true && AudioCapture.listening (audioCapture sm)).
  { intros m Hm. rewrite Hm. reflexivity. }
  destruct op as [env|keep|env|env| |muted| | |from m|from code reason
                 |now inputData timeDomain| ];
    cbn [SessionOps.run SessionOps.isDestroy negb].
  - apply Hkeep. apply InvariantFacts.keeps_startPreview; intros; reflexivity.
  - apply Hkeep. apply InvariantFacts.keeps_stopPreview; intros; reflexivity.
  - apply Hkeep. apply keeps_initialize.
  - apply startSession_listening.
  - rewrite (proj2 (SessionFacts.endSession_spec sm)).
    unfold afterEndSession. cbn [audioCapture andb].
    destruct (AudioCapture.isActive (audioCapture sm)); reflexivity.
  - reflexivity.
  - rewrite (proj2 (OperationFacts.destroy_spec sm)). reflexivity.
  - apply Hkeep. apply InvariantFacts.keeps_setVideoElement; intros; reflexivity.
  - apply Hkeep. apply InvariantFacts.keeps_onOpenAIMessage; intros; reflexivity.
  - apply Hkeep. apply InvariantFacts.keeps_onOpenAIClose; intros; reflexivity.
  - apply captureFrame_listening.
  - apply Hkeep. apply InvariantFacts.keeps_previewTimeoutCallback; intros; reflexivity.
Qed.

Lemma after_listening (ops : list SessionOps.Op) :
  forall sm,
    AudioCapture.listening (audioCapture (SessionOps.after ops sm))
    = negb (existsb SessionOps.isDestroy ops) && AudioCapture.listening (audioCapture sm).
Proof.
  unfold SessionOps.after. induction ops as [|op r IH]; intros sm; cbn [fold_left existsb].
  - reflexivity.
  - rewrite IH, run_listening.
    destruct (SessionOps.isDestroy op); destruct (existsb SessionOps.isDestroy r);
      reflexivity.
Qed.

(** Without listeners on the capture, a frame has no effect beyond the
    pipeline itself. *)
Lemma captureFrame_unheard (now : Z) (inputData : list F64.float)
    (timeDomain : list Z) (sm : t) :
  AudioCapture.listening (audioCapture sm) = false ->
  outputsOf (captureFrame now inputData timeDomain) sm = [].
Proof.
  intros Hl.
  pose proof (processAudio_listening now inputData timeDomain (audioCapture sm)) as Hp.
  unfold outputsOf, captureFrame, emitCapture, bind, get, modify, when.
  cbn [fst snd].
  destruct (AudioCapture.processAudio now inputData timeDomain (audioCapture sm))
    as [ac events]. cbn [fst snd] in *.
  destruct sm as [oc sc ac0 vh sid st cfg ok sk pt ar sent lastLog counter].
  cbn [audioCapture set_audioCapture] in *.
  rewrite Hp, Hl. reflexivity.
Qed.

End ListenerFacts.

(** X8.  The way of a captured frame to the speech service.  The manager
    hears its capture pipeline from its construction until [destroy], which
    removes the listeners, and nothing registers them again: a manager that
    has been destroyed does nothing at all with a frame, whatever it is used
    for afterwards.  Unless the manager is in the state [active], no frame
    is written to the speech socket.  In the state [active], with the
    listeners registered, the capture running and not muted and a speech
    client that is connected with an open socket, a frame is written as
    exactly one [input_audio_buffer.append] message, and its base64 text
    decodes to the samples of the frame: each input sample clamped, scaled
    and truncated to 16 bits, in order. *)
Theorem X8_captured_frame_reaches_speech_socket
    (sm : SessionManager.t) (now : Z) (inputData : list F64.float)
    (timeDomain : list Z) :
  (forall cfg counter ops,
      AudioCapture.listening
        (SessionManager.audioCapture
           (SessionOps.after ops (SessionManager.new cfg counter)))
      = negb (existsb SessionOps.isDestroy ops))
  /\ (AudioCapture.listening (SessionManager.audioCapture sm) = false ->
      outputsOf (SessionManager.captureFrame now inputData timeDomain) sm = [])
  /\ (SessionManager.state sm <> ConnectionState.active ->
      filter SessionManager.isAudioAppend
        (outputsOf (SessionManager.captureFrame now inputData timeDomain) sm) = [])
  /\ (forall c : OpenAIRealtimeClient.t,
        AudioCapture.listening (SessionManager.audioCapture sm) = true ->
        SessionManager.state sm = ConnectionState.active ->
        SessionManager.openaiClient sm = Some c ->
        OpenAIRealtimeClient.isConnected c = true ->
        OpenAIRealtimeClient.isOpen c = true ->
        AudioCapture.isCapturing (SessionManager.audioCapture sm) = true ->
        AudioCapture.analyser (SessionManager.audioCapture sm) = true ->
        AudioCapture.isMuted (SessionManager.audioCapture sm) = false ->
        exists audio : string,
          filter SessionManager.isAudioAppend
            (outputsOf (SessionManager.captureFrame now inputData timeDomain) sm)
          = [SessionManager.openaiSend
               (OpenAIRealtimeClient.input_audio_buffer_append audio)]
          /\ AudioResampler.base64ToPCM16 audio
             = Ok (map (fun x => toInt16 (AudioCapture.scaleSample x)) inputData)).
Proof.
  split; [|split; [|split]].
  - intros cfg counter ops. rewrite ListenerFacts.after_listening.
    cbn. apply andb_true_r.
  - apply ListenerFacts.captureFrame_unheard.
  - intros Hstate.
    destruct (AudioCapture.listening (SessionManager.audioCapture sm)) eqn:Hl;
      [|rewrite (ListenerFacts.captureFrame_unheard now inputData timeDomain sm Hl);
        reflexivity].
    destruct sm as [oc sc ac vh sid st cfg ok sk pt ar sent lastLog counter].
    cbn [SessionManager.state SessionManager.audioCapture] in Hstate, Hl.
    unfold outputsOf, SessionManager.captureFrame, SessionManager.emitCapture,
      SessionManager.bind, SessionManager.get, SessionManager.modify,
      SessionManager.when, AudioCapture.processAudio.
    cbn [fst snd SessionManager.audioCapture].
    destruct (negb (AudioCapture.isCapturing ac) || negb (AudioCapture.analyser ac));
      [cbn [fst snd SessionManager.audioCapture SessionManager.set_audioCapture];
       rewrite Hl; reflexivity|].
    generalize (AudioCapture.convertToPCM16 inputData). intros pcm.
    destruct (AudioCapture.detectVoiceActivity timeDomain ac);
      destruct (AudioCapture.isMuted ac); cbn [negb andb app];
      try destruct (now - AudioCapture.lastVoiceLogTime ac >? 1000);
      cbn [fst snd SessionManager.audioCapture SessionManager.set_audioCapture
           AudioCapture.listening];
      rewrite ?Hl;
      destruct st; try congruence; reflexivity.
  - intros c Hl Hstate Hoc Hconn Hopen Hcap Han Hmuted.
    exists (OpenAIRealtimeClient.arrayBufferToBase64
              (AudioCapture.convertToPCM16 inputData)).
    split.
    + destruct sm as [oc sc ac vh sid st cfg ok sk pt ar sent lastLog counter].
      cbn [SessionManager.state SessionManager.openaiClient
           SessionManager.audioCapture] in *.
      subst st oc.
      destruct c as [ws ccfg conn csid].
      unfold OpenAIRealtimeClient.isOpen in Hopen.
      cbn [OpenAIRealtimeClient.isConnected OpenAIRealtimeClient.ws] in Hconn, Hopen.
      destruct ws as [[| | |]|]; try discriminate Hopen. subst conn.
      unfold outputsOf, SessionManager.captureFrame, SessionManager.emitCapture,
        SessionManager.bind, SessionManager.get, SessionManager.modify,
        SessionManager.when, AudioCapture.processAudio.
      cbn [fst snd SessionManager.audioCapture].
      rewrite Hcap, Han, Hmuted. cbn [negb orb andb].
      rewrite andb_true_r.
      unfold SessionManager.forEach, SessionManager.onCaptureEvent,
        SessionManager.onAudio, OpenAIRealtimeClient.sendAudioData,
        OpenAIRealtimeClient.sendMessage, OpenAIRealtimeClient.isOpen.
      cbn [OpenAIRealtimeClient.isConnected OpenAIRealtimeClient.ws negb orb].
      destruct (AudioCapture.detectVoiceActivity timeDomain ac);
        try destruct (now - AudioCapture.lastVoiceLogTime ac >? 1000);
        cbn [app fst snd SessionManager.audioCapture SessionManager.set_audioCapture
             AudioCapture.listening];
        rewrite ?Hl;
        unfold SessionManager.bind, SessionManager.get;
        cbn [fst snd SessionManager.state SessionManager.lastAudioLogTime
             SessionManager.set_audioCapture ConnectionState.eqb
             SessionManager.openaiClient];
        destruct (now - lastLog >? 2000); cbn; reflexivity.
    + unfold AudioCapture.convertToPCM16.
      rewrite (CodecFacts.base64ToPCM16_arrayBufferToBase64
                 (fun x => toInt16 (AudioCapture.scaleSample x)) inputData).
      f_equal. apply map_ext. intros x.
      apply CaptureFacts.wrapInt16_small. apply CodecFacts.toInt16_range.
Qed.

(** A frame in the first session of a manager, and the same frame in the
    session of a manager that was destroyed before: its state is [active],
    its capture runs unmuted and its speech socket is open, and the frame
    goes nowhere. *)
Lemma X8_captured_frame_reaches_speech_socket_witness :
  (exists audio : string,
      filter SessionManager.isAudioAppend
        (outputsOf (SessionManager.captureFrame 5000 Examples.fiveFloats
                      Examples.loudWaveform) Examples.activeManager)
      = [SessionManager.openaiSend
           (OpenAIRealtimeClient.input_audio_buffer_append audio)]
      /\ AudioResampler.base64ToPCM16 audio = Ok [32767; -32768; 16383; 32767; 0])
  /\ SessionManager.state reusedManager = ConnectionState.active
  /\ AudioCapture.isCapturing (SessionManager.audioCapture reusedManager) = true
  /\ AudioCapture.isMuted (SessionManager.audioCapture reusedManager) = false
  /\ option_map OpenAIRealtimeClient.isOpen (SessionManager.openaiClient reusedManager)
     = Some true
  /\ outputsOf (SessionManager.captureFrame 5000 Examples.fiveFloats
                  Examples.loudWaveform) reusedManager = [].
Proof.
  split; [|repeat (split; [vm_compute; reflexivity|])].
  - edestruct (proj2 (proj2 (proj2
                 (X8_captured_frame_reaches_speech_socket Examples.activeManager
                    5000 Examples.fiveFloats Examples.loudWaveform))))
      as (audio & H1 & H2).
    + vm_compute. reflexivity.
    + vm_compute. reflexivity.
    + vm_compute. reflexivity.
    + reflexivity.
    + reflexivity.
    + reflexivity.
    + reflexivity.
    + reflexivity.
    + exists audio. split; [exact H1|]. rewrite H2. vm_compute. reflexivity.
  - apply (proj1 (proj2 (X8_captured_frame_reaches_speech_socket reusedManager
                           5000 Examples.fiveFloats Examples.loudWaveform))).
    vm_compute. reflexivity.
Defined.
